(** * Depth map to mesh conversion and GLB export: a shallow embedding

    The program is a browser script on top of three.js.  Its numbers are
    JavaScript numbers; here they are exact rationals ([Q]): rounding and
    the values NaN and Infinity are outside the model, and numeric
    statements are up to [Qeq].  Angles are recorded in units of
    [Math.PI].  three.js objects live in a store and are named by
    references, because the script shares them between meshes.

    The loaders of the model work on bytes and on their own pieces of the
    browser; what the network, the TFLite library and the model answer is
    given to them as arguments. *)

From Stdlib Require Import QArith Qminmax Qround Lqa ZArith List Ascii String Lia.
From stdpp Require Import base option list gmap strings pretty.

Import ListNotations.

(** ** Numbers and vectors *)

Definition ofNat (n : nat) : Q := inject_Z (Z.of_nat n).
Definition ofZ (n : Z) : Q := inject_Z n.

(** [a < b] on numbers. *)
Definition ltb (a b : Q) : bool := negb (Qle_bool b a).

(** [a || b] on strings: the empty string is falsy. *)
Definition orElse (a b : string) : string :=
  if decide (a = EmptyString) then b else a.

Module Vector3.
Record t := mk { x : Q; y : Q; z : Q }.

Definition zero : t := mk 0 0 0.
Definition setZ (v : t) (z' : Q) : t := mk (x v) (y v) z'.
Definition addVectors (a b : t) : t :=
  mk (x a + x b)%Q (y a + y b)%Q (z a + z b)%Q.
Definition multiplyScalar (v : t) (s : Q) : t :=
  mk (x v * s)%Q (y v * s)%Q (z v * s)%Q.
Definition negate (v : t) : t := mk (- x v)%Q (- y v)%Q (- z v)%Q.
Definition min (a b : t) : t :=
  mk (Qmin (x a) (x b)) (Qmin (y a) (y b)) (Qmin (z a) (z b)).
Definition max (a b : t) : t :=
  mk (Qmax (x a) (x b)) (Qmax (y a) (y b)) (Qmax (z a) (z b)).
Definition distanceToSquared (a b : t) : Q :=
  let dx := (x a - x b)%Q in
  let dy := (y a - y b)%Q in
  let dz := (z a - z b)%Q in
  (dx * dx + dy * dy + dz * dz)%Q.

(** [applyMatrix4] with the matrix of [Matrix4.makeTranslation(tx,ty,tz)]:
    the perspective divisor is [1 / (0*x + 0*y + 0*z + 1)]. *)
Definition applyTranslation (tx ty tz : Q) (v : t) : t :=
  let w := (1 / (0 * x v + 0 * y v + 0 * z v + 1))%Q in
  mk ((1 * x v + 0 * y v + 0 * z v + tx) * w)%Q
     ((0 * x v + 1 * y v + 0 * z v + ty) * w)%Q
     ((0 * x v + 0 * y v + 1 * z v + tz) * w)%Q.

(** Numeric equality of vectors. *)
Definition equiv (a b : t) : Prop :=
  (x a == x b /\ y a == y b /\ z a == z b)%Q.
End Vector3.

(** ** Box3 *)

(** A [Box3] is empty ([makeEmpty]: min = +Infinity, max = -Infinity) or
    has finite corners. *)
Inductive Box3 :=
| EmptyBox
| Box (min max : Vector3.t).

Definition expandByPoint (b : Box3) (p : Vector3.t) : Box3 :=
  match b with
  | EmptyBox => Box p p
  | Box lo hi => Box (Vector3.min lo p) (Vector3.max hi p)
  end.

Definition setFromBufferAttribute (ps : list Vector3.t) : Box3 :=
  fold_left expandByPoint ps EmptyBox.

Definition isEmpty (b : Box3) : bool :=
  match b with
  | EmptyBox => true
  | Box lo hi =>
      ltb (Vector3.x hi) (Vector3.x lo)
      || ltb (Vector3.y hi) (Vector3.y lo)
      || ltb (Vector3.z hi) (Vector3.z lo)
  end.

Definition getCenter (b : Box3) : Vector3.t :=
  match b with
  | EmptyBox => Vector3.zero
  | Box lo hi =>
      if isEmpty b then Vector3.zero
      else Vector3.multiplyScalar (Vector3.addVectors lo hi) (1 # 2)
  end.

(** ** BufferGeometry *)

(** The script calls these methods of three.js; they are written here as
    three.js has them ([BufferGeometry], [Box3], [Vector3],
    [PlaneGeometry]), on the attributes the script uses. *)

(** Vertex normals are normalised with [Math.sqrt], which has no rational
    counterpart: the normal attribute records how it was obtained. *)
Inductive Normals :=
| PlaneNormals (count : nat)
    (** [(0,0,1)] at each of [count] vertices *)
| VertexNormals (position : list Vector3.t) (index : option (list nat))
    (** the result of [computeVertexNormals] on these positions and faces *)
| Renormalized (n : Normals).
    (** [applyNormalMatrix] of a translation: every normal normalised again *)

(** The radius of a bounding sphere is [-1] in a new [Sphere] and
    [Math.sqrt maxRadiusSq] once computed. *)
Inductive Radius :=
| RadiusUnset
| RadiusSqrt (maxRadiusSq : Q).

Record Sphere := { center : Vector3.t; radius : Radius }.

Record BufferGeometry := {
  position : option (list Vector3.t);
  normal : option Normals;
  uv : option (list (Q * Q));
  index : option (list nat);
  boundingBox : option Box3;
  boundingSphere : option Sphere
}.

(** [attribute.count] *)
Definition count (g : BufferGeometry) : nat :=
  match position g with Some ps => length ps | None => 0%nat end.

Definition computeBoundingBox (g : BufferGeometry) : BufferGeometry :=
  {| position := position g; normal := normal g; uv := uv g; index := index g;
     boundingBox :=
       Some (match position g with
             | Some ps => setFromBufferAttribute ps
             | None => EmptyBox
             end);
     boundingSphere := boundingSphere g |}.

Definition computeBoundingSphere (g : BufferGeometry) : BufferGeometry :=
  {| position := position g; normal := normal g; uv := uv g; index := index g;
     boundingBox := boundingBox g;
     boundingSphere :=
       Some (match position g with
             | Some ps =>
                 let c := getCenter (setFromBufferAttribute ps) in
                 {| center := c;
                    radius :=
                      RadiusSqrt
                        (fold_left
                           (fun m p => Qmax m (Vector3.distanceToSquared c p))
                           ps 0%Q) |}
             | None =>
                 match boundingSphere g with
                 | Some s => s
                 | None => {| center := Vector3.zero; radius := RadiusUnset |}
                 end
             end) |}.

(** [translate(tx,ty,tz)], that is [applyMatrix4] of a translation. *)
Definition translate (tx ty tz : Q) (g : BufferGeometry) : BufferGeometry :=
  let g1 :=
    {| position := map (Vector3.applyTranslation tx ty tz) <$> position g;
       normal := Renormalized <$> normal g;
       uv := uv g; index := index g;
       boundingBox := boundingBox g;
       boundingSphere := boundingSphere g |} in
  let g2 :=
    match boundingBox g1 with
    | Some _ => computeBoundingBox g1
    | None => g1
    end in
  match boundingSphere g2 with
  | Some _ => computeBoundingSphere g2
  | None => g2
  end.

(** [geometry.center()] *)
Definition center_ (g : BufferGeometry) : BufferGeometry :=
  let g1 := computeBoundingBox g in
  let offset :=
    Vector3.negate
      (getCenter (match boundingBox g1 with Some b => b | None => EmptyBox end)) in
  translate (Vector3.x offset) (Vector3.y offset) (Vector3.z offset) g1.

Definition computeVertexNormals (g : BufferGeometry) : BufferGeometry :=
  match position g with
  | Some ps =>
      {| position := position g;
         normal := Some (VertexNormals ps (index g));
         uv := uv g; index := index g;
         boundingBox := boundingBox g;
         boundingSphere := boundingSphere g |}
  | None => g
  end.

(** [positionAttribute.setZ(i, z)]; an index past the end writes nothing. *)
Definition setZ (i : nat) (z' : Q) (ps : list Vector3.t) : list Vector3.t :=
  alter (fun v => Vector3.setZ v z') i ps.

(** [new THREE.PlaneGeometry(width, height, widthSegments, heightSegments)].
    With [gridX = 0] the source divides by zero and the x coordinates are
    not numbers; [Q] gives the quotient 0 there (likewise y for [gridY = 0]
    and the texture coordinates). *)
Definition PlaneGeometry (width height : Q) (widthSegments heightSegments : Z)
  : BufferGeometry :=
  let width_half := (width / 2)%Q in
  let height_half := (height / 2)%Q in
  let gridX := widthSegments in
  let gridY := heightSegments in
  let gridX1 := (gridX + 1)%Z in
  let gridY1 := (gridY + 1)%Z in
  let segment_width := (width / ofZ gridX)%Q in
  let segment_height := (height / ofZ gridY)%Q in
  let rows := seq 0 (Z.to_nat gridY1) in
  let cols := seq 0 (Z.to_nat gridX1) in
  let vertices :=
    flat_map (fun iy =>
      let y := (ofNat iy * segment_height - height_half)%Q in
      map (fun ix =>
        let x := (ofNat ix * segment_width - width_half)%Q in
        Vector3.mk x (- y)%Q 0%Q) cols) rows in
  let uvs :=
    flat_map (fun iy =>
      map (fun ix =>
        ((ofNat ix / ofZ gridX)%Q, (1 - ofNat iy / ofZ gridY)%Q)) cols) rows in
  let indices :=
    flat_map (fun iy =>
      flat_map (fun ix =>
        let a := (ix + Z.to_nat gridX1 * iy)%nat in
        let b := (ix + Z.to_nat gridX1 * (iy + 1))%nat in
        let c := ((ix + 1) + Z.to_nat gridX1 * (iy + 1))%nat in
        let d := ((ix + 1) + Z.to_nat gridX1 * iy)%nat in
        [a; b; d; b; c; d]) (seq 0 (Z.to_nat gridX))) (seq 0 (Z.to_nat gridY)) in
  {| position := Some vertices;
     normal := Some (PlaneNormals (length vertices));
     uv := Some uvs;
     index := Some indices;
     boundingBox := None;
     boundingSphere := None |}.

(** ** Objects of the scene graph *)

Definition ref := nat.

Record Image := { imageWidth : nat; imageHeight : nat }.

Record Texture := { image : option Image; needsUpdate : bool }.

Inductive Side := FrontSide | BackSide | DoubleSide.

Record Material := {
  map_ : option ref;                (** [material.map], a texture *)
  normalMap : option ref;
  normalScale : Q * Q;
  side : Side
}.

(** [new THREE.MeshStandardMaterial(materialParams)] *)
Record MaterialParams := {
  p_map : option ref;
  p_side : Side;
  p_normalMap : option ref;
  p_normalScale : option (Q * Q)
}.

Definition MeshStandardMaterial (p : MaterialParams) : Material :=
  {| map_ := p_map p;
     normalMap := p_normalMap p;
     normalScale := default (1, 1)%Q (p_normalScale p);
     side := p_side p |}.

(** Euler angles, in units of [Math.PI]. *)
Record Euler := { ex : Q; ey : Q; ez : Q }.

Record Mesh := {
  geometry : option ref;
  material : option ref;
  mposition : Vector3.t;
  rotation : Euler
}.

(** [new THREE.Mesh(geometry, material)] *)
Definition newMesh (g m : ref) : Mesh :=
  {| geometry := Some g; material := Some m;
     mposition := Vector3.zero; rotation := {| ex := 0; ey := 0; ez := 0 |} |}.

(** [mesh.position.set(x, y, z)] *)
Definition setPosition (v : Vector3.t) (m : Mesh) : Mesh :=
  {| geometry := geometry m; material := material m;
     mposition := v; rotation := rotation m |}.

(** [mesh.rotation.set(x, y, z)] *)
Definition setRotation (e : Euler) (m : Mesh) : Mesh :=
  {| geometry := geometry m; material := material m;
     mposition := mposition m; rotation := e |}.

(** [mesh.rotation.x = a] *)
Definition setRotationX (a : Q) (m : Mesh) : Mesh :=
  setRotation {| ex := a; ey := ey (rotation m); ez := ez (rotation m) |} m.

(** What a [dispose()] call asks the renderer to free. *)
Inductive Resource :=
| GeometryBuffers (g : ref)
| MaterialProgram (m : ref)
| TextureData (t : ref).

#[global] Instance Resource_eq_dec : EqDecision Resource.
Proof. solve_decision. Defined.

Inductive SceneChild :=
| MeshChild (m : ref)
| AmbientLight (color : Z) (intensity : Q)
| DirectionalLight (color : Z) (intensity : Q) (at_ : Vector3.t).

(** ** Errors *)

Inductive JsError :=
| Error (message : string)
| TypeError (message : string)
| NotANumber.
    (** the computation leaves the rational model *)

Definition message (e : JsError) : string :=
  match e with
  | Error m | TypeError m => m
  | NotANumber => EmptyString
  end.

(** ** The page: three.js store, globals, and the parts of the DOM the
    script reads and writes *)

Record Metadata := {
  vertices : nat;
  faces : Q;
  textureResolution : string
}.

Record UserData := {
  generatedBy : string;
  originalImage : string;
  createdAt : string;
  version : string;
  metadata : Metadata
}.

Record ExportOptions := {
  binary : bool;
  includeCustomExtensions : bool;
  embedImages : bool;
  onlyVisible : bool;
  maxTextureSize : nat;
  forceIndices : bool;
  truncateDrawRange : bool;
  userData : UserData
}.

(** The callback of [setTimeout] in [downloadGLB]. *)
Record Cleanup := { c_mesh : ref }.

Record Inputs := {
  depth_scale : Q;            (** value of the [depth-scale] slider *)
  base_height : Q;
  use_normal_map : bool;
  auto_center : bool;
  uploadFile : option string; (** [uploadInput.files[0]?.name] *)
  now : string                (** [new Date().toISOString()] *)
}.

Record Store := {
  geometries : gmap ref BufferGeometry;
  materials : gmap ref Material;
  textures : gmap ref Texture;
  meshes : gmap ref Mesh;
  nextRef : ref;
  disposed : list Resource              (** dispose events, latest first *)
}.

Record Page := {
  loadingIndicator : bool * string;     (** shown?, text *)
  downloadBtnDisabled : bool;
  alerts : list string;                 (** latest first *)
  saved : list (string * list Byte.byte); (** name and bytes, per download *)
  timeouts : list Cleanup
}.

Record World := {
  store : Store;
  scene : list ref;                     (** children of the live scene *)
  currentMesh : option ref;
  inputs : Inputs;
  page : Page
}.

Definition withStore (f : Store -> Store) (w : World) : World :=
  {| store := f (store w); scene := scene w; currentMesh := currentMesh w;
     inputs := inputs w; page := page w |}.

Definition withPage (f : Page -> Page) (w : World) : World :=
  {| store := store w; scene := scene w; currentMesh := currentMesh w;
     inputs := inputs w; page := f (page w) |}.

Definition withScene (f : list ref -> list ref) (w : World) : World :=
  {| store := store w; scene := f (scene w); currentMesh := currentMesh w;
     inputs := inputs w; page := page w |}.

Definition setCurrentMesh (m : option ref) (w : World) : World :=
  {| store := store w; scene := scene w; currentMesh := m;
     inputs := inputs w; page := page w |}.

Definition bump (s : Store) : Store :=
  {| geometries := geometries s; materials := materials s;
     textures := textures s; meshes := meshes s;
     nextRef := S (nextRef s); disposed := disposed s |}.

Definition putGeometry (r : ref) (g : BufferGeometry) (s : Store) : Store :=
  {| geometries := <[r := g]> (geometries s); materials := materials s;
     textures := textures s; meshes := meshes s;
     nextRef := nextRef s; disposed := disposed s |}.

Definition putMaterial (r : ref) (m : Material) (s : Store) : Store :=
  {| geometries := geometries s; materials := <[r := m]> (materials s);
     textures := textures s; meshes := meshes s;
     nextRef := nextRef s; disposed := disposed s |}.

Definition putTexture (r : ref) (t : Texture) (s : Store) : Store :=
  {| geometries := geometries s; materials := materials s;
     textures := <[r := t]> (textures s); meshes := meshes s;
     nextRef := nextRef s; disposed := disposed s |}.

Definition putMesh (r : ref) (m : Mesh) (s : Store) : Store :=
  {| geometries := geometries s; materials := materials s;
     textures := textures s; meshes := <[r := m]> (meshes s);
     nextRef := nextRef s; disposed := disposed s |}.

Definition logDispose (x : Resource) (s : Store) : Store :=
  {| geometries := geometries s; materials := materials s;
     textures := textures s; meshes := meshes s;
     nextRef := nextRef s; disposed := x :: disposed s |}.

Definition setLoading (l : bool * string) (p : Page) : Page :=
  {| loadingIndicator := l; downloadBtnDisabled := downloadBtnDisabled p;
     alerts := alerts p; saved := saved p; timeouts := timeouts p |}.

Definition setDownloadBtnDisabled (b : bool) (p : Page) : Page :=
  {| loadingIndicator := loadingIndicator p; downloadBtnDisabled := b;
     alerts := alerts p; saved := saved p; timeouts := timeouts p |}.

Definition pushAlert (a : string) (p : Page) : Page :=
  {| loadingIndicator := loadingIndicator p;
     downloadBtnDisabled := downloadBtnDisabled p;
     alerts := a :: alerts p; saved := saved p; timeouts := timeouts p |}.

Definition pushSaved (f : string * list Byte.byte) (p : Page) : Page :=
  {| loadingIndicator := loadingIndicator p;
     downloadBtnDisabled := downloadBtnDisabled p;
     alerts := alerts p; saved := f :: saved p; timeouts := timeouts p |}.

Definition pushTimeout (c : Cleanup) (p : Page) : Page :=
  {| loadingIndicator := loadingIndicator p;
     downloadBtnDisabled := downloadBtnDisabled p;
     alerts := alerts p; saved := saved p; timeouts := c :: timeouts p |}.

(** ** Computations: state, and an exception that keeps the state *)

Inductive Outcome (A : Type) :=
| Return (a : A)
| Throw (e : JsError).
Arguments Return {A} a.
Arguments Throw {A} e.

Definition M (A : Type) : Type := World -> Outcome A * World.

Definition ret {A} (a : A) : M A := fun w => (Return a, w).
Definition throw {A} (e : JsError) : M A := fun w => (Throw e, w).
Definition bind {A B} (m : M A) (k : A -> M B) : M B :=
  fun w =>
    match m w with
    | (Return a, w') => k a w'
    | (Throw e, w') => (Throw e, w')
    end.
Definition get : M World := fun w => (Return w, w).
Definition modify (f : World -> World) : M unit := fun w => (Return tt, f w).

(** [try { body } catch (error) { handler }] *)
Definition tryCatch {A} (body : M A) (handler : JsError -> M A) : M A :=
  fun w =>
    match body w with
    | (Return a, w') => (Return a, w')
    | (Throw e, w') => handler e w'
    end.

(** [try { body } finally { fin }], for a [fin] that does not throw. *)
Definition tryFinally {A} (body : M A) (fin : World -> World) : M A :=
  fun w => let (r, w') := body w in (r, fin w').

Declare Scope js_scope.
Delimit Scope js_scope with js.
Notation "'let!' x ':=' m 'in' k" := (bind m (fun x => k))
  (at level 10, x name, m at level 100, k at level 200) : js_scope.
Notation "'do!' m 'in' k" := (bind m (fun _ => k))
  (at level 10, m at level 100, k at level 200) : js_scope.
Local Open Scope js_scope.

(** Allocation of a fresh reference. *)
Definition fresh : M ref :=
  fun w => (Return (nextRef (store w)), withStore bump w).

(** Reading a property of an object that is not there. *)
Definition undefinedRead : JsError :=
  TypeError "Cannot read properties of undefined".

Definition getMesh (r : ref) : M Mesh :=
  fun w =>
    match meshes (store w) !! r with
    | Some m => (Return m, w)
    | None => (Throw undefinedRead, w)
    end.

Definition getGeometry (r : ref) : M BufferGeometry :=
  fun w =>
    match geometries (store w) !! r with
    | Some g => (Return g, w)
    | None => (Throw undefinedRead, w)
    end.

Definition getMaterial (r : ref) : M Material :=
  fun w =>
    match materials (store w) !! r with
    | Some m => (Return m, w)
    | None => (Throw undefinedRead, w)
    end.

Definition getTexture (r : ref) : M Texture :=
  fun w =>
    match textures (store w) !! r with
    | Some t => (Return t, w)
    | None => (Throw undefinedRead, w)
    end.

(** [mesh.geometry], then a property of it *)
Definition geometryOf (mesh : ref) : M ref :=
  let! m := getMesh mesh in
  match geometry m with
  | Some g => ret g
  | None => throw undefinedRead
  end.

Definition materialOf (mesh : ref) : M ref :=
  let! m := getMesh mesh in
  match material m with
  | Some k => ret k
  | None => throw undefinedRead
  end.

(** A method of [mesh.geometry] that updates the geometry in place. *)
Definition onGeometry (mesh : ref) (f : BufferGeometry -> BufferGeometry)
  : M unit :=
  let! g := geometryOf mesh in
  let! geom := getGeometry g in
  modify (withStore (putGeometry g (f geom))).

Definition onMesh (mesh : ref) (f : Mesh -> Mesh) : M unit :=
  let! m := getMesh mesh in
  modify (withStore (putMesh mesh (f m))).

(** [mesh.geometry.dispose()] and [mesh.material.dispose()]: each dispatches
    one dispose event for the object itself.  A material's dispose does not
    reach its textures. *)
Definition disposeGeometry (mesh : ref) : M unit :=
  let! g := geometryOf mesh in
  modify (withStore (logDispose (GeometryBuffers g))).

Definition disposeMaterial (mesh : ref) : M unit :=
  let! k := materialOf mesh in
  modify (withStore (logDispose (MaterialProgram k))).

(** [scene.remove(object)] and [scene.add(object)], for an object without
    a parent. *)
Definition sceneRemove (mesh : ref) : M unit :=
  modify (withScene (filter (fun r => r <> mesh))).

Definition sceneAdd (mesh : ref) : M unit :=
  modify (withScene (fun l => l ++ [mesh])).

(** [mesh.clone()]: a new [Mesh] that takes over the transform and refers to
    the same geometry and the same material as the source. *)
Definition clone (mesh : ref) : M ref :=
  let! m := getMesh mesh in
  let! r := fresh in
  do! modify (withStore (putMesh r
        {| geometry := geometry m; material := material m;
           mposition := mposition m; rotation := rotation m |})) in
  ret r.

(** ** The converter *)

(** A rank 2 tensor: [shape] is [[height, width]], [array] the nested array
    that [tensor.array()] resolves to. *)
Record DepthTensor := {
  shape : nat * nat;
  array : list (list Q)
}.

Definition wf_tensor (t : DepthTensor) : Prop :=
  length (array t) = fst (shape t)
  /\ Forall (fun row => length row = snd (shape t)) (array t).

(** [for (let i = 0; i < n; i++) body], over a state that the body updates
    or throws from. *)
Fixpoint forLoop {St : Type} (body : nat -> St -> Outcome St)
  (i n : nat) (s : St) : Outcome St :=
  match n with
  | O => Return s
  | S n' =>
      match body i s with
      | Return s' => forLoop body (S i) n' s'
      | Throw e => Throw e
      end
  end.

(** The body of the displacement loop of [createMeshFromDepthMap]. *)
Definition displace (depthMap : list (list Q)) (width : nat)
  (extrusionScale baseHeight : Q) (i : nat) (ps : list Vector3.t)
  : Outcome (list Vector3.t) :=
  let y := (i / width)%nat in
  match depthMap !! y with
  | None => Throw undefinedRead
  | Some row =>
      match row !! (i mod width)%nat with
      | None => Throw NotANumber      (* [1.0 - undefined] is NaN *)
      | Some depth =>
          let z := ((1 - depth) * extrusionScale + (baseHeight * 20))%Q in
          Return (setZ i z ps)
      end
  end.

Definition createMeshFromDepthMap (depthMapTensor : DepthTensor)
  (textureImage : Image) : M ref :=
  let depthMap := array depthMapTensor in
  let '(height, width) := shape depthMapTensor in
  let! w := get in
  let depthScale := (depth_scale (inputs w) / 100)%Q in
  let baseHeight := (base_height (inputs w) / 100)%Q in
  let useNormalMap := use_normal_map (inputs w) in
  let autoCenter := auto_center (inputs w) in
  let extrusionScale := (100 * depthScale)%Q in
  let plane :=
    PlaneGeometry (ofNat width) (ofNat height)
      (Z.of_nat width - 1) (Z.of_nat height - 1) in
  let! geometryR := fresh in
  do! modify (withStore (putGeometry geometryR plane)) in
  let positionAttribute := default [] (position plane) in
  match forLoop (displace depthMap width extrusionScale baseHeight)
          0 (length positionAttribute) positionAttribute with
  | Throw e => throw e
  | Return displaced =>
      let geom :=
        computeVertexNormals
          {| position := Some displaced; normal := normal plane;
             uv := uv plane; index := index plane;
             boundingBox := boundingBox plane;
             boundingSphere := boundingSphere plane |} in
      do! modify (withStore (putGeometry geometryR geom)) in
      let! textureR := fresh in
      do! modify (withStore (putTexture textureR
            {| image := Some textureImage; needsUpdate := true |})) in
      let materialParams :=
        if useNormalMap then
          let normalStrength := (1 # 2)%Q in
          {| p_map := Some textureR; p_side := DoubleSide;
             p_normalMap := Some textureR;
             p_normalScale := Some (normalStrength, normalStrength) |}
        else
          {| p_map := Some textureR; p_side := DoubleSide;
             p_normalMap := None; p_normalScale := None |} in
      let! materialR := fresh in
      do! modify (withStore (putMaterial materialR
            (MeshStandardMaterial materialParams))) in
      let! meshR := fresh in
      do! modify (withStore (putMesh meshR
            (setRotationX (- (1 / 2)) (newMesh geometryR materialR)))) in
      do! (if autoCenter then
             do! onGeometry meshR center_ in
             onMesh meshR (setPosition (Vector3.mk 0 0 0))
           else ret tt) in
      ret meshR
  end.

(** ** The exporter *)

Definition noGeometryMessage : string := "El modelo no tiene geometría válida".
Definition noVerticesMessage : string := "El modelo no tiene vértices válidos".
Definition noTextureMessage : string := "El modelo no tiene textura válida".
Definition noModelMessage : string :=
  "No hay modelo para descargar. Por favor, genera un modelo primero.".
Definition exportFailedMessage : string :=
  "Error al exportar el modelo. Por favor, intenta de nuevo.".

(** The names the specification gives to the errors of the validation. *)
Definition MissingGeometryError : JsError := Error noGeometryMessage.
Definition EmptyMeshError : JsError := Error noVerticesMessage.
Definition MissingTextureError : JsError := Error noTextureMessage.

Definition validateModelForExport (mesh : ref) : M bool :=
  let! m := getMesh mesh in
  match geometry m with
  | None => throw (Error noGeometryMessage)
  | Some g =>
      let! geom := getGeometry g in
      if match position geom with
         | None => true
         | Some ps => (length ps =? 0)%nat
         end
      then throw (Error noVerticesMessage)
      else
        match material m with
        | None => throw (Error noTextureMessage)
        | Some k =>
            let! mat := getMaterial k in
            match map_ mat with
            | None => throw (Error noTextureMessage)
            | Some _ => ret true
            end
        end
  end.

Definition optimizeModelForExport (mesh : ref) : M ref :=
  let! optimizedMesh := clone mesh in
  do! onGeometry optimizedMesh center_ in
  do! onGeometry optimizedMesh computeVertexNormals in
  do! onGeometry optimizedMesh computeBoundingBox in
  do! onGeometry optimizedMesh computeBoundingSphere in
  ret optimizedMesh.

(** [s.split('.')[0]] *)
Fixpoint beforeDot (s : string) : string :=
  match s with
  | EmptyString => EmptyString
  | String c rest =>
      if Ascii.eqb c "."%char then EmptyString else String c (beforeDot rest)
  end.

(** [s.replace(/[:.]/g, '-')] *)
Fixpoint dashes (s : string) : string :=
  match s with
  | EmptyString => EmptyString
  | String c rest =>
      String (if Ascii.eqb c ":"%char || Ascii.eqb c "."%char
              then "-"%char else c)
             (dashes rest)
  end.

(** What [GLTFExporter.parse] ends with: the [onDone] callback with the
    binary file, or the [onError] callback. *)
Inductive ParseResult :=
| Done (gltf : list Byte.byte)
| Failed (error : JsError).

Definition Exporter : Type :=
  World -> list SceneChild -> ExportOptions -> ParseResult.

(** The metadata block of the export options. *)
Definition exportMetadata (meshForExport : ref) : M Metadata :=
  let! g := geometryOf meshForExport in
  let! geom := getGeometry g in
  match position geom with
  | None => throw undefinedRead
  | Some ps =>
      let! k := materialOf meshForExport in
      let! mat := getMaterial k in
      match map_ mat with
      | None => throw undefinedRead
      | Some t =>
          let! tex := getTexture t in
          ret {| vertices := length ps;
                 faces :=
                   match index geom with
                   | Some idx => (ofNat (length idx) / 3)%Q
                   | None => 0%Q
                   end;
                 textureResolution :=
                   match image tex with
                   | Some img =>
                       pretty (imageWidth img) +:+ "x"
                         +:+ pretty (imageHeight img)
                   | None => "N/A"
                   end |}
      end
  end.

(** What [downloadGLB] has at hand when it calls the exporter. *)
Record Prepared := {
  meshForExport : ref;
  exportScene : list SceneChild;
  options : ExportOptions;
  fileName : string               (** [link.download] *)
}.

(** [meshForExport.position.set(0, 0, 0)] and
    [meshForExport.rotation.set(-Math.PI / 2, 0, 0)] *)
Definition exportMesh (m : Mesh) : Mesh :=
  setRotation {| ex := - (1 / 2); ey := 0; ez := 0 |}
    (setPosition (Vector3.mk 0 0 0) m).

(** [downloadGLB] from the validation to the export options. *)
Definition downloadGLB_prepare (current : ref) : M Prepared :=
  do! validateModelForExport current in
  do! modify (withPage
        (setLoading (true, "Preparando modelo para descarga..."))) in
  do! modify (withPage (setDownloadBtnDisabled true)) in
  let! optimized := optimizeModelForExport current in
  let! w := get in
  let originalFileName :=
    orElse (default EmptyString (uploadFile (inputs w))) "image" in
  let baseFileName := beforeDot originalFileName in
  let timestamp := dashes (now (inputs w)) in
  do! onMesh optimized exportMesh in
  let! meta := exportMetadata optimized in
  ret {| meshForExport := optimized;
         exportScene :=
           [ MeshChild optimized;
             AmbientLight 16777215 (7 / 10);
             DirectionalLight 16777215 (8 / 10)
               (Vector3.mk 5 10 (75 / 10)) ];
         options :=
           {| binary := true;
              includeCustomExtensions := true;
              embedImages := true;
              onlyVisible := true;
              maxTextureSize := 4096;
              forceIndices := true;
              truncateDrawRange := true;
              userData :=
                {| generatedBy := "Papiweb 3D Converter";
                   originalImage := originalFileName;
                   createdAt := timestamp;
                   version := "1.0";
                   metadata := meta |} |};
         fileName := baseFileName +:+ "_3d_" +:+ timestamp +:+ ".glb" |}.

Definition downloadGLB_body (exporter : Exporter) : M unit :=
  let! w := get in
  match currentMesh w with
  | None => throw (Error noModelMessage)
  | Some current =>
      let! p := downloadGLB_prepare current in
      do! modify (withPage (fun pg =>
            setLoading (fst (loadingIndicator pg), "Exportando modelo...") pg)) in
      let! w1 := get in
      match exporter w1 (exportScene p) (options p) with
      | Failed error => throw error
      | Done result =>
          do! modify (withPage (pushSaved (fileName p, result))) in
          do! modify (withPage (fun pg =>
                setLoading
                  (fst (loadingIndicator pg), "Modelo exportado con éxito")
                  pg)) in
          modify (withPage (pushTimeout {| c_mesh := meshForExport p |}))
      end
  end.

Definition downloadGLB (exporter : Exporter) : M unit :=
  tryFinally
    (tryCatch (downloadGLB_body exporter)
       (fun error =>
          modify (withPage
            (pushAlert (orElse (message error) exportFailedMessage)))))
    (fun w =>
       withPage (setDownloadBtnDisabled false)
         (withPage (fun p => setLoading (false, snd (loadingIndicator p)) p) w)).

(** The callback that [downloadGLB] hands to [setTimeout]. *)
Definition exportCleanup (c : Cleanup) : M unit :=
  do! disposeGeometry (c_mesh c) in
  disposeMaterial (c_mesh c).

(** ** Replacing the displayed mesh *)

(** The [onload] handler behind the generate button, from the result of
    [estimateDepth] on. *)
Definition generate (depthMapTensor : option DepthTensor)
  (imagePreview : Image) : M unit :=
  match depthMapTensor with
  | None => ret tt
  | Some t =>
      let! w := get in
      do! match currentMesh w with
          | Some current =>
              do! sceneRemove current in
              do! disposeGeometry current in
              disposeMaterial current
          | None => ret tt
          end in
      let! mesh := createMeshFromDepthMap t imagePreview in
      do! modify (setCurrentMesh (Some mesh)) in
      sceneAdd mesh
  end.

Definition updateMeshGeometry (complete : bool)
  (depthMapTensor : option DepthTensor) (imagePreview : Image) : M unit :=
  let! w := get in
  match currentMesh w with
  | None => ret tt
  | Some current =>
      if negb complete then ret tt
      else
        tryCatch
          (match depthMapTensor with
           | None => ret tt
           | Some t =>
               do! sceneRemove current in
               do! disposeGeometry current in
               do! disposeMaterial current in
               let! mesh := createMeshFromDepthMap t imagePreview in
               do! modify (setCurrentMesh (Some mesh)) in
               sceneAdd mesh
           end)
          (fun _ => ret tt)
  end.

(** ** Vocabulary of the statements *)

(** Heights of the vertices of geometry [g] in world [w]. *)
Definition heights (w : World) (g : ref) : list Q :=
  match geometries (store w) !! g with
  | Some geom => map Vector3.z (default [] (position geom))
  | None => []
  end.

(** The grid the converter starts from. *)
Definition plane (width height : nat) : BufferGeometry :=
  PlaneGeometry (ofNat width) (ofNat height)
    (Z.of_nat width - 1) (Z.of_nat height - 1).

(** [depthMap[Math.floor(i / width)][i % width]] *)
Definition depthAt (depthMap : list (list Q)) (width i : nat) : option Q :=
  match depthMap !! (i / width)%nat with
  | Some row => row !! (i mod width)%nat
  | None => None
  end.

(** Vertex [i] after the displacement loop. *)
Definition raised (depthMap : list (list Q)) (width : nat)
  (extrusionScale baseHeight : Q) (i : nat) (v : Vector3.t) : Vector3.t :=
  match depthAt depthMap width i with
  | Some depth =>
      Vector3.setZ v ((1 - depth) * extrusionScale + (baseHeight * 20))%Q
  | None => v
  end.

(** The position attribute after the displacement loop. *)
Definition displacedPositions (t : DepthTensor) (i : Inputs)
  : list Vector3.t :=
  let '(height, width) := shape t in
  imap (raised (array t) width (100 * (depth_scale i / 100))%Q
          (base_height i / 100)%Q)
       (default [] (position (plane width height))).

(** The geometry after the loop and [computeVertexNormals]. *)
Definition displacedGeometry (t : DepthTensor) (i : Inputs)
  : BufferGeometry :=
  let '(height, width) := shape t in
  computeVertexNormals
    {| position := Some (displacedPositions t i);
       normal := normal (plane width height);
       uv := uv (plane width height);
       index := index (plane width height);
       boundingBox := None; boundingSphere := None |}.

(** Mesh [m] has no texture bound: it has no material, or its material has
    no [map]. *)
Definition untextured (w : World) (m : Mesh) : Prop :=
  match material m with
  | None => True
  | Some k =>
      exists mat, materials (store w) !! k = Some mat /\ map_ mat = None
  end.

(** What [optimizeModelForExport] makes of the geometry it works on. *)
Definition optimizedGeometry (geom : BufferGeometry) : BufferGeometry :=
  computeBoundingSphere
    (computeBoundingBox (computeVertexNormals (center_ geom))).

(** The page after [optimizeModelForExport] on mesh [m] with geometry
    [geom] at [g]. *)
Definition optimized (w : World) (m : Mesh) (g : ref)
  (geom : BufferGeometry) : World :=
  {| store :=
       {| geometries := <[g := optimizedGeometry geom]> (geometries (store w));
          materials := materials (store w);
          textures := textures (store w);
          meshes :=
            <[nextRef (store w) :=
                {| geometry := geometry m; material := material m;
                   mposition := mposition m; rotation := rotation m |}]>
              (meshes (store w));
          nextRef := S (nextRef (store w));
          disposed := disposed (store w) |};
     scene := scene w; currentMesh := currentMesh w;
     inputs := inputs w; page := page w |}.

(** Box [b'] is box [b] moved by [t]. *)
Definition moved (t : Vector3.t) (b b' : Box3) : Prop :=
  match b, b' with
  | EmptyBox, EmptyBox => True
  | Box lo hi, Box lo' hi' =>
      Vector3.equiv lo' (Vector3.addVectors lo t)
      /\ Vector3.equiv hi' (Vector3.addVectors hi t)
  | _, _ => False
  end.

(** The corners of a box are in order. *)
Definition ordered (b : Box3) : Prop :=
  match b with
  | EmptyBox => True
  | Box lo hi =>
      (Vector3.x lo <= Vector3.x hi /\ Vector3.y lo <= Vector3.y hi
       /\ Vector3.z lo <= Vector3.z hi)%Q
  end.

(** The centre of the bounding box of the vertices of [g], as
    [computeBoundingBox] and [getCenter] give it. *)
Definition boxCenter (g : BufferGeometry) : Vector3.t :=
  match boundingBox (computeBoundingBox g) with
  | Some b => getCenter b
  | None => Vector3.zero
  end.

(** The offset by which [center()] moves every vertex. *)
Definition centerOffset (ps : list Vector3.t) : Vector3.t :=
  Vector3.negate (getCenter (setFromBufferAttribute ps)).

(** What the optional recentring adds to every height. *)
Definition recentring (t : DepthTensor) (i : Inputs) : Q :=
  if auto_center i then Vector3.z (centerOffset (displacedPositions t i))
  else 0.

(** The geometry of the mesh that [createMeshFromDepthMap] returns. *)
Definition builtGeometry (t : DepthTensor) (i : Inputs) : BufferGeometry :=
  if auto_center i then center_ (displacedGeometry t i)
  else displacedGeometry t i.

Definition builtMaterial (i : Inputs) (texture : ref) : Material :=
  MeshStandardMaterial
    (if use_normal_map i then
       {| p_map := Some texture; p_side := DoubleSide;
          p_normalMap := Some texture;
          p_normalScale := Some (1 # 2, 1 # 2)%Q |}
     else
       {| p_map := Some texture; p_side := DoubleSide;
          p_normalMap := None; p_normalScale := None |}).

Definition builtMesh (r : ref) : Mesh :=
  setRotationX (- (1 / 2)) (newMesh r (2 + r)%nat).

(** The page after [createMeshFromDepthMap] on a well-formed tensor. *)
Definition built (t : DepthTensor) (img : Image) (w : World) : World :=
  let r := nextRef (store w) in
  {| store :=
       {| geometries := <[r := builtGeometry t (inputs w)]> (geometries (store w));
          materials :=
            <[(2 + r)%nat := builtMaterial (inputs w) (1 + r)%nat]>
              (materials (store w));
          textures :=
            <[(1 + r)%nat := {| image := Some img; needsUpdate := true |}]>
              (textures (store w));
          meshes := <[(3 + r)%nat := builtMesh r]> (meshes (store w));
          nextRef := (4 + r)%nat;
          disposed := disposed (store w) |};
     scene := scene w; currentMesh := currentMesh w;
     inputs := inputs w; page := page w |}.

(** The two triangles of the grid cell in row [iy], column [ix], by the
    row-major numbers of their corners. *)
Definition cell (width iy ix : nat) : list nat :=
  let a := (ix + width * iy)%nat in
  let b := (ix + width * (iy + 1))%nat in
  let c := ((ix + 1) + width * (iy + 1))%nat in
  let d := ((ix + 1) + width * iy)%nat in
  [a; b; d; b; c; d].

(** The geometry of mesh [mesh] in world [w]. *)
Definition geometryIn (w : World) (mesh : ref) : option BufferGeometry :=
  match meshes (store w) !! mesh with
  | Some m =>
      match geometry m with
      | Some g => geometries (store w) !! g
      | None => None
      end
  | None => None
  end.

(** The height the converter computes from one depth value. *)
Definition extrusion (depth depthScale baseHeight : Q) : Q :=
  ((1 - depth) * (100 * depthScale) + baseHeight * 20)%Q.

(** ** Scenarios *)

Definition emptyStore : Store :=
  {| geometries := ∅; materials := ∅; textures := ∅; meshes := ∅;
     nextRef := 0; disposed := [] |}.

Definition emptyPage : Page :=
  {| loadingIndicator := (false, EmptyString); downloadBtnDisabled := false;
     alerts := []; saved := []; timeouts := [] |}.

(** The page before the first mesh, with the four controls set. *)
Definition startWorld (depthScalePercent baseHeightPercent : Q)
  (useNormalMap autoCenter : bool) : World :=
  {| store := emptyStore; scene := []; currentMesh := None;
     inputs :=
       {| depth_scale := depthScalePercent; base_height := baseHeightPercent;
          use_normal_map := useNormalMap; auto_center := autoCenter;
          uploadFile := Some "foto.png";
          now := "2024-01-02T03:04:05.678Z" |};
     page := emptyPage |}.

Definition photo : Image := {| imageWidth := 640; imageHeight := 480 |}.

(** The depth field [[0.0, 1.0], [1.0, 0.0]]. *)
Definition checker : DepthTensor :=
  {| shape := (2, 2)%nat; array := [[0; 1]; [1; 0]]%Q |}.

(** A constant depth field of value 0 on a 2 by 2 grid. *)
Definition flat : DepthTensor :=
  {| shape := (2, 2)%nat; array := [[0; 0]; [0; 0]]%Q |}.

(** A depth field two rows high and one column wide. *)
Definition column : DepthTensor :=
  {| shape := (2, 1)%nat; array := [[0]; [1]]%Q |}.

(** The page after one click on generate. *)
Definition generated (t : DepthTensor) (autoCenter : bool) : World :=
  snd (generate (Some t) photo (startWorld 100 0 false autoCenter)).

(** The same page after [material.map] of the displayed mesh was cleared. *)
Definition bare : World :=
  withStore
    (putMaterial 2
       {| map_ := None; normalMap := None; normalScale := (1, 1)%Q;
          side := DoubleSide |})
    (generated checker false).

Definition failingExporter (msg : string) : Exporter :=
  fun _ _ _ => Failed (Error msg).

(** ** Vocabulary of the further statements *)

(** What an export leaves alone: the scene, the current mesh, the controls,
    the materials, the textures and the dispose events. *)
Definition untouched (w w' : World) : Prop :=
  scene w' = scene w
  /\ currentMesh w' = currentMesh w
  /\ inputs w' = inputs w
  /\ materials (store w') = materials (store w)
  /\ textures (store w') = textures (store w)
  /\ disposed (store w') = disposed (store w).

(** Computation [m] relates every world to the world it ends in by [R],
    whether it returns or throws. *)
Definition keeps {A : Type} (R : World -> World -> Prop) (m : M A) : Prop :=
  forall w, R w (snd (m w)).

(** Mesh [mesh] has what [validateModelForExport] asks for. *)
Definition exportable (w : World) (mesh : ref) : Prop :=
  exists m g geom k mat t,
    meshes (store w) !! mesh = Some m /\ geometry m = Some g
    /\ geometries (store w) !! g = Some geom /\ count geom <> 0%nat
    /\ material m = Some k /\ materials (store w) !! k = Some mat
    /\ map_ mat = Some t.

(** Number of occurrences of character [c] in [s]. *)
Fixpoint countChar (c : ascii) (s : string) : nat :=
  match s with
  | EmptyString => 0
  | String d rest =>
      ((if Ascii.eqb d c then 1 else 0) + countChar c rest)%nat
  end.

(** ** The page over time *)

(** The user changes a control or picks another file; the clock moves on. *)
Definition setInputs (i : Inputs) (w : World) : World :=
  {| store := store w; scene := scene w; currentMesh := currentMesh w;
     inputs := i; page := page w |}.

(** Mesh [mesh] of store [s] has a geometry with a position attribute, and
    a material with a texture. *)
Definition complete (s : Store) (mesh : ref) : Prop :=
  exists m g geom ps k mat t tex,
    meshes s !! mesh = Some m /\ geometry m = Some g
    /\ geometries s !! g = Some geom /\ position geom = Some ps
    /\ material m = Some k /\ materials s !! k = Some mat
    /\ map_ mat = Some t /\ textures s !! t = Some tex.

(** The scene holds the current mesh and nothing else, and the current mesh
    is complete. *)
Definition consistent (w : World) : Prop :=
  match currentMesh w with
  | Some current => scene w = [current] /\ complete (store w) current
  | None => scene w = []
  end.

(** The pages the script can get to: from the empty page, by changes of the
    controls, by the handlers of the generate button, of the sliders and of
    the download button, and by a scheduled cleanup running.  The depth
    tensors are those of tensorflow.js, whose array has the shape of the
    tensor. *)
Inductive reachable : World -> Prop :=
| reach_start (i : Inputs) :
    reachable {| store := emptyStore; scene := []; currentMesh := None;
                 inputs := i; page := emptyPage |}
| reach_inputs (w : World) (i : Inputs) :
    reachable w -> reachable (setInputs i w)
| reach_generate (w : World) (t : DepthTensor) (img : Image) :
    reachable w -> wf_tensor t ->
    reachable (snd (generate (Some t) img w))
| reach_update (w : World) (loaded : bool) (t : DepthTensor) (img : Image) :
    reachable w -> wf_tensor t ->
    reachable (snd (updateMeshGeometry loaded (Some t) img w))
| reach_download (w : World) (exporter : Exporter) :
    reachable w -> reachable (snd (downloadGLB exporter w))
| reach_cleanup (w : World) (c : Cleanup) :
    reachable w -> c ∈ timeouts (page w) ->
    reachable (snd (exportCleanup c w)).

(** A dispose event for a texture. *)
Definition isTextureData (x : Resource) : Prop :=
  match x with
  | TextureData _ => True
  | _ => False
  end.

(** ** The depth estimate *)

(** [tfliteModel], closed over the preprocessing of [estimateDepth]: the
    output of [predict], squeezed to rank 2, for the picture it is given. *)
Definition Model : Type := Image -> DepthTensor.

Definition elements (t : DepthTensor) : list Q := concat (array t).

(** [tf.min] and [tf.max] over all elements.  Of a tensor without elements
    they are infinite, which no rational is. *)
Definition tf_min (t : DepthTensor) : option Q :=
  match elements t with
  | [] => None
  | v :: rest => Some (fold_left Qmin rest v)
  end.

Definition tf_max (t : DepthTensor) : option Q :=
  match elements t with
  | [] => None
  | v :: rest => Some (fold_left Qmax rest v)
  end.

(** An operation of a tensor with a scalar, element by element. *)
Definition tf_map (f : Q -> Q) (t : DepthTensor) : DepthTensor :=
  {| shape := shape t; array := map (map f) (array t) |}.

(** [tf.div(tf.sub(output, tf.min(output)),
            tf.sub(tf.max(output), tf.min(output)))].
    Where the maximum is the minimum every quotient is 0 / 0, which is not a
    number. *)
Definition normalise (output : DepthTensor) : option DepthTensor :=
  match tf_min output, tf_max output with
  | Some lo, Some hi =>
      if Qeq_bool (hi - lo) 0 then None
      else Some (tf_map (fun v => (v - lo) / (hi - lo))%Q output)
  | _, _ => None
  end.

Definition modelNotLoadedMessage : string :=
  "El modelo aún no está cargado. Por favor, espere a que se complete la carga.".

Definition estimatingMessage : string :=
  "Calculando profundidad de la imagen...".

Definition estimateDepth (tfliteModel : option Model) (imgElement : Image)
  : M (option DepthTensor) :=
  match tfliteModel with
  | None =>
      do! modify (withPage (pushAlert modelNotLoadedMessage)) in
      ret None
  | Some model =>
      do! modify (withPage (setLoading (true, estimatingMessage))) in
      match normalise (model imgElement) with
      | None => throw NotANumber
      | Some tensor =>
          do! modify
                (withPage
                   (fun p => setLoading (false, snd (loadingIndicator p)) p)) in
          ret (Some tensor)
      end
  end.

Definition selectFileMessage : string := "Please select an image file first.".

(** The click listener of the generate button.  [imagePreview] is the
    picture that the file reader and the [img] element make of the chosen
    file. *)
Definition generateClick (tfliteModel : option Model) (imagePreview : Image)
  : M unit :=
  let! w := get in
  match uploadFile (inputs w) with
  | None => modify (withPage (pushAlert selectFileMessage))
  | Some _ =>
      let! depthMapTensor := estimateDepth tfliteModel imagePreview in
      generate depthMapTensor imagePreview
  end.

(** A model that answers the depth field [t] for every picture. *)
Definition constantModel (t : DepthTensor) : Model := fun _ => t.

(** A depth field as the model gives it, before the normalisation. *)
Definition raw : DepthTensor :=
  {| shape := (2, 2)%nat; array := [[3; 7]; [5; 11]]%Q |}.

(** ** Loading the model *)

Definition Bytes : Type := list Byte.byte.

(** [new Uint8Array(n)] *)
Definition Uint8Array (n : nat) : Bytes := replicate n Byte.x00.

(** The RangeError of a typed array. *)
Definition outOfBounds : JsError := Error "RangeError: offset is out of bounds".

(** [target.set(source, offset)] *)
Definition set_ (source : Bytes) (offset : nat) (target : Bytes)
  : Outcome Bytes :=
  if (offset + length source <=? length target)%nat
  then Return (take offset target ++ source
                 ++ drop (offset + length source) target)
  else Throw outOfBounds.

(** The three lines that join two buffers in a new [Uint8Array]. *)
Definition combine (buffer1 buffer2 : Bytes) : Outcome Bytes :=
  let combinedBuffer := Uint8Array (length buffer1 + length buffer2) in
  match set_ buffer1 0 combinedBuffer with
  | Throw e => Throw e
  | Return combinedBuffer => set_ buffer2 (length buffer1) combinedBuffer
  end.

(** What [fetch] resolves to, with the Content-Length header and the chunks
    in which the body arrives, or the error it rejects with.  The bodies
    arrive in full. *)
Inductive Fetched :=
| Response (ok : bool) (contentLength : option nat) (chunks : list Bytes)
| NetworkError (e : JsError).

(** A URL: of a blob made by [URL.createObjectURL], or of a server. *)
Inductive Url :=
| BlobUrl (content : Bytes)
| Remote (address : string).

Definition partaa : string := "assets/models/model_opt.tflite.partaa".
Definition partab : string := "assets/models/model_opt.tflite.partab".

(** *** assets/scripts/modelLoader.js *)

Module ModelLoader.

Definition partsMessage : string :=
  "No se pudieron cargar las partes del modelo".

Definition loadModelParts (fetch : string -> Fetched) : Outcome Url :=
  match fetch partaa with
  | NetworkError e => Throw e
  | Response ok1 _ body1 =>
      match fetch partab with
      | NetworkError e => Throw e
      | Response ok2 _ body2 =>
          if negb ok1 || negb ok2 then Throw (Error partsMessage)
          else
            let buffer1 := concat body1 in
            let buffer2 := concat body2 in
            match combine buffer1 buffer2 with
            | Throw e => Throw e
            | Return combinedBuffer => Return (BlobUrl combinedBuffer)
            end
      end
  end.

End ModelLoader.

(** *** The loader that keeps the parts in the cache *)

Module CachedLoader.

(** The progress is a quotient by the Content-Length, which can be 0. *)
Inductive Num :=
| Finite (q : Q)
| Infinity
| NaN.

(** [Math.round] *)
Definition Math_round (q : Q) : Z := Qfloor (q + (1 # 2)).

Definition numberText (n : Num) : string :=
  match n with
  | Finite q => pretty (Math_round q)
  | Infinity => "Infinity"
  | NaN => "NaN"
  end.

Record Browser := {
  cachesInWindow : bool;               (** ['caches' in window] *)
  cacheFails : bool;                   (** [caches.open] rejects *)
  cacheEntries : gmap string Bytes;    (** of the cache the loader opens *)
  indicator : option (bool * string);  (** the element [loading-indicator],
                                           where there is one: shown?, text *)
  hideAfter : list N                   (** delays of the timeouts that hide
                                           the indicator *)
}.

Definition withIndicator (f : bool * string -> bool * string) (b : Browser)
  : Browser :=
  {| cachesInWindow := cachesInWindow b; cacheFails := cacheFails b;
     cacheEntries := cacheEntries b; indicator := f <$> indicator b;
     hideAfter := hideAfter b |}.

Definition checkModelCache (b : Browser) : option (Bytes * Bytes) :=
  if cachesInWindow b then
    if cacheFails b then None
    else
      match cacheEntries b !! "model_part1", cacheEntries b !! "model_part2" with
      | Some part1, Some part2 => Some (part1, part2)
      | _, _ => None
      end
  else None.

Definition cacheModelParts (part1Buffer part2Buffer : Bytes) (b : Browser)
  : Browser :=
  if cachesInWindow b then
    if cacheFails b then b
    else
      {| cachesInWindow := cachesInWindow b; cacheFails := cacheFails b;
         cacheEntries :=
           <["model_part2" := part2Buffer]>
             (<["model_part1" := part1Buffer]> (cacheEntries b));
         indicator := indicator b; hideAfter := hideAfter b |}
  else b.

Definition progressText (progress : Num) : string :=
  "Cargando modelo: " +:+ numberText progress +:+ "%".

Definition updateLoadingProgress (progress : Num) (b : Browser) : Browser :=
  withIndicator (fun _ => (true, progressText progress)) b.

(** [((partNumber - 1) * 50) + (((receivedLength / contentLength) * 100) / 2)] *)
Definition totalProgress (partNumber receivedLength contentLength : nat)
  : Num :=
  match contentLength, receivedLength with
  | O, O => NaN
  | O, S _ => Infinity
  | S _, _ =>
      Finite ((ofNat partNumber - 1) * 50
              + ((ofNat receivedLength / ofNat contentLength) * 100) / 2)%Q
  end.

(** The [while (true)] loop over the reader of the body: [stream] is what
    the reader still has to give.  It answers [receivedLength], [chunks] and
    the progress values shown, in order. *)
Fixpoint readAll (partNumber contentLength : nat) (stream : list Bytes)
  (receivedLength : nat) (chunks : list Bytes) (shown : list Num)
  : nat * list Bytes * list Num :=
  match stream with
  | [] => (receivedLength, chunks, shown)
  | value :: rest =>
      let chunks := chunks ++ [value] in
      let receivedLength := (receivedLength + length value)%nat in
      readAll partNumber contentLength rest receivedLength chunks
        (shown ++ [totalProgress partNumber receivedLength contentLength])
  end.

(** The body of [for (let chunk of chunks)]. *)
Definition copyChunk (chunk : Bytes) (st : Bytes * nat)
  : Outcome (Bytes * nat) :=
  let '(chunksAll, position) := st in
  match set_ chunk position chunksAll with
  | Throw e => Throw e
  | Return chunksAll => Return (chunksAll, (position + length chunk)%nat)
  end.

Fixpoint forOf {A St : Type} (body : A -> St -> Outcome St) (l : list A)
  (s : St) : Outcome St :=
  match l with
  | [] => Return s
  | a :: rest =>
      match body a s with
      | Return s' => forOf body rest s'
      | Throw e => Throw e
      end
  end.

(** [fetched] is what [fetch(url)] gives.  The answer comes with the
    progress values shown on the way. *)
Definition loadModelPartWithProgress (fetched : Fetched) (partNumber : nat)
  : Outcome Bytes * list Num :=
  match fetched with
  | NetworkError e => (Throw e, [])
  | Response _ header stream =>
      let contentLength := default 0%nat header in
      let '(receivedLength, chunks, shown) :=
        readAll partNumber contentLength stream 0 [] [] in
      match forOf copyChunk chunks (Uint8Array receivedLength, 0%nat) with
      | Throw e => (Throw e, shown)
      | Return (chunksAll, _) => (Return chunksAll, shown)
      end
  end.

Definition integrityMessage : string :=
  "Error de integridad en las partes del modelo".

Definition loadErrorText : string :=
  "Error al cargar el modelo. Intente recargar la página.".

(** [!buffer]: an ArrayBuffer is an object, and an object is never falsy. *)
Definition falsy (buffer : Bytes) : bool := false.

(** The [try] block of [loadModelParts], up to the moment its promise
    settles.  The two parts load at the same time: when both fail,
    [secondFailsFirst] tells which failure [Promise.all] reports.  The
    progress that the parts show in between is overwritten before the
    promise settles. *)
Definition loadModelParts_try (fetch : string -> Fetched)
  (secondFailsFirst : bool) (b : Browser) : Outcome Url * Browser :=
  match checkModelCache b with
  | Some (buffer1, buffer2) =>
      match combine buffer1 buffer2 with
      | Throw e => (Throw e, b)
      | Return combinedBuffer => (Return (BlobUrl combinedBuffer), b)
      end
  | None =>
      let b := updateLoadingProgress (Finite 0) b in
      match fst (loadModelPartWithProgress (fetch partaa) 1),
            fst (loadModelPartWithProgress (fetch partab) 2) with
      | Throw e1, Throw e2 =>
          (Throw (if secondFailsFirst then e2 else e1), b)
      | Throw e1, Return _ => (Throw e1, b)
      | Return _, Throw e2 => (Throw e2, b)
      | Return buffer1, Return buffer2 =>
          if falsy buffer1 || falsy buffer2
          then (Throw (Error integrityMessage), b)
          else
            match combine buffer1 buffer2 with
            | Throw e => (Throw e, b)
            | Return combinedBuffer =>
                let b := cacheModelParts buffer1 buffer2 b in
                let b := updateLoadingProgress (Finite 100) b in
                let b :=
                  {| cachesInWindow := cachesInWindow b;
                     cacheFails := cacheFails b;
                     cacheEntries := cacheEntries b;
                     indicator := indicator b;
                     hideAfter := 1000%N :: hideAfter b |} in
                (Return (BlobUrl combinedBuffer), b)
            end
      end
  end.

Definition loadModelParts (fetch : string -> Fetched)
  (secondFailsFirst : bool) (b : Browser) : Outcome Url * Browser :=
  match loadModelParts_try fetch secondFailsFirst b with
  | (Throw error, b) =>
      (Throw error, withIndicator (fun i => (fst i, loadErrorText)) b)
  | settled => settled
  end.

End CachedLoader.

(** *** The retries of [loadModel] *)

(** How the race of [tflite.loadTFLiteModel] with the timeout of 30 s
    ends. *)
Inductive Race :=
| Resolved (model : option Model)
| Rejected (e : JsError)
| TimedOut.

Record Loading := {
  MODEL_URL : Url;
  tfliteModel : option Model;
  waited : list N;         (** the waits between attempts in ms, latest
                               first *)
  loadingPage : Page
}.

Definition withLoadingPage (f : Page -> Page) (s : Loading) : Loading :=
  {| MODEL_URL := MODEL_URL s; tfliteModel := tfliteModel s;
     waited := waited s; loadingPage := f (loadingPage s) |}.

Definition setText (text : string) (p : Page) : Page :=
  setLoading (fst (loadingIndicator p), text) p.

Definition fallback : Url :=
  Remote "https://storage.googleapis.com/mediapipe-models/image_segmenter/selfie_segmenter/float16/1/selfie_segmenter.tflite".

Definition maxRetries : nat := 3.

(** [s.includes(sub)] *)
Fixpoint includes (s sub : string) : bool :=
  String.prefix sub s
  || match s with
     | EmptyString => false
     | String _ rest => includes rest sub
     end.

Inductive Attempts :=
| Loaded
| Exhausted (lastError : option JsError).

(** [for (let attempt = ...; attempt <= maxRetries; attempt++)], with [n]
    turns to go. *)
Fixpoint attemptLoop (race : nat -> Race) (attempt n : nat)
  (lastError : option JsError) (s : Loading) : Attempts * Loading :=
  match n with
  | O => (Exhausted lastError, s)
  | S n' =>
      let failed (error : JsError) :=
        let s :=
          if (attempt <? maxRetries)%nat then
            let s :=
              withLoadingPage
                (setText ("Reintentando cargar el modelo ("
                          +:+ pretty attempt +:+ "/" +:+ pretty maxRetries
                          +:+ ")...")) s in
            {| MODEL_URL := MODEL_URL s; tfliteModel := tfliteModel s;
               waited := (1000 * N.of_nat attempt)%N :: waited s;
               loadingPage := loadingPage s |}
          else s in
        attemptLoop race (S attempt) n' (Some error) s in
      match race attempt with
      | Resolved model =>
          let s :=
            {| MODEL_URL := MODEL_URL s; tfliteModel := model;
               waited := waited s; loadingPage := loadingPage s |} in
          match model with
          | Some _ =>
              (Loaded,
               withLoadingPage
                 (setText "Modelo listo. Puede comenzar a generar.") s)
          | None => attemptLoop race (S attempt) n' lastError s
          end
      | Rejected error => failed error
      | TimedOut =>
          failed (Error ("Timeout en intento " +:+ pretty attempt))
      end
  end.

Definition loadFailedPrefix : string := "Error al cargar el modelo. ".

Definition errorMessage (e : JsError) : string :=
  loadFailedPrefix
  +:+ (if includes (message e) "Timeout" then
         "La conexión es muy lenta. Intente con una mejor conexión a internet."
       else if includes (message e) "CORS" then
         "Error de acceso al servidor. Intente más tarde."
       else if includes (message e) "memory" then
         "No hay suficiente memoria disponible. Cierre otras aplicaciones e intente de nuevo."
       else
         "Por favor, verifique su conexión a internet y recargue la página.").

(** [parts] is how [loadModelParts()] settles, [race url attempt] how the
    attempt of that number to load the model from [url] ends. *)
Definition loadModel (parts : Outcome Url) (race : Url -> nat -> Race)
  (s : Loading) : bool * Loading :=
  let s :=
    withLoadingPage (setLoading (true, "Inicializando sistema de IA...")) s in
  let s :=
    {| MODEL_URL := match parts with
                    | Return url => url
                    | Throw _ => fallback
                    end;
       tfliteModel := tfliteModel s; waited := waited s;
       loadingPage := loadingPage s |} in
  match attemptLoop (race (MODEL_URL s)) 1 maxRetries None s with
  | (Loaded, s) => (true, s)
  | (Exhausted lastError, s) =>
      let e :=
        default
          (Error "No se pudo cargar el modelo después de varios intentos")
          lastError in
      (false,
       withLoadingPage
         (fun p =>
            setText "Error al cargar el modelo. Intente recargar la página."
              (pushAlert (errorMessage e) p)) s)
  end.

(** The URL that [loadModel] loads the model from. *)
Definition chosenUrl (parts : Outcome Url) : Url :=
  match parts with
  | Return url => url
  | Throw _ => fallback
  end.

(** The error of an attempt that fails. *)
Definition failureOf (r : Race) (attempt : nat) : option JsError :=
  match r with
  | Resolved _ => None
  | Rejected e => Some e
  | TimedOut => Some (Error ("Timeout en intento " +:+ pretty attempt))
  end.

(** An attempt that gives a model. *)
Definition givesModel (r : Race) : bool :=
  match r with
  | Resolved (Some _) => true
  | _ => false
  end.

Definition startLoading : Loading :=
  {| MODEL_URL := fallback; tfliteModel := None; waited := [];
     loadingPage := emptyPage |}.

(** *** Waiting for the TFLite library *)

Definition maxAttempts : nat := 50.

Inductive Waiting :=
| LoadStarted      (** [loadModel()] is called *)
| GaveUp           (** the alert is shown *)
| Pending.         (** another call is scheduled *)

(** [waitForTFLite], called again by its own timeout of 100 ms at most
    [calls] times.  [defined k] tells whether [tflite] is defined at the
    call number [k]; the answer comes with [attempts] and the number of
    timeouts set. *)
Fixpoint waitForTFLite (calls : nat) (defined : nat -> bool)
  (call attempts timeouts : nat) : Waiting * nat * nat :=
  match calls with
  | O => (Pending, attempts, timeouts)
  | S calls' =>
      if defined call then (LoadStarted, attempts, timeouts)
      else
        let attempts := S attempts in
        if (maxAttempts <=? attempts)%nat then (GaveUp, attempts, timeouts)
        else waitForTFLite calls' defined (S call) attempts (S timeouts)
  end.

(** ** Further scenarios *)

(** An exporter that answers [result]. *)
Definition answeringExporter (result : list Byte.byte) : Exporter :=
  fun _ _ _ => Done result.

(** A server that has the first part in two chunks, and answers the request
    for the second part with an error page. *)
Definition server (url : string) : Fetched :=
  if String.eqb url partaa
  then Response true (Some 3%nat) [[Byte.x01; Byte.x02]; [Byte.x03]]
  else Response false None [[Byte.x04]].


(** A browser with the Cache API, an empty cache and the indicator hidden. *)
Definition freshBrowser : CachedLoader.Browser :=
  {| CachedLoader.cachesInWindow := true; CachedLoader.cacheFails := false;
     CachedLoader.cacheEntries := ∅;
     CachedLoader.indicator := Some (false, EmptyString);
     CachedLoader.hideAfter := [] |}.

(** The first attempt times out, the second gives [model]. *)
Definition secondAttempt (model : Model) (url : Url) (attempt : nat) : Race :=
  match attempt with
  | 2%nat => Resolved (Some model)
  | _ => TimedOut
  end.

Definition neverLoads (url : Url) (attempt : nat) : Race := TimedOut.

(** [tflite] is defined from call 3 on. *)
Definition definedFrom3 (call : nat) : bool := (3 <=? call)%nat.

(** * Properties *)

Arguments PlaneGeometry : simpl never.
Arguments plane : simpl never.
Arguments center_ : simpl never.

(** ** Grids *)

Section Blocks.
Context {A B : Type}.

Lemma length_flat_map_const (f : A -> list B) (c : nat) (l : list A) :
  (forall a, length (f a) = c) -> length (flat_map f l) = (length l * c)%nat.
Proof.
  intros Hc. induction l as [|a l IH]; simpl; [reflexivity|].
  rewrite length_app, Hc, IH. reflexivity.
Qed.

(** Entry [k] of block [i], when all blocks are [c] long. *)
Lemma lookup_flat_map_seq (f : nat -> list B) (c n : nat) :
  (forall a, length (f a) = c) ->
  forall s i k, (i < n)%nat -> (k < c)%nat ->
    flat_map f (seq s n) !! (i * c + k)%nat = f (s + i)%nat !! k.
Proof.
  intros Hc. induction n as [|n IH]; intros s i k Hi Hk; [lia|].
  simpl. destruct i as [|i].
  - rewrite lookup_app_l by (rewrite Hc; lia).
    simpl. f_equal. f_equal. lia.
  - rewrite lookup_app_r by (rewrite Hc; lia).
    rewrite Hc.
    replace (S i * c + k - c)%nat with (i * c + k)%nat by lia.
    rewrite IH by lia. f_equal. f_equal. lia.
Qed.
End Blocks.

Lemma plane_position (width height : nat) :
  exists ps, position (plane width height) = Some ps
             /\ length ps = (height * width)%nat.
Proof.
  eexists. split; [reflexivity|].
  rewrite (length_flat_map_const _ (Z.to_nat (Z.of_nat width - 1 + 1))).
  - rewrite length_seq. lia.
  - intros iy. rewrite length_map, length_seq. reflexivity.
Qed.

Lemma plane_index (width height : nat) :
  exists idx, index (plane width height) = Some idx
              /\ length idx = ((height - 1) * ((width - 1) * 6))%nat.
Proof.
  eexists. split; [reflexivity|].
  rewrite (length_flat_map_const _ ((width - 1) * 6)%nat).
  - rewrite length_seq. lia.
  - intros iy. rewrite (length_flat_map_const _ 6%nat).
    + rewrite length_seq. lia.
    + reflexivity.
Qed.

(** ** The displacement loop *)

Lemma depthAt_wf (t : DepthTensor) (i : nat) :
  wf_tensor t -> (i < fst (shape t) * snd (shape t))%nat ->
  is_Some (depthAt (array t) (snd (shape t)) i).
Proof.
  intros [Hrows Hcols] Hi. unfold depthAt.
  assert (Hw : (0 < snd (shape t))%nat) by lia.
  assert (Hy : (i / snd (shape t) < length (array t))%nat).
  { rewrite Hrows. apply Nat.Div0.div_lt_upper_bound. lia. }
  destruct (lookup_lt_is_Some_2 _ _ Hy) as [row Hrow]. rewrite Hrow.
  apply lookup_lt_is_Some_2.
  rewrite Forall_forall in Hcols.
  rewrite (Hcols row) by (eapply list_elem_of_lookup_2; eauto).
  apply Nat.mod_upper_bound. lia.
Qed.

Lemma forLoop_displace depthMap width es bh (rest : list Vector3.t) :
  forall (done : list Vector3.t),
    (forall k, (k < length rest)%nat ->
               is_Some (depthAt depthMap width (length done + k))) ->
    forLoop (displace depthMap width es bh) (length done) (length rest)
            (done ++ rest)
    = Return (done ++ imap (fun k => raised depthMap width es bh
                                       (length done + k)) rest).
Proof.
  induction rest as [|v rest IH]; intros done Hin; simpl.
  - reflexivity.
  - destruct (Hin 0%nat ltac:(simpl; lia)) as [d Hd].
    rewrite Nat.add_0_r in Hd.
    unfold displace at 1. unfold depthAt in Hd.
    destruct (depthMap !! (length done / width)%nat) as [row|] eqn:Hrow;
      [|discriminate].
    rewrite Hd. unfold setZ.
    replace (alter (fun v0 => Vector3.setZ v0 ((1 - d) * es + bh * 20)%Q)
               (length done) (done ++ v :: rest))
      with ((done ++ [Vector3.setZ v ((1 - d) * es + bh * 20)%Q]) ++ rest).
    2:{ rewrite <- (Nat.add_0_r (length done)).
        rewrite alter_app_r. simpl. rewrite <- app_assoc. reflexivity. }
    specialize (IH (done ++ [Vector3.setZ v ((1 - d) * es + bh * 20)%Q])).
    rewrite length_app in IH. simpl in IH.
    rewrite Nat.add_1_r in IH. rewrite IH.
    + rewrite <- app_assoc. simpl. f_equal. f_equal. f_equal.
      * unfold raised, depthAt. rewrite Nat.add_0_r, Hrow, Hd. reflexivity.
      * apply imap_ext. intros k x _. simpl. f_equal. lia.
    + intros k Hk. replace (S (length done) + k)%nat
        with (length done + S k)%nat by lia.
      apply Hin. simpl. lia.
Qed.

(** ** Running the script *)

(** The world is taken apart first, so that the updates compute on its
    fields; binds are unfolded, lookups of fresh inserts rewritten. *)
Ltac run_js :=
  unfold onGeometry, onMesh, geometryOf, materialOf, getMesh, getGeometry,
    getMaterial, getTexture, clone, disposeGeometry, disposeMaterial,
    sceneAdd, sceneRemove;
  unfold bind, fresh, modify, ret, throw, get;
  do 4 (cbn -[plane center_ computeVertexNormals computeBoundingBox
              computeBoundingSphere Nat.add];
        rewrite ?lookup_insert_eq).

Ltac settle_js :=
  cbv [withStore withPage withScene setCurrentMesh putMesh putGeometry
       putMaterial putTexture bump logDispose
       store scene currentMesh inputs page geometries materials
       textures meshes nextRef disposed].

Lemma createMesh_run (t : DepthTensor) (img : Image) (w : World) :
  wf_tensor t ->
  createMeshFromDepthMap t img w
  = (Return (3 + nextRef (store w))%nat, built t img w).
Proof.
  intros Hwf.
  unfold createMeshFromDepthMap, built, builtGeometry, displacedGeometry,
    displacedPositions.
  destruct (shape t) as [height width] eqn:Hshape.
  destruct (plane_position width height) as (ps & Hps & Hlen).
  unfold plane in Hps.
  unfold bind at 1. unfold get at 1.
  unfold bind at 1. unfold fresh at 1.
  unfold bind at 1. unfold modify at 1.
  cbv zeta. rewrite Hps. cbn [default from_option id].
  pose proof (forLoop_displace (array t) width
                (100 * (depth_scale (inputs w) / 100))%Q
                (base_height (inputs w) / 100)%Q ps []) as Hloop.
  simpl in Hloop. rewrite Hloop.
  2:{ intros k Hk. pose proof (depthAt_wf t k Hwf) as H.
      rewrite Hshape in H. apply H. simpl. lia. }
  fold (plane width height) in *.
  change (boundingBox (plane width height)) with (@None Box3).
  change (boundingSphere (plane width height)) with (@None Sphere).
  rewrite Hps. cbn [default from_option id].
  clear Hloop.
  destruct w as [[gs ms ts mh nr dp] sc cm inp pg].
  cbn [inputs] in *.
  destruct (auto_center inp) eqn:Hac; run_js; settle_js;
    rewrite ?insert_insert_eq; reflexivity.
Qed.

Lemma plane_cells (width height iy ix k : nat) :
  (1 <= width)%nat -> (iy < height - 1)%nat -> (ix < width - 1)%nat ->
  (k < 6)%nat ->
  exists idx, index (plane width height) = Some idx
    /\ idx !! ((iy * (width - 1) + ix) * 6 + k)%nat = cell width iy ix !! k.
Proof.
  intros Hw Hy Hx Hk. eexists. split; [reflexivity|].
  replace ((iy * (width - 1) + ix) * 6 + k)%nat
    with (iy * ((width - 1) * 6) + (ix * 6 + k))%nat by lia.
  rewrite (lookup_flat_map_seq _ ((width - 1) * 6)%nat).
  - rewrite (lookup_flat_map_seq _ 6%nat) by (reflexivity || lia).
    simpl. replace (Z.to_nat (Z.of_nat width - 1 + 1)) with width by lia.
    reflexivity.
  - intros a. rewrite (length_flat_map_const _ 6%nat) by reflexivity.
    rewrite length_seq. lia.
  - lia.
  - lia.
Qed.

Lemma count_translate tx ty tz g : count (translate tx ty tz g) = count g.
Proof.
  unfold translate, count.
  destruct g as [[ps|] nrm uvs idx [bb|] [bs|]]; simpl;
    rewrite ?length_map; reflexivity.
Qed.

Lemma index_translate tx ty tz g : index (translate tx ty tz g) = index g.
Proof.
  unfold translate.
  destruct g as [[ps|] nrm uvs idx [bb|] [bs|]]; reflexivity.
Qed.

Lemma count_center g : count (center_ g) = count g.
Proof. unfold center_. rewrite count_translate. reflexivity. Qed.

Lemma index_center g : index (center_ g) = index g.
Proof. unfold center_. rewrite index_translate. reflexivity. Qed.

Lemma count_displaced (t : DepthTensor) (i : Inputs) :
  count (displacedGeometry t i) = (snd (shape t) * fst (shape t))%nat.
Proof.
  unfold displacedGeometry, displacedPositions.
  destruct (shape t) as [height width]. cbn [fst snd].
  destruct (plane_position width height) as (ps & Hps & Hlen).
  unfold count. cbn [computeVertexNormals position].
  rewrite Hps. cbn [default from_option id]. rewrite length_imap. lia.
Qed.

Lemma index_displaced (t : DepthTensor) (i : Inputs) :
  index (displacedGeometry t i) = index (plane (snd (shape t)) (fst (shape t))).
Proof.
  unfold displacedGeometry. destruct (shape t) as [height width]. reflexivity.
Qed.

Lemma count_built (t : DepthTensor) (i : Inputs) :
  count (builtGeometry t i) = (snd (shape t) * fst (shape t))%nat.
Proof.
  unfold builtGeometry. destruct (auto_center i);
    rewrite ?count_center; apply count_displaced.
Qed.

Lemma index_built (t : DepthTensor) (i : Inputs) :
  index (builtGeometry t i) = index (plane (snd (shape t)) (fst (shape t))).
Proof.
  unfold builtGeometry. destruct (auto_center i);
    rewrite ?index_center; apply index_displaced.
Qed.

Lemma geometryIn_built (t : DepthTensor) (img : Image) (w : World) :
  geometryIn (built t img w) (3 + nextRef (store w))
  = Some (builtGeometry t (inputs w)).
Proof.
  unfold geometryIn, built.
  cbn [store meshes geometries]. rewrite lookup_insert_eq.
  cbn [builtMesh setRotationX setRotation newMesh geometry].
  rewrite lookup_insert_eq. reflexivity.
Qed.

(** C2: a depth field at least two wide and two high gives a mesh with
    [width * height] vertices and [(width-1) * (height-1) * 2] triangles,
    whose faces are the cells of the grid in row-major order, whatever the
    depth values and the settings. *)
Theorem buildSurface_grid (t : DepthTensor) (img : Image) (w : World)
  (width height : nat) :
  wf_tensor t -> shape t = (height, width) ->
  (2 <= width)%nat -> (2 <= height)%nat ->
  exists mesh w' geom idx,
    createMeshFromDepthMap t img w = (Return mesh, w')
    /\ geometryIn w' mesh = Some geom
    /\ count geom = (width * height)%nat
    /\ index geom = Some idx
    /\ length idx = (3 * ((width - 1) * (height - 1) * 2))%nat
    /\ forall iy ix k,
         (iy < height - 1)%nat -> (ix < width - 1)%nat -> (k < 6)%nat ->
         idx !! ((iy * (width - 1) + ix) * 6 + k)%nat = cell width iy ix !! k.
Proof.
  intros Hwf Hshape Hw Hh.
  destruct (plane_index width height) as (idx & Hidx & Hlen).
  exists (3 + nextRef (store w))%nat, (built t img w),
    (builtGeometry t (inputs w)), idx.
  split; [apply createMesh_run; assumption|].
  split; [apply geometryIn_built|].
  split; [rewrite count_built, Hshape; reflexivity|].
  split; [rewrite index_built, Hshape; exact Hidx|].
  split; [lia|].
  intros iy ix k Hy Hx Hk.
  destruct (plane_cells width height iy ix k) as (idx' & Hidx' & Hcell);
    try lia.
  rewrite Hidx in Hidx'. injection Hidx' as <-. exact Hcell.
Qed.

Lemma wf_checker : wf_tensor checker.
Proof. split; [reflexivity|]. repeat constructor. Qed.

Lemma buildSurface_grid_witness :
  exists mesh w' geom idx,
    createMeshFromDepthMap checker photo (startWorld 100 0 false false)
    = (Return mesh, w')
    /\ geometryIn w' mesh = Some geom
    /\ count geom = (2 * 2)%nat
    /\ index geom = Some idx
    /\ length idx = (3 * ((2 - 1) * (2 - 1) * 2))%nat
    /\ forall iy ix k,
         (iy < 2 - 1)%nat -> (ix < 2 - 1)%nat -> (k < 6)%nat ->
         idx !! ((iy * (2 - 1) + ix) * 6 + k)%nat = cell 2 iy ix !! k.
Proof.
  apply (buildSurface_grid checker photo (startWorld 100 0 false false) 2 2
           wf_checker eq_refl); lia.
Defined.

(** ** Degenerate grids *)

Lemma flat_map_nil {A B : Type} (l : list A) :
  flat_map (fun _ : A => @nil B) l = [].
Proof. induction l; simpl; auto. Qed.

Lemma plane_index_degenerate (width height : nat) :
  (width < 2 \/ height < 2)%nat -> index (plane width height) = Some [].
Proof.
  intros Hd. unfold plane, PlaneGeometry. cbn [index]. f_equal.
  destruct (decide (height < 2)%nat) as [Hh|Hh].
  - replace (Z.to_nat (Z.of_nat height - 1)) with 0%nat by lia. reflexivity.
  - replace (Z.to_nat (Z.of_nat width - 1)) with 0%nat by lia.
    simpl. apply flat_map_nil.
Qed.

(** C4, as the code has it: the converter does not look at the size of the
    grid.  A depth field less than two wide or two high gives a mesh all the
    same, with [width * height] vertices and no face. *)
Theorem buildSurface_degenerate (t : DepthTensor) (img : Image) (w : World)
  (width height : nat) :
  wf_tensor t -> shape t = (height, width) ->
  (width < 2 \/ height < 2)%nat ->
  exists mesh w' geom,
    createMeshFromDepthMap t img w = (Return mesh, w')
    /\ geometryIn w' mesh = Some geom
    /\ count geom = (width * height)%nat
    /\ index geom = Some [].
Proof.
  intros Hwf Hshape Hd.
  exists (3 + nextRef (store w))%nat, (built t img w),
    (builtGeometry t (inputs w)).
  split; [apply createMesh_run; assumption|].
  split; [apply geometryIn_built|].
  split; [rewrite count_built, Hshape; reflexivity|].
  rewrite index_built, Hshape. apply plane_index_degenerate. exact Hd.
Qed.

Lemma wf_column : wf_tensor column.
Proof. split; [reflexivity|]. repeat constructor. Qed.

Lemma buildSurface_degenerate_witness :
  exists mesh w' geom,
    createMeshFromDepthMap column photo (startWorld 100 0 false false)
    = (Return mesh, w')
    /\ geometryIn w' mesh = Some geom
    /\ count geom = (1 * 2)%nat
    /\ index geom = Some [].
Proof.
  apply (buildSurface_degenerate column photo _ 1 2 wf_column eq_refl).
  left. lia.
Defined.

(** C4 as stated fails: on a grid one column wide the converter returns a
    mesh, it does not throw. *)
Lemma buildSurface_degenerate_returns :
  fst (createMeshFromDepthMap column photo (startWorld 100 0 false false))
  = Return 3%nat.
Proof. vm_compute. reflexivity. Qed.

(** ** Heights *)

Lemma applyTranslation_spec tx ty tz v :
  Vector3.equiv (Vector3.applyTranslation tx ty tz v)
    (Vector3.mk (Vector3.x v + tx) (Vector3.y v + ty) (Vector3.z v + tz)).
Proof.
  unfold Vector3.equiv, Vector3.applyTranslation. simpl.
  repeat split; field; lra.
Qed.

Lemma position_translate tx ty tz g :
  position (translate tx ty tz g)
  = map (Vector3.applyTranslation tx ty tz) <$> position g.
Proof.
  unfold translate.
  destruct g as [[ps|] nrm uvs idx [bb|] [bs|]]; reflexivity.
Qed.

Lemma position_center (g : BufferGeometry) (ps : list Vector3.t) :
  position g = Some ps ->
  position (center_ g)
  = Some (map (Vector3.applyTranslation
                 (Vector3.x (centerOffset ps)) (Vector3.y (centerOffset ps))
                 (Vector3.z (centerOffset ps))) ps).
Proof.
  intros Hps. unfold center_. rewrite position_translate.
  cbn [computeBoundingBox position boundingBox]. rewrite Hps. reflexivity.
Qed.

Lemma position_displaced (t : DepthTensor) (i : Inputs) :
  position (displacedGeometry t i) = Some (displacedPositions t i).
Proof.
  unfold displacedGeometry. destruct (shape t) as [height width]. reflexivity.
Qed.

Lemma raised_at (t : DepthTensor) (i : Inputs) (width height y x : nat)
  (row : list Q) (depth : Q) :
  wf_tensor t -> shape t = (height, width) ->
  array t !! y = Some row -> row !! x = Some depth ->
  exists v, displacedPositions t i !! (y * width + x)%nat = Some v
    /\ Vector3.z v
       = extrusion depth (depth_scale i / 100) (base_height i / 100).
Proof.
  intros [Hrows Hcols] Hshape Hrow Hdepth.
  rewrite Hshape in Hrows, Hcols. simpl in Hrows, Hcols.
  assert (Hy : (y < height)%nat)
    by (rewrite <- Hrows; eapply lookup_lt_Some; eauto).
  assert (Hx : (x < width)%nat).
  { rewrite Forall_forall in Hcols.
    rewrite <- (Hcols row) by (eapply list_elem_of_lookup_2; eauto).
    eapply lookup_lt_Some; eauto. }
  unfold displacedPositions. rewrite Hshape.
  destruct (plane_position width height) as (ps & Hps & Hlen).
  rewrite Hps. cbn [default from_option id].
  destruct (lookup_lt_is_Some_2 ps (y * width + x)%nat) as [v0 Hv0]; [nia|].
  rewrite list_lookup_imap, Hv0. simpl.
  eexists. split; [reflexivity|].
  unfold raised, depthAt.
  replace ((y * width + x) / width)%nat with y
    by (rewrite Nat.div_add_l by lia; rewrite Nat.div_small by lia; lia).
  replace ((y * width + x) mod width)%nat with x
    by (rewrite Nat.add_comm, Nat.Div0.mod_add; rewrite Nat.mod_small; lia).
  rewrite Hrow, Hdepth. reflexivity.
Qed.

Lemma built_positions (t : DepthTensor) (i : Inputs) :
  exists ps,
    position (builtGeometry t i) = Some ps
    /\ length ps = length (displacedPositions t i)
    /\ forall k v0, displacedPositions t i !! k = Some v0 ->
         exists v, ps !! k = Some v
                   /\ Vector3.z v == Vector3.z v0 + recentring t i.
Proof.
  unfold builtGeometry, recentring. destruct (auto_center i).
  - exists (map (Vector3.applyTranslation
                   (Vector3.x (centerOffset (displacedPositions t i)))
                   (Vector3.y (centerOffset (displacedPositions t i)))
                   (Vector3.z (centerOffset (displacedPositions t i))))
                (displacedPositions t i)).
    split; [apply position_center, position_displaced|].
    split; [apply length_map|].
    intros k v0 Hk. rewrite list_lookup_fmap, Hk. simpl.
    eexists. split; [reflexivity|]. apply applyTranslation_spec.
  - exists (displacedPositions t i).
    split; [apply position_displaced|].
    split; [reflexivity|].
    intros k v0 Hk. exists v0. split; [exact Hk|]. ring.
Qed.

Lemma built_height (t : DepthTensor) (i : Inputs) (width height y x : nat)
  (row : list Q) (depth : Q) (ps : list Vector3.t) :
  wf_tensor t -> shape t = (height, width) ->
  position (builtGeometry t i) = Some ps ->
  array t !! y = Some row -> row !! x = Some depth ->
  exists v, ps !! (y * width + x)%nat = Some v
    /\ Vector3.z v
       == extrusion depth (depth_scale i / 100) (base_height i / 100)
          + recentring t i.
Proof.
  intros Hwf Hshape Hps Hrow Hdepth.
  destruct (built_positions t i) as (ps' & Hps' & _ & Hz).
  rewrite Hps in Hps'. injection Hps' as <-.
  destruct (raised_at t i width height y x row depth
              Hwf Hshape Hrow Hdepth) as (v0 & Hv0 & Hz0).
  destruct (Hz _ _ Hv0) as (v & Hv & Hzv).
  exists v. split; [exact Hv|]. rewrite Hzv, Hz0. reflexivity.
Qed.


Lemma wf_flat : wf_tensor flat.
Proof. split; [reflexivity|]. repeat constructor. Qed.



(** ** The 2 by 2 scenario *)

Lemma extrusion_unit (depth ds bh : Q) :
  (ds == 100 -> bh == 0 ->
   extrusion depth (ds / 100) (bh / 100) == (1 - depth) * 100)%Q.
Proof. intros Hds Hbh. unfold extrusion. rewrite Hds, Hbh. field. Qed.

(** C3, as the code has it: with autoCenter off, the depth field
    [[0,1],[1,0]] with depthScale 1 and baseHeight 0 gives the heights
    [100, 0, 0, 100] in row-major order and the two triangles
    (0,2,1) and (2,3,1). *)
Theorem checker_scenario (img : Image) (w : World) :
  (depth_scale (inputs w) == 100)%Q -> (base_height (inputs w) == 0)%Q ->
  auto_center (inputs w) = false ->
  exists mesh w' geom ps,
    createMeshFromDepthMap checker img w = (Return mesh, w')
    /\ geometryIn w' mesh = Some geom
    /\ position geom = Some ps
    /\ Forall2 Qeq (map Vector3.z ps) [100; 0; 0; 100]%Q
    /\ index geom = Some [0; 2; 1; 2; 3; 1]%nat.
Proof.
  intros Hds Hbh Hac.
  destruct (built_positions checker (inputs w)) as (ps & Hps & Hlen & _).
  exists (3 + nextRef (store w))%nat, (built checker img w),
    (builtGeometry checker (inputs w)), ps.
  split; [apply createMesh_run, wf_checker|].
  split; [apply geometryIn_built|].
  split; [exact Hps|].
  split; [|rewrite index_built; reflexivity].
  assert (Hoff : recentring checker (inputs w) = 0%Q)
    by (unfold recentring; rewrite Hac; reflexivity).
  assert (Hat : forall y x row depth,
            array checker !! y = Some row -> row !! x = Some depth ->
            exists v, ps !! (y * 2 + x)%nat = Some v
                      /\ (Vector3.z v == (1 - depth) * 100)%Q).
  { intros y x row depth Hrow Hdepth.
    destruct (built_height checker (inputs w) 2 2 y x row depth ps
                wf_checker eq_refl Hps Hrow Hdepth) as (v & Hv & Hz).
    exists v. split; [exact Hv|].
    rewrite Hz, Hoff, extrusion_unit by assumption. ring. }
  destruct (Hat 0%nat 0%nat [0; 1]%Q 0%Q eq_refl eq_refl) as (v0 & Hv0 & Hz0).
  destruct (Hat 0%nat 1%nat [0; 1]%Q 1%Q eq_refl eq_refl) as (v1 & Hv1 & Hz1).
  destruct (Hat 1%nat 0%nat [1; 0]%Q 1%Q eq_refl eq_refl) as (v2 & Hv2 & Hz2).
  destruct (Hat 1%nat 1%nat [1; 0]%Q 0%Q eq_refl eq_refl) as (v3 & Hv3 & Hz3).
  assert (Hl : length ps = 4%nat).
  { rewrite Hlen. unfold displacedPositions. simpl. reflexivity. }
  destruct ps as [|p0 [|p1 [|p2 [|p3 [|p4 ps]]]]]; try discriminate Hl.
  simpl in Hv0, Hv1, Hv2, Hv3.
  injection Hv0 as <-. injection Hv1 as <-.
  injection Hv2 as <-. injection Hv3 as <-.
  simpl. repeat constructor.
  - rewrite Hz0. reflexivity.
  - rewrite Hz1. reflexivity.
  - rewrite Hz2. reflexivity.
  - rewrite Hz3. reflexivity.
Qed.

Lemma checker_scenario_witness :
  exists mesh w' geom ps,
    createMeshFromDepthMap checker photo (startWorld 100 0 false false)
    = (Return mesh, w')
    /\ geometryIn w' mesh = Some geom
    /\ position geom = Some ps
    /\ Forall2 Qeq (map Vector3.z ps) [100; 0; 0; 100]%Q
    /\ index geom = Some [0; 2; 1; 2; 3; 1]%nat.
Proof.
  apply (checker_scenario photo (startWorld 100 0 false false));
    reflexivity.
Defined.

(** C3 as stated fails with autoCenter on: the same depth field and
    settings give the heights [50, -50, -50, 50]. *)
Lemma checker_scenario_centred :
  let w' := snd (createMeshFromDepthMap checker photo
                   (startWorld 100 0 false true)) in
  Forall2 Qeq (heights w' 0%nat) [50; -50; -50; 50]%Q
  /\ ~ Forall2 Qeq (heights w' 0%nat) [100; 0; 0; 100]%Q.
Proof.
  vm_compute. split.
  - repeat constructor.
  - intros H. inversion H as [|? ? ? ? Hz _]. discriminate Hz.
Qed.

(** ** Recentring *)

Section Centring.
Local Open Scope Q_scope.

Lemma Qmin_shift a b a' b' t :
  a' == a + t -> b' == b + t -> Qmin a' b' == Qmin a b + t.
Proof.
  intros Ha Hb.
  destruct (Q.min_spec a b) as [[? ->]|[? ->]],
           (Q.min_spec a' b') as [[? ->]|[? ->]]; lra.
Qed.

Lemma Qmax_shift a b a' b' t :
  a' == a + t -> b' == b + t -> Qmax a' b' == Qmax a b + t.
Proof.
  intros Ha Hb.
  destruct (Q.max_spec a b) as [[? ->]|[? ->]],
           (Q.max_spec a' b') as [[? ->]|[? ->]]; lra.
Qed.

Lemma Qmin_le_max a b p : a <= b -> Qmin a p <= Qmax b p.
Proof.
  intros Hab.
  destruct (Q.min_spec a p) as [[? ->]|[? ->]],
           (Q.max_spec b p) as [[? ->]|[? ->]]; lra.
Qed.

Lemma expand_moved t b b' p :
  moved t b b' ->
  moved t (expandByPoint b p)
    (expandByPoint b'
       (Vector3.applyTranslation (Vector3.x t) (Vector3.y t) (Vector3.z t) p)).
Proof.
  pose proof (applyTranslation_spec (Vector3.x t) (Vector3.y t)
                (Vector3.z t) p) as (Hx & Hy & Hz).
  simpl in Hx, Hy, Hz.
  destruct b as [|lo hi], b' as [|lo' hi']; simpl; try tauto.
  - intros _. unfold Vector3.equiv. simpl. tauto.
  - intros [(Hlx & Hly & Hlz) (Hhx & Hhy & Hhz)]. simpl in *.
    unfold Vector3.equiv. simpl.
    repeat split; (apply Qmin_shift || apply Qmax_shift); assumption.
Qed.

Lemma fold_moved t ps : forall b b',
  moved t b b' ->
  moved t (fold_left expandByPoint ps b)
    (fold_left expandByPoint
       (map (Vector3.applyTranslation (Vector3.x t) (Vector3.y t)
               (Vector3.z t)) ps) b').
Proof.
  induction ps as [|p ps IH]; intros b b' Hm; simpl; [exact Hm|].
  apply IH, expand_moved, Hm.
Qed.

Lemma expand_ordered b p : ordered b -> ordered (expandByPoint b p).
Proof.
  destruct b as [|lo hi]; simpl.
  - intros _. repeat split; lra.
  - intros (Hx & Hy & Hz). repeat split; apply Qmin_le_max; assumption.
Qed.

Lemma fold_ordered ps : forall b,
  ordered b -> ordered (fold_left expandByPoint ps b).
Proof.
  induction ps as [|p ps IH]; intros b Hb; simpl; [exact Hb|].
  apply IH, expand_ordered, Hb.
Qed.

Lemma ordered_not_empty lo hi : ordered (Box lo hi) -> isEmpty (Box lo hi) = false.
Proof.
  intros (Hx & Hy & Hz). unfold isEmpty, ltb.
  apply Qle_bool_iff in Hx, Hy, Hz. rewrite Hx, Hy, Hz. reflexivity.
Qed.

(** The box of the vertices moved by minus its centre has its centre at
    the origin. *)
Lemma recentred_box (ps : list Vector3.t) :
  let t := centerOffset ps in
  Vector3.equiv
    (getCenter
       (setFromBufferAttribute
          (map (Vector3.applyTranslation (Vector3.x t) (Vector3.y t)
                  (Vector3.z t)) ps)))
    Vector3.zero.
Proof.
  intros t.
  pose proof (fold_moved t ps EmptyBox EmptyBox I) as Hm.
  pose proof (fold_ordered ps EmptyBox I) as Ho.
  pose proof (fold_ordered
                (map (Vector3.applyTranslation (Vector3.x t) (Vector3.y t)
                        (Vector3.z t)) ps) EmptyBox I) as Ho'.
  unfold t, centerOffset, setFromBufferAttribute in *.
  destruct (fold_left expandByPoint ps EmptyBox) as [|lo hi];
    destruct (fold_left expandByPoint (map _ ps) EmptyBox) as [|lo' hi'];
    simpl in Hm; try tauto.
  - unfold Vector3.equiv. simpl. repeat split; reflexivity.
  - unfold getCenter in *.
    clear t. pose proof (ordered_not_empty lo hi Ho) as He.
    simpl in He. rewrite He in Hm.
    rewrite (ordered_not_empty lo' hi' Ho').
    destruct Hm as [(Hlx & Hly & Hlz) (Hhx & Hhy & Hhz)].
    unfold Vector3.equiv. simpl in *. repeat split; lra.
Qed.
End Centring.

Lemma boxCenter_center (g : BufferGeometry) :
  Vector3.equiv (boxCenter (center_ g)) Vector3.zero.
Proof.
  unfold boxCenter. cbn [computeBoundingBox boundingBox].
  destruct (position g) as [ps|] eqn:Hps.
  - rewrite (position_center g ps Hps). apply recentred_box.
  - unfold center_. rewrite position_translate.
    cbn [computeBoundingBox position]. rewrite Hps. simpl.
    unfold Vector3.equiv. simpl. repeat split; reflexivity.
Qed.

(** The box that [center()] leaves in [boundingBox] is the box of the
    moved vertices. *)
Lemma boundingBox_center (g : BufferGeometry) :
  boundingBox (center_ g) = boundingBox (computeBoundingBox (center_ g)).
Proof.
  unfold center_, translate.
  destruct g as [[ps|] nrm uvs idx bb [bs|]]; reflexivity.
Qed.

(** C9: after [center()] the centre of the bounding box is the origin, and
    after a second [center()] it is the origin again; the box kept in
    [boundingBox] is that box. *)
Theorem center_idempotent (g : BufferGeometry) :
  Vector3.equiv (boxCenter (center_ g)) Vector3.zero
  /\ Vector3.equiv (boxCenter (center_ (center_ g))) Vector3.zero
  /\ Vector3.equiv (boxCenter (center_ (center_ g))) (boxCenter (center_ g))
  /\ (exists b, boundingBox (center_ g) = Some b
                /\ getCenter b = boxCenter (center_ g))
  /\ (exists b, boundingBox (center_ (center_ g)) = Some b
                /\ getCenter b = boxCenter (center_ (center_ g))).
Proof.
  pose proof (boxCenter_center g) as (H1x & H1y & H1z).
  pose proof (boxCenter_center (center_ g)) as (H2x & H2y & H2z).
  split; [repeat split; assumption|].
  split; [repeat split; assumption|].
  split.
  - simpl in *. repeat split; lra.
  - split.
    + rewrite (boundingBox_center g). unfold boxCenter.
      cbn [computeBoundingBox boundingBox]. eexists. split; reflexivity.
    + rewrite (boundingBox_center (center_ g)). unfold boxCenter.
      cbn [computeBoundingBox boundingBox]. eexists. split; reflexivity.
Qed.

(** ** Validation before the export *)

Lemma validate_missing_geometry (w : World) (mesh : ref) (m : Mesh) :
  meshes (store w) !! mesh = Some m -> geometry m = None ->
  validateModelForExport mesh w = (Throw MissingGeometryError, w).
Proof.
  intros Hm Hg. unfold validateModelForExport, bind, getMesh.
  rewrite Hm, Hg. reflexivity.
Qed.

Lemma validate_empty_mesh (w : World) (mesh g : ref) (m : Mesh)
  (geom : BufferGeometry) :
  meshes (store w) !! mesh = Some m -> geometry m = Some g ->
  geometries (store w) !! g = Some geom -> count geom = 0%nat ->
  validateModelForExport mesh w = (Throw EmptyMeshError, w).
Proof.
  intros Hm Hg Hgeom Hc. unfold validateModelForExport, bind, getMesh, getGeometry.
  rewrite Hm, Hg, Hgeom. unfold count in Hc.
  destruct (position geom) as [ps|]; [|reflexivity].
  rewrite Hc. reflexivity.
Qed.

Lemma validate_untextured (w : World) (mesh g : ref) (m : Mesh)
  (geom : BufferGeometry) :
  meshes (store w) !! mesh = Some m -> geometry m = Some g ->
  geometries (store w) !! g = Some geom -> count geom <> 0%nat ->
  untextured w m ->
  validateModelForExport mesh w = (Throw (Error noTextureMessage), w).
Proof.
  intros Hm Hg Hgeom Hc Hun.
  unfold validateModelForExport, bind, getMesh, getGeometry, getMaterial.
  rewrite Hm, Hg, Hgeom. unfold count in Hc.
  destruct (position geom) as [ps|]; [|congruence].
  destruct ps as [|p ps]; [simpl in Hc; congruence|]. simpl.
  unfold untextured in Hun.
  destruct (material m) as [k|]; [|reflexivity].
  destruct Hun as (mat & Hmat & Hmap). rewrite Hmat, Hmap. reflexivity.
Qed.

(** C7: a mesh that has a geometry and at least one vertex but no texture
    fails the validation with the error about the texture, which is neither
    the error about the geometry nor the one about the vertices; nothing is
    changed. *)
Theorem validate_missing_texture (w : World) (mesh g : ref) (m : Mesh)
  (geom : BufferGeometry) :
  meshes (store w) !! mesh = Some m -> geometry m = Some g ->
  geometries (store w) !! g = Some geom -> count geom <> 0%nat ->
  untextured w m ->
  validateModelForExport mesh w = (Throw MissingTextureError, w)
  /\ MissingTextureError <> MissingGeometryError
  /\ MissingTextureError <> EmptyMeshError.
Proof.
  intros Hm Hg Hgeom Hc Hun. split; [|split; discriminate].
  exact (validate_untextured w mesh g m geom Hm Hg Hgeom Hc Hun).
Qed.

(** In [downloadGLB] the error of the validation ends in an alert with its
    message; nothing is saved and the store is not touched. *)
Lemma downloadGLB_untextured (exporter : Exporter) (w : World)
  (mesh g : ref) (m : Mesh) (geom : BufferGeometry) :
  currentMesh w = Some mesh ->
  meshes (store w) !! mesh = Some m -> geometry m = Some g ->
  geometries (store w) !! g = Some geom -> count geom <> 0%nat ->
  untextured w m ->
  exists w',
    downloadGLB exporter w = (Return tt, w')
    /\ alerts (page w') = noTextureMessage :: alerts (page w)
    /\ saved (page w') = saved (page w)
    /\ store w' = store w
    /\ scene w' = scene w
    /\ currentMesh w' = currentMesh w.
Proof.
  intros Hcur Hm Hg Hgeom Hc Hun.
  pose proof (validate_untextured w mesh g m geom Hm Hg Hgeom Hc Hun)
    as Hval.
  eexists. split.
  { unfold downloadGLB, tryFinally, tryCatch, downloadGLB_body.
    unfold bind at 1. unfold get at 1. cbv beta iota. rewrite Hcur.
    unfold bind at 1. unfold downloadGLB_prepare. unfold bind at 1.
    rewrite Hval. unfold modify. reflexivity. }
  destruct w as [st sc cm inp [li db al sv tm]]. cbn.
  repeat split; reflexivity.
Qed.

Lemma validate_missing_texture_witness :
  validateModelForExport 3 bare = (Throw MissingTextureError, bare)
  /\ MissingTextureError <> MissingGeometryError
  /\ MissingTextureError <> EmptyMeshError.
Proof.
  eapply (validate_missing_texture bare 3 0 (builtMesh 0)).
  - vm_compute. reflexivity.
  - reflexivity.
  - vm_compute. reflexivity.
  - vm_compute. discriminate.
  - unfold untextured. cbn [builtMesh material]. eexists. split.
    + vm_compute. reflexivity.
    + reflexivity.
Defined.

(** ** Preparing the export *)

Lemma optimize_run (w : World) (mesh g : ref) (m : Mesh)
  (geom : BufferGeometry) :
  meshes (store w) !! mesh = Some m -> geometry m = Some g ->
  geometries (store w) !! g = Some geom ->
  optimizeModelForExport mesh w
  = (Return (nextRef (store w)), optimized w m g geom).
Proof.
  intros Hm Hg Hgeom.
  destruct w as [[gs ms ts mh nr dp] sc cm inp pg].
  cbn [store meshes geometries] in Hm, Hgeom.
  unfold optimizeModelForExport, optimized, optimizedGeometry.
  unfold onGeometry, geometryOf, clone, getMesh, getGeometry.
  unfold bind, fresh, modify, ret, throw.
  do 12 (cbn -[center_ computeVertexNormals computeBoundingBox
               computeBoundingSphere];
         rewrite ?lookup_insert_eq, ?Hm, ?Hg, ?Hgeom).
  settle_js. rewrite ?insert_insert_eq. reflexivity.
Qed.

Lemma validate_ok (w : World) (mesh g k t : ref) (m : Mesh)
  (geom : BufferGeometry) (mat : Material) :
  meshes (store w) !! mesh = Some m -> geometry m = Some g ->
  geometries (store w) !! g = Some geom -> count geom <> 0%nat ->
  material m = Some k -> materials (store w) !! k = Some mat ->
  map_ mat = Some t ->
  validateModelForExport mesh w = (Return true, w).
Proof.
  intros Hm Hg Hgeom Hc Hk Hmat Hmap.
  unfold validateModelForExport, bind, getMesh, getGeometry, getMaterial.
  rewrite Hm, Hg, Hgeom. unfold count in Hc.
  destruct (position geom) as [ps|]; [|congruence].
  destruct ps as [|p ps]; [simpl in Hc; congruence|]. simpl.
  rewrite Hk, Hmat, Hmap. reflexivity.
Qed.

Lemma onMesh_run (w : World) (r : ref) (m : Mesh) (f : Mesh -> Mesh) :
  meshes (store w) !! r = Some m ->
  onMesh r f w = (Return tt, withStore (putMesh r (f m)) w).
Proof.
  intros Hm. unfold onMesh, bind, getMesh, modify. rewrite Hm. reflexivity.
Qed.

Lemma exportMetadata_run (w : World) (r g k t : ref) (m : Mesh)
  (geom : BufferGeometry) (ps : list Vector3.t) (mat : Material)
  (tex : Texture) :
  meshes (store w) !! r = Some m -> geometry m = Some g ->
  geometries (store w) !! g = Some geom -> position geom = Some ps ->
  material m = Some k -> materials (store w) !! k = Some mat ->
  map_ mat = Some t -> textures (store w) !! t = Some tex ->
  exists res,
    exportMetadata r w = (Return res, w)
    /\ vertices res = length ps
    /\ faces res = match index geom with
                   | Some idx => (ofNat (length idx) / 3)%Q
                   | None => 0%Q
                   end.
Proof.
  intros Hm Hg Hgeom Hps Hk Hmat Hmap Htex.
  unfold exportMetadata, geometryOf, materialOf, bind, getMesh, getGeometry,
    getMaterial, getTexture, ret, throw.
  rewrite Hm, Hg, Hgeom, Hps, Hm, Hk, Hmat, Hmap, Htex.
  eexists. split; [reflexivity|]. split; reflexivity.
Qed.

Lemma position_optimized (geom : BufferGeometry) (ps : list Vector3.t) :
  position geom = Some ps ->
  exists ps', position (optimizedGeometry geom) = Some ps'
              /\ length ps' = length ps.
Proof.
  intros Hps. unfold optimizedGeometry.
  cbn [computeBoundingSphere computeBoundingBox position].
  unfold computeVertexNormals. rewrite (position_center geom ps Hps).
  cbn [position]. eexists. split; [reflexivity|]. apply length_map.
Qed.

Lemma index_optimized (geom : BufferGeometry) :
  index (optimizedGeometry geom) = index geom.
Proof.
  unfold optimizedGeometry.
  cbn [computeBoundingSphere computeBoundingBox index].
  unfold computeVertexNormals.
  destruct (position (center_ geom)); cbn [index]; apply index_center.
Qed.

Lemma prepare_run (w : World) (mesh g k t : ref) (m : Mesh)
  (geom : BufferGeometry) (ps : list Vector3.t) (mat : Material)
  (tex : Texture) :
  meshes (store w) !! mesh = Some m -> geometry m = Some g ->
  geometries (store w) !! g = Some geom -> position geom = Some ps ->
  ps <> [] ->
  material m = Some k -> materials (store w) !! k = Some mat ->
  map_ mat = Some t -> textures (store w) !! t = Some tex ->
  exists p w',
    downloadGLB_prepare mesh w = (Return p, w')
    /\ meshForExport p = nextRef (store w)
    /\ vertices (metadata (userData (options p))) = length ps
    /\ faces (metadata (userData (options p)))
       = match index geom with
         | Some idx => (ofNat (length idx) / 3)%Q
         | None => 0%Q
         end
    /\ geometries (store w')
       = <[g := optimizedGeometry geom]> (geometries (store w))
    /\ meshes (store w')
       = <[nextRef (store w) := exportMesh m]> (meshes (store w))
    /\ materials (store w') = materials (store w)
    /\ textures (store w') = textures (store w)
    /\ disposed (store w') = disposed (store w)
    /\ scene w' = scene w
    /\ currentMesh w' = currentMesh w
    /\ saved (page w') = saved (page w)
    /\ alerts (page w') = alerts (page w)
    /\ timeouts (page w') = timeouts (page w).
Proof.
  intros Hm Hg Hgeom Hps Hne Hk Hmat Hmap Htex.
  assert (Hc : count geom <> 0%nat).
  { unfold count. rewrite Hps. destruct ps; [congruence|simpl; lia]. }
  destruct (position_optimized geom ps Hps) as (ps' & Hps' & Hlen').
  unfold downloadGLB_prepare.
  unfold bind at 1.
  rewrite (validate_ok w mesh g k t m geom mat) by assumption.
  unfold bind at 1. unfold modify at 1.
  unfold bind at 1. unfold modify at 1.
  unfold bind at 1.
  rewrite (optimize_run _ mesh g m geom) by assumption.
  unfold bind at 1. unfold get at 1.
  unfold bind at 1.
  erewrite onMesh_run
    by (cbn [store optimized meshes withPage]; apply lookup_insert_eq).
  unfold bind at 1.
  edestruct (exportMetadata_run
               (withStore
                  (putMesh (nextRef (store w))
                     (exportMesh
                        {| geometry := geometry m; material := material m;
                           mposition := mposition m; rotation := rotation m |}))
                  (optimized
                     (withPage (setDownloadBtnDisabled true)
                        (withPage
                           (setLoading
                              (true, "Preparando modelo para descarga..."%string))
                           w)) m g geom))
               (nextRef (store w)) g k t) as (res & Hres & Hv & Hf).
  - cbn [withStore store putMesh meshes]. apply lookup_insert_eq.
  - exact Hg.
  - cbn [withStore store putMesh optimized geometries].
    apply lookup_insert_eq.
  - exact Hps'.
  - exact Hk.
  - exact Hmat.
  - exact Hmap.
  - exact Htex.
  - cbn [withPage store nextRef inputs optimized] in *.
    rewrite Hres. unfold ret.
    eexists. eexists. split; [reflexivity|].
    cbn [meshForExport options userData metadata].
    rewrite Hv, Hf, Hlen', index_optimized.
    destruct w as [[gs ms ts mh nr dp] sc cm inp [li db al sv tm]].
    cbn. rewrite insert_insert_eq. repeat split; reflexivity.
Qed.

(** C8: for a mesh with [V] vertices the metadata of the export says
    [vertices = V]; with [T] triangles, that is an index of [3 * T] entries,
    it says [faces = T] (the index count divided by 3), and without an index
    it says [faces = 0]. *)
Theorem export_metadata_counts (w : World) (mesh g k t : ref) (m : Mesh)
  (geom : BufferGeometry) (ps : list Vector3.t) (mat : Material)
  (tex : Texture) (V T : nat) :
  meshes (store w) !! mesh = Some m -> geometry m = Some g ->
  geometries (store w) !! g = Some geom -> position geom = Some ps ->
  material m = Some k -> materials (store w) !! k = Some mat ->
  map_ mat = Some t -> textures (store w) !! t = Some tex ->
  length ps = V -> V <> 0%nat ->
  exists p w',
    downloadGLB_prepare mesh w = (Return p, w')
    /\ vertices (metadata (userData (options p))) = V
    /\ (forall idx, index geom = Some idx -> length idx = (3 * T)%nat ->
          (faces (metadata (userData (options p))) == ofNat T)%Q)
    /\ (forall idx, index geom = Some idx ->
          (faces (metadata (userData (options p)))
           == ofNat (length idx) / 3)%Q)
    /\ (index geom = None ->
          (faces (metadata (userData (options p))) == 0)%Q).
Proof.
  intros Hm Hg Hgeom Hps Hk Hmat Hmap Htex HV HV0.
  assert (Hne : ps <> []) by (intros ->; simpl in HV; congruence).
  destruct (prepare_run w mesh g k t m geom ps mat tex
              Hm Hg Hgeom Hps Hne Hk Hmat Hmap Htex)
    as (p & w' & Hrun & _ & Hv & Hf & _).
  exists p, w'. split; [exact Hrun|]. split; [congruence|].
  rewrite Hf. repeat split.
  - intros idx -> Hlen. rewrite Hlen. unfold ofNat.
    rewrite Nat2Z.inj_mul. rewrite inject_Z_mult. simpl (Z.of_nat 3).
    field.
  - intros idx ->. reflexivity.
  - intros ->. reflexivity.
Qed.

Lemma export_metadata_counts_witness :
  exists p w',
    downloadGLB_prepare 3 (generated checker false) = (Return p, w')
    /\ vertices (metadata (userData (options p))) = 4%nat
    /\ (forall idx, index (builtGeometry checker
                            (inputs (startWorld 100 0 false false)))
                    = Some idx -> length idx = (3 * 2)%nat ->
          (faces (metadata (userData (options p))) == ofNat 2)%Q)
    /\ (forall idx, index (builtGeometry checker
                            (inputs (startWorld 100 0 false false)))
                    = Some idx ->
          (faces (metadata (userData (options p)))
           == ofNat (length idx) / 3)%Q)
    /\ (index (builtGeometry checker (inputs (startWorld 100 0 false false)))
        = None ->
          (faces (metadata (userData (options p))) == 0)%Q).
Proof.
  eapply (export_metadata_counts (generated checker false) 3 0 2 1
            (builtMesh 0)
            (builtGeometry checker (inputs (startWorld 100 0 false false)))
            _
            (builtMaterial (inputs (startWorld 100 0 false false)) 1)
            {| image := Some photo; needsUpdate := true |} 4 2);
    try (vm_compute; reflexivity).
  discriminate.
Defined.

(** ** The clone and the displayed mesh *)

(** The mesh that [optimizeModelForExport] returns is a new mesh with the
    geometry and the material of the mesh it was given: what it does to
    "its" geometry is done to the geometry of the displayed mesh. *)
Lemma optimize_shares (w : World) (mesh g : ref) (m : Mesh)
  (geom : BufferGeometry) :
  meshes (store w) !! mesh = Some m -> geometry m = Some g ->
  geometries (store w) !! g = Some geom ->
  mesh <> nextRef (store w) ->
  exists w',
    optimizeModelForExport mesh w = (Return (nextRef (store w)), w')
    /\ meshes (store w') !! mesh = Some m
    /\ geometryIn w' (nextRef (store w)) = Some (optimizedGeometry geom)
    /\ geometryIn w' mesh = Some (optimizedGeometry geom)
    /\ materials (store w') = materials (store w)
    /\ textures (store w') = textures (store w).
Proof.
  intros Hm Hg Hgeom Hfresh. exists (optimized w m g geom).
  split; [apply optimize_run; assumption|].
  unfold geometryIn, optimized. cbn [store meshes geometries materials textures].
  rewrite lookup_insert_eq, lookup_insert_ne by congruence.
  rewrite Hm. cbn [geometry]. rewrite Hg, lookup_insert_eq.
  repeat split; reflexivity.
Qed.

(** C5 at work: the page shows the mesh of the depth field [[0,1],[1,0]],
    built with autoCenter off.  [optimizeModelForExport] returns mesh 4,
    which has the geometry of the displayed mesh 3, and the heights of the
    displayed mesh change from [100, 0, 0, 100] to [50, -50, -50, 50]; its
    transform, material and texture stay. *)
Theorem optimize_moves_displayed_mesh :
  let w := generated checker false in
  let w' := snd (optimizeModelForExport 3 w) in
  currentMesh w = Some 3%nat
  /\ fst (optimizeModelForExport 3 w) = Return 4%nat
  /\ (geometry <$> (meshes (store w') !! 4%nat)) = Some (Some 0%nat)
  /\ (geometry <$> (meshes (store w') !! 3%nat)) = Some (Some 0%nat)
  /\ Forall2 Qeq (heights w 0%nat) [100; 0; 0; 100]%Q
  /\ Forall2 Qeq (heights w' 0%nat) [50; -50; -50; 50]%Q
  /\ ~ Forall2 Qeq (heights w' 0%nat) (heights w 0%nat)
  /\ meshes (store w') !! 3%nat = meshes (store w) !! 3%nat
  /\ materials (store w') = materials (store w)
  /\ textures (store w') = textures (store w).
Proof.
  vm_compute. repeat split; try reflexivity.
  - repeat constructor.
  - repeat constructor.
  - intros H. inversion H as [|? ? ? ? Hz _]. discriminate Hz.
Qed.

(** ** A failing export *)

(** When the exporter calls back with an error, no file is saved, the
    message of the error is shown (a fixed text when it is empty), no
    cleanup is scheduled, the button is enabled again, and the scene and the
    current mesh are the ones from before.  The geometry of the current mesh
    is the recentred one. *)
Lemma downloadGLB_failed (exporter : Exporter) (e : JsError) (w : World)
  (mesh g k t : ref) (m : Mesh) (geom : BufferGeometry)
  (ps : list Vector3.t) (mat : Material) (tex : Texture) :
  currentMesh w = Some mesh ->
  meshes (store w) !! mesh = Some m -> geometry m = Some g ->
  geometries (store w) !! g = Some geom -> position geom = Some ps ->
  ps <> [] ->
  material m = Some k -> materials (store w) !! k = Some mat ->
  map_ mat = Some t -> textures (store w) !! t = Some tex ->
  (forall w1 children opts, exporter w1 children opts = Failed e) ->
  exists w',
    downloadGLB exporter w = (Return tt, w')
    /\ saved (page w') = saved (page w)
    /\ alerts (page w')
       = orElse (message e) exportFailedMessage :: alerts (page w)
    /\ timeouts (page w') = timeouts (page w)
    /\ downloadBtnDisabled (page w') = false
    /\ scene w' = scene w
    /\ currentMesh w' = currentMesh w
    /\ disposed (store w') = disposed (store w)
    /\ geometries (store w')
       = <[g := optimizedGeometry geom]> (geometries (store w)).
Proof.
  intros Hcur Hm Hg Hgeom Hps Hne Hk Hmat Hmap Htex Hfail.
  destruct (prepare_run w mesh g k t m geom ps mat tex
              Hm Hg Hgeom Hps Hne Hk Hmat Hmap Htex)
    as (p & w1 & Hrun & _ & _ & _ & Hgs & _ & _ & _ & Hdp & Hsc & Hcm
        & Hsv & Hal & Htm).
  eexists. split.
  { unfold downloadGLB, tryFinally, tryCatch, downloadGLB_body.
    unfold bind at 1. unfold get at 1. cbv beta iota. rewrite Hcur.
    unfold bind at 1. rewrite Hrun.
    unfold bind at 1. unfold modify at 1.
    unfold bind at 1. unfold get at 1. cbv beta iota.
    rewrite Hfail. unfold throw, modify. reflexivity. }
  cbn [withPage page store scene currentMesh pushAlert setLoading
       setDownloadBtnDisabled saved alerts timeouts downloadBtnDisabled].
  rewrite Hsv, Hal, Htm, Hsc, Hcm, Hdp, Hgs. repeat split; reflexivity.
Qed.

(** C6 at work: the page shows the mesh of the depth field [[0,1],[1,0]],
    built with autoCenter off, and the exporter fails with the message
    "boom".  No file is saved and the message is shown; the mesh is still
    the current one and in the scene, but its heights have changed from
    [100, 0, 0, 100] to [50, -50, -50, 50]. *)
Theorem failed_export_moves_displayed_mesh :
  let w := generated checker false in
  let w' := snd (downloadGLB (failingExporter "boom") w) in
  saved (page w') = []
  /\ alerts (page w') = ["boom"%string]
  /\ timeouts (page w') = []
  /\ scene w' = scene w
  /\ currentMesh w' = currentMesh w
  /\ meshes (store w') !! 3%nat = meshes (store w) !! 3%nat
  /\ Forall2 Qeq (heights w 0%nat) [100; 0; 0; 100]%Q
  /\ Forall2 Qeq (heights w' 0%nat) [50; -50; -50; 50]%Q
  /\ ~ Forall2 Qeq (heights w' 0%nat) (heights w 0%nat).
Proof.
  vm_compute. repeat split; try reflexivity.
  - repeat constructor.
  - repeat constructor.
  - intros H. inversion H as [|? ? ? ? Hz _]. discriminate Hz.
Qed.

(** ** Replacing the displayed mesh *)

Lemma disposeGeometry_run (w : World) (r g : ref) (m : Mesh) :
  meshes (store w) !! r = Some m -> geometry m = Some g ->
  disposeGeometry r w
  = (Return tt, withStore (logDispose (GeometryBuffers g)) w).
Proof.
  intros Hm Hg. unfold disposeGeometry, geometryOf, bind, getMesh, modify, ret.
  rewrite Hm, Hg. reflexivity.
Qed.

Lemma disposeMaterial_run (w : World) (r k : ref) (m : Mesh) :
  meshes (store w) !! r = Some m -> material m = Some k ->
  disposeMaterial r w
  = (Return tt, withStore (logDispose (MaterialProgram k)) w).
Proof.
  intros Hm Hk. unfold disposeMaterial, materialOf, bind, getMesh, modify, ret.
  rewrite Hm, Hk. reflexivity.
Qed.

(** Replacing the current mesh dispatches two dispose events, for the
    geometry and for the material of the old mesh, and none for a texture. *)
Lemma generate_replaces (t : DepthTensor) (img : Image) (w : World)
  (current g k : ref) (m : Mesh) :
  wf_tensor t ->
  currentMesh w = Some current ->
  meshes (store w) !! current = Some m ->
  geometry m = Some g -> material m = Some k ->
  exists w',
    generate (Some t) img w = (Return tt, w')
    /\ disposed (store w')
       = MaterialProgram k :: GeometryBuffers g :: disposed (store w)
    /\ currentMesh w' = Some (3 + nextRef (store w))%nat
    /\ scene w'
       = filter (fun r => r <> current) (scene w) ++ [(3 + nextRef (store w))%nat]
    /\ textures (store w')
       = <[(1 + nextRef (store w))%nat :=
             {| image := Some img; needsUpdate := true |}]>
           (textures (store w)).
Proof.
  intros Hwf Hcur Hm Hg Hk.
  eexists. split.
  { unfold generate.
    unfold bind at 1. unfold get at 1. cbv beta iota. rewrite Hcur.
    unfold bind at 1. unfold bind at 1. unfold sceneRemove, modify at 1.
    unfold bind at 1.
    erewrite disposeGeometry_run by (cbn [withScene store]; eassumption).
    erewrite disposeMaterial_run
      by (cbn [withScene withStore store logDispose meshes]; eassumption).
    unfold bind at 1. rewrite createMesh_run by assumption.
    unfold bind at 1. unfold modify at 1. unfold sceneAdd, modify.
    reflexivity. }
  destruct w as [[gs ms ts mh nr dp] sc cm inp pg].
  cbn. repeat split; reflexivity.
Qed.

(** C10 at work: the page shows mesh 3, with geometry 0, material 2 and
    texture 1.  After a second click on generate the page shows mesh 7, and
    the dispose events are those of geometry 0 and material 2: texture 1 was
    not released, and is still the [map] of material 2.  The same holds when
    a slider replaces the mesh. *)
Theorem replaced_mesh_keeps_texture :
  let w := generated checker false in
  let w' := snd (generate (Some checker) photo w) in
  let w'' := snd (updateMeshGeometry true (Some checker) photo w) in
  currentMesh w = Some 3%nat
  /\ meshes (store w) !! 3%nat
     = Some {| geometry := Some 0%nat; material := Some 2%nat;
               mposition := Vector3.zero;
               rotation := {| ex := - (1 / 2); ey := 0; ez := 0 |} |}
  /\ (map_ <$> (materials (store w) !! 2%nat)) = Some (Some 1%nat)
  /\ disposed (store w) = []
  /\ currentMesh w' = Some 7%nat
  /\ scene w' = [7%nat]
  /\ disposed (store w') = [MaterialProgram 2; GeometryBuffers 0]
  /\ (TextureData 1 ∉ disposed (store w'))
  /\ currentMesh w'' = Some 7%nat
  /\ scene w'' = [7%nat]
  /\ disposed (store w'') = [MaterialProgram 2; GeometryBuffers 0]
  /\ (TextureData 1 ∉ disposed (store w'')).
Proof.
  vm_compute. repeat split; try reflexivity.
  all: intros H; repeat (apply elem_of_cons in H as [H|H]; [discriminate H|]);
    apply elem_of_nil in H; exact H.
Qed.

(** * Further properties *)

(** ** The validation, in full *)

Lemma validate_snd (w : World) (mesh : ref) :
  snd (validateModelForExport mesh w) = w.
Proof.
  unfold validateModelForExport, bind, getMesh, getGeometry, getMaterial,
    ret, throw.
  destruct (meshes (store w) !! mesh) as [m|]; [|reflexivity].
  destruct (geometry m) as [g|]; [|reflexivity].
  destruct (geometries (store w) !! g) as [geom|]; [|reflexivity].
  destruct (position geom) as [[|p ps]|]; try reflexivity. simpl.
  destruct (material m) as [k|]; [|reflexivity].
  destruct (materials (store w) !! k) as [mat|]; [|reflexivity].
  destruct (map_ mat); reflexivity.
Qed.

(** X1.  The validation answers [true] or throws one of its three errors (or the
    error of reading through a reference to nothing), and it never changes
    the page. *)
Theorem validate_outcomes (w : World) (mesh : ref) :
  snd (validateModelForExport mesh w) = w
  /\ (fst (validateModelForExport mesh w) = Return true
      \/ fst (validateModelForExport mesh w) = Throw MissingGeometryError
      \/ fst (validateModelForExport mesh w) = Throw EmptyMeshError
      \/ fst (validateModelForExport mesh w) = Throw MissingTextureError
      \/ fst (validateModelForExport mesh w) = Throw undefinedRead).
Proof.
  split; [apply validate_snd|].
  unfold validateModelForExport, bind, getMesh, getGeometry, getMaterial,
    ret, throw.
  destruct (meshes (store w) !! mesh) as [m|]; [|simpl; tauto].
  destruct (geometry m) as [g|]; [|simpl; tauto].
  destruct (geometries (store w) !! g) as [geom|]; [|simpl; tauto].
  destruct (position geom) as [[|p ps]|]; try (simpl; tauto). simpl.
  destruct (material m) as [k|]; [|simpl; tauto].
  destruct (materials (store w) !! k) as [mat|]; [|simpl; tauto].
  destruct (map_ mat); simpl; tauto.
Qed.

(** X2.  The validation passes exactly for a mesh with a geometry, at least one
    vertex, and a material with a texture. *)
Theorem validate_passes_iff (w : World) (mesh : ref) :
  fst (validateModelForExport mesh w) = Return true <-> exportable w mesh.
Proof.
  split.
  - unfold validateModelForExport, bind, getMesh, getGeometry, getMaterial,
      ret, throw, exportable.
    destruct (meshes (store w) !! mesh) as [m|] eqn:Hm; [|discriminate].
    destruct (geometry m) as [g|] eqn:Hg; [|discriminate].
    destruct (geometries (store w) !! g) as [geom|] eqn:Hgeom; [|discriminate].
    destruct (position geom) as [[|p ps]|] eqn:Hps; try discriminate. simpl.
    destruct (material m) as [k|] eqn:Hk; [|discriminate].
    destruct (materials (store w) !! k) as [mat|] eqn:Hmat; [|discriminate].
    destruct (map_ mat) as [t|] eqn:Hmap; [|discriminate].
    intros _. exists m, g, geom, k, mat, t.
    repeat split; try assumption. unfold count. rewrite Hps. discriminate.
  - intros (m & g & geom & k & mat & t & Hm & Hg & Hgeom & Hc & Hk & Hmat & Hmap).
    rewrite (validate_ok w mesh g k t m geom mat) by assumption. reflexivity.
Qed.

(** A mesh without geometry is turned down for its geometry, and a mesh
    whose geometry has no vertex for its vertices, whatever the material. *)
Theorem validate_precedence (w : World) (mesh : ref) (m : Mesh) :
  meshes (store w) !! mesh = Some m ->
  (geometry m = None ->
   fst (validateModelForExport mesh w) = Throw MissingGeometryError)
  /\ (forall g geom,
        geometry m = Some g -> geometries (store w) !! g = Some geom ->
        count geom = 0%nat ->
        fst (validateModelForExport mesh w) = Throw EmptyMeshError).
Proof.
  intros Hm. split.
  - intros Hg. rewrite (validate_missing_geometry w mesh m Hm Hg). reflexivity.
  - intros g geom Hg Hgeom Hc.
    rewrite (validate_empty_mesh w mesh g m geom Hm Hg Hgeom Hc). reflexivity.
Qed.

(** ** What a computation leaves alone *)

Section Frame.
Context (R : World -> World -> Prop) `{!PreOrder R}.

Lemma keeps_ret {A} (a : A) : keeps R (ret a).
Proof. intros w. simpl. reflexivity. Qed.

Lemma keeps_throw {A} (e : JsError) : keeps R (@throw A e).
Proof. intros w. simpl. reflexivity. Qed.

Lemma keeps_get : keeps R get.
Proof. intros w. simpl. reflexivity. Qed.

Lemma keeps_modify (f : World -> World) :
  (forall w, R w (f w)) -> keeps R (modify f).
Proof. intros Hf w. simpl. apply Hf. Qed.

Lemma keeps_read {A} (m : M A) :
  (forall w, snd (m w) = w) -> keeps R m.
Proof. intros Hm w. rewrite Hm. reflexivity. Qed.

Lemma keeps_bind {A B} (m : M A) (k : A -> M B) :
  keeps R m -> (forall a, keeps R (k a)) -> keeps R (bind m k).
Proof.
  intros Hm Hk w. unfold bind. specialize (Hm w).
  destruct (m w) as [[a|e] w1]; simpl in *.
  - etransitivity; [exact Hm|]. apply Hk.
  - exact Hm.
Qed.

Lemma keeps_tryCatch {A} (body : M A) (handler : JsError -> M A) :
  keeps R body -> (forall e, keeps R (handler e)) ->
  keeps R (tryCatch body handler).
Proof.
  intros Hb Hh w. unfold tryCatch. specialize (Hb w).
  destruct (body w) as [[a|e] w1]; simpl in *.
  - exact Hb.
  - etransitivity; [exact Hb|]. apply Hh.
Qed.

Lemma keeps_tryFinally {A} (body : M A) (fin : World -> World) :
  keeps R body -> (forall w, R w (fin w)) -> keeps R (tryFinally body fin).
Proof.
  intros Hb Hf w. unfold tryFinally. specialize (Hb w).
  destruct (body w) as [r w1]; simpl in *.
  etransitivity; [exact Hb|]. apply Hf.
Qed.
End Frame.

#[global] Instance untouched_preorder : PreOrder untouched.
Proof.
  split.
  - intros w. unfold untouched. repeat split; reflexivity.
  - intros w1 w2 w3 (H1 & H2 & H3 & H4 & H5 & H6) (K1 & K2 & K3 & K4 & K5 & K6).
    unfold untouched. repeat split; congruence.
Qed.

Lemma getMesh_reads r w : snd (getMesh r w) = w.
Proof. unfold getMesh. destruct (meshes (store w) !! r); reflexivity. Qed.

Lemma getGeometry_reads r w : snd (getGeometry r w) = w.
Proof. unfold getGeometry. destruct (geometries (store w) !! r); reflexivity. Qed.

Lemma getMaterial_reads r w : snd (getMaterial r w) = w.
Proof. unfold getMaterial. destruct (materials (store w) !! r); reflexivity. Qed.

Lemma getTexture_reads r w : snd (getTexture r w) = w.
Proof. unfold getTexture. destruct (textures (store w) !! r); reflexivity. Qed.

Lemma untouched_withPage f w : untouched w (withPage f w).
Proof. unfold untouched. repeat split; reflexivity. Qed.

Lemma untouched_putGeometry g geom w :
  untouched w (withStore (putGeometry g geom) w).
Proof. unfold untouched. repeat split; reflexivity. Qed.

Lemma untouched_putMesh r m w : untouched w (withStore (putMesh r m) w).
Proof. unfold untouched. repeat split; reflexivity. Qed.

Lemma untouched_bump w : untouched w (withStore bump w).
Proof. unfold untouched. repeat split; reflexivity. Qed.

(** One step of a frame proof: through binds, reads, the updates above and
    case distinctions. *)
Ltac frame_step :=
  first
    [ apply (keeps_bind untouched)
    | apply (keeps_ret untouched)
    | apply (keeps_throw untouched)
    | apply (keeps_get untouched)
    | apply (keeps_read untouched); first [ apply getMesh_reads | apply getGeometry_reads
                              | apply getMaterial_reads | apply getTexture_reads ]
    | apply (keeps_modify untouched); intros ?;
      first [ apply untouched_withPage | apply untouched_putGeometry
            | apply untouched_putMesh | apply untouched_bump ]
    | match goal with
      | |- forall _, _ => intro
      | |- keeps _ (match ?x with _ => _ end) => destruct x
      end ].

Ltac frame := repeat frame_step.

Lemma geometryOf_untouched mesh : keeps untouched (geometryOf mesh).
Proof. unfold geometryOf. frame. Qed.

Lemma materialOf_untouched mesh : keeps untouched (materialOf mesh).
Proof. unfold materialOf. frame. Qed.

Lemma onGeometry_untouched mesh f : keeps untouched (onGeometry mesh f).
Proof. unfold onGeometry. pose proof geometryOf_untouched. frame; auto. Qed.

Lemma onMesh_untouched mesh f : keeps untouched (onMesh mesh f).
Proof. unfold onMesh. frame. Qed.

Lemma clone_untouched mesh : keeps untouched (clone mesh).
Proof.
  unfold clone. frame.
Qed.

Lemma validate_untouched mesh : keeps untouched (validateModelForExport mesh).
Proof.
  apply (keeps_read untouched). intros w. apply validate_snd.
Qed.

Lemma optimize_untouched mesh : keeps untouched (optimizeModelForExport mesh).
Proof.
  unfold optimizeModelForExport.
  pose proof clone_untouched. pose proof onGeometry_untouched.
  frame; auto.
Qed.

Lemma exportMetadata_untouched mesh : keeps untouched (exportMetadata mesh).
Proof.
  unfold exportMetadata.
  pose proof geometryOf_untouched. pose proof materialOf_untouched.
  frame; auto.
Qed.

Lemma prepare_untouched mesh : keeps untouched (downloadGLB_prepare mesh).
Proof.
  unfold downloadGLB_prepare.
  pose proof validate_untouched. pose proof optimize_untouched.
  pose proof onMesh_untouched. pose proof exportMetadata_untouched.
  frame; auto.
Qed.

Lemma downloadGLB_frame (exporter : Exporter) :
  keeps untouched (downloadGLB exporter).
Proof.
  unfold downloadGLB.
  apply (keeps_tryFinally untouched);
    [|intros w; etransitivity; apply untouched_withPage].
  apply (keeps_tryCatch untouched);
    [|intros e; apply (keeps_modify untouched); intros w;
      apply untouched_withPage].
  unfold downloadGLB_body. pose proof prepare_untouched.
  frame; auto.
Qed.

(** X3.  An export, however it ends, leaves the scene, the current mesh, the
    controls, the materials, the textures and the dispose events as they
    were. *)
Theorem downloadGLB_untouched (exporter : Exporter) (w : World) :
  let w' := snd (downloadGLB exporter w) in
  scene w' = scene w
  /\ currentMesh w' = currentMesh w
  /\ inputs w' = inputs w
  /\ materials (store w') = materials (store w)
  /\ textures (store w') = textures (store w)
  /\ disposed (store w') = disposed (store w).
Proof.
  intros w'. destruct (downloadGLB_frame exporter w) as (H1 & H2 & H3 & H4 & H5 & H6).
  repeat split; assumption.
Qed.


(** ** Names of the downloaded file *)

Lemma countChar_app (c : ascii) (a b : string) :
  countChar c (a +:+ b) = (countChar c a + countChar c b)%nat.
Proof.
  induction a as [|d a IH]; simpl; [reflexivity|]. rewrite IH. lia.
Qed.

Lemma dashes_no_dot (s : string) : countChar "." (dashes s) = 0%nat.
Proof.
  induction s as [|c s IH]; simpl; [reflexivity|]. rewrite IH.
  destruct (Ascii.eqb c ":") eqn:E1; [|destruct (Ascii.eqb c ".") eqn:E2];
    simpl; rewrite ?E2; reflexivity.
Qed.

Lemma beforeDot_no_dot (s : string) : countChar "." (beforeDot s) = 0%nat.
Proof.
  induction s as [|c s IH]; simpl; [reflexivity|].
  destruct (Ascii.eqb c ".") eqn:E; simpl; rewrite ?E, ?IH; reflexivity.
Qed.

(** X5.  The timestamp of the file name has neither colon nor dot, is as long as
    the date string, and cleaning it again changes nothing. *)
Theorem dashes_clean (s : string) :
  countChar ":" (dashes s) = 0%nat
  /\ countChar "." (dashes s) = 0%nat
  /\ String.length (dashes s) = String.length s
  /\ dashes (dashes s) = dashes s.
Proof.
  induction s as [|c s (IH1 & IH2 & IH3 & IH4)]; simpl.
  - repeat split; reflexivity.
  - rewrite IH1, IH2, IH3.
    destruct (Ascii.eqb c ":") eqn:E1; [|destruct (Ascii.eqb c ".") eqn:E2];
      simpl; rewrite ?IH4, ?E1, ?E2; repeat split; reflexivity.
Qed.

(** X6.  The base name is the part of the file name before its first dot: it has
    no dot, what follows it is empty or starts with a dot, and a name
    without dot is its own base name. *)
Theorem beforeDot_prefix (s : string) :
  countChar "." (beforeDot s) = 0%nat
  /\ (exists rest, s = beforeDot s +:+ rest
                   /\ (rest = EmptyString \/ exists r, rest = String "." r))
  /\ (countChar "." s = 0%nat -> beforeDot s = s).
Proof.
  induction s as [|c s (IH1 & (rest & IH2 & IH3) & IH4)]; simpl.
  - split; [reflexivity|]. split; [|reflexivity].
    exists EmptyString. split; [reflexivity|]. left. reflexivity.
  - destruct (Ascii.eqb c ".") eqn:E; simpl.
    + apply Ascii.eqb_eq in E. subst c. split; [reflexivity|]. split.
      * exists (String "." s). split; [reflexivity|]. right. eexists. reflexivity.
      * discriminate.
    + rewrite E, IH1. split; [reflexivity|]. split.
      * exists rest. split; [|exact IH3].
        change (String c s = String c (beforeDot s +:+ rest)).
        f_equal. exact IH2.
      * simpl. intros H0. rewrite IH4 by exact H0. reflexivity.
Qed.

(** What [downloadGLB_prepare] hands over when it returns: the file name,
    the export scene and the fixed export options. *)
Lemma prepare_names (current : ref) (w w' : World) (p : Prepared) :
  downloadGLB_prepare current w = (Return p, w') ->
  let originalFileName :=
    orElse (default EmptyString (uploadFile (inputs w))) "image" in
  fileName p
  = beforeDot originalFileName +:+ "_3d_" +:+ dashes (now (inputs w))
      +:+ ".glb"
  /\ exportScene p
     = [ MeshChild (meshForExport p);
         AmbientLight 16777215 (7 / 10);
         DirectionalLight 16777215 (8 / 10) (Vector3.mk 5 10 (75 / 10)) ]
  /\ binary (options p) = true
  /\ embedImages (options p) = true
  /\ onlyVisible (options p) = true
  /\ maxTextureSize (options p) = 4096%nat
  /\ originalImage (userData (options p)) = originalFileName
  /\ createdAt (userData (options p)) = dashes (now (inputs w)).
Proof.
  intros H. unfold downloadGLB_prepare in H.
  unfold bind at 1 in H.
  pose proof (validate_snd w current) as Hv.
  destruct (validateModelForExport current w) as [[b|e] w1];
    [|discriminate]. simpl in Hv. subst w1.
  unfold bind at 1 in H. unfold modify at 1 in H.
  unfold bind at 1 in H. unfold modify at 1 in H.
  unfold bind at 1 in H.
  match type of H with
  | context [optimizeModelForExport current ?w0] =>
      pose proof (optimize_untouched current w0) as (_ & _ & Hin & _);
      destruct (optimizeModelForExport current w0) as [[r|e] w2];
      [|discriminate]
  end.
  simpl in Hin.
  unfold bind at 1 in H. unfold get at 1 in H. cbv beta iota in H.
  unfold bind at 1 in H.
  destruct (onMesh r exportMesh w2) as [[[]|e] w3]; [|discriminate].
  unfold bind at 1 in H.
  destruct (exportMetadata r w3) as [[meta|e] w4]; [|discriminate].
  unfold ret in H. injection H as <- <-. rewrite Hin.
  cbn. repeat split; reflexivity.
Qed.

(** ** The ways an export ends *)

(** X7.  Without a current mesh the export shows one alert and touches nothing
    else. *)
Theorem downloadGLB_without_mesh (exporter : Exporter) (w : World) :
  currentMesh w = None ->
  exists w',
    downloadGLB exporter w = (Return tt, w')
    /\ alerts (page w') = noModelMessage :: alerts (page w)
    /\ saved (page w') = saved (page w)
    /\ timeouts (page w') = timeouts (page w)
    /\ store w' = store w
    /\ scene w' = scene w.
Proof.
  intros Hcur. eexists. split.
  { unfold downloadGLB, tryFinally, tryCatch, downloadGLB_body.
    unfold bind at 1. unfold get at 1. cbv beta iota. rewrite Hcur.
    unfold throw, modify. reflexivity. }
  destruct w as [st sc cm inp [li db al sv tm]]. cbn.
  repeat split; reflexivity.
Qed.

Lemma downloadGLB_without_mesh_witness :
  exists w',
    downloadGLB (failingExporter "x") (startWorld 100 0 false false)
    = (Return tt, w')
    /\ alerts (page w')
       = noModelMessage :: alerts (page (startWorld 100 0 false false))
    /\ saved (page w') = saved (page (startWorld 100 0 false false))
    /\ timeouts (page w') = timeouts (page (startWorld 100 0 false false))
    /\ store w' = store (startWorld 100 0 false false)
    /\ scene w' = scene (startWorld 100 0 false false).
Proof.
  apply (downloadGLB_without_mesh (failingExporter "x")
           (startWorld 100 0 false false)).
  reflexivity.
Defined.

Lemma downloadGLB_done (exporter : Exporter) (result : list Byte.byte)
  (w : World) (mesh g k t : ref) (m : Mesh) (geom : BufferGeometry)
  (ps : list Vector3.t) (mat : Material) (tex : Texture) :
  currentMesh w = Some mesh ->
  meshes (store w) !! mesh = Some m -> geometry m = Some g ->
  geometries (store w) !! g = Some geom -> position geom = Some ps ->
  ps <> [] ->
  material m = Some k -> materials (store w) !! k = Some mat ->
  map_ mat = Some t -> textures (store w) !! t = Some tex ->
  (forall w1 children opts, exporter w1 children opts = Done result) ->
  exists w' name,
    downloadGLB exporter w = (Return tt, w')
    /\ saved (page w') = (name, result) :: saved (page w)
    /\ name
       = beforeDot (orElse (default EmptyString (uploadFile (inputs w)))
                      "image")
           +:+ "_3d_" +:+ dashes (now (inputs w)) +:+ ".glb"
    /\ alerts (page w') = alerts (page w)
    /\ timeouts (page w')
       = {| c_mesh := nextRef (store w) |} :: timeouts (page w)
    /\ meshes (store w')
       = <[nextRef (store w) := exportMesh m]> (meshes (store w))
    /\ disposed (store w') = disposed (store w).
Proof.
  intros Hcur Hm Hg Hgeom Hps Hne Hk Hmat Hmap Htex Hdone.
  destruct (prepare_run w mesh g k t m geom ps mat tex
              Hm Hg Hgeom Hps Hne Hk Hmat Hmap Htex)
    as (p & w1 & Hrun & Hmesh & _ & _ & _ & Hms & _ & _ & Hdp & _ & _
        & Hsv & Hal & Htm).
  destruct (prepare_names mesh w w1 p Hrun) as (Hname & _).
  eexists. exists (fileName p). split.
  { unfold downloadGLB, tryFinally, tryCatch, downloadGLB_body.
    unfold bind at 1. unfold get at 1. cbv beta iota. rewrite Hcur.
    unfold bind at 1. rewrite Hrun.
    unfold bind at 1. unfold modify at 1.
    unfold bind at 1. unfold get at 1. cbv beta iota.
    rewrite Hdone. unfold bind, modify. reflexivity. }
  cbn [withPage page store pushSaved pushTimeout setLoading
       setDownloadBtnDisabled saved alerts timeouts].
  rewrite Hsv, Hal, Htm, Hms, Hdp, Hmesh. repeat split; try reflexivity.
  exact Hname.
Qed.

(** X8.  When the exporter answers with a file, the export saves exactly that
    file, under the name [base_3d_timestamp.glb], whose only dot is the one
    of the extension; it shows no alert and schedules one cleanup, for the
    clone. *)
Theorem downloadGLB_saves (exporter : Exporter) (result : list Byte.byte)
  (w : World) (mesh g k t : ref) (m : Mesh) (geom : BufferGeometry)
  (ps : list Vector3.t) (mat : Material) (tex : Texture) :
  currentMesh w = Some mesh ->
  meshes (store w) !! mesh = Some m -> geometry m = Some g ->
  geometries (store w) !! g = Some geom -> position geom = Some ps ->
  ps <> [] ->
  material m = Some k -> materials (store w) !! k = Some mat ->
  map_ mat = Some t -> textures (store w) !! t = Some tex ->
  (forall w1 children opts, exporter w1 children opts = Done result) ->
  exists w' name,
    downloadGLB exporter w = (Return tt, w')
    /\ saved (page w') = (name, result) :: saved (page w)
    /\ name
       = beforeDot (orElse (default EmptyString (uploadFile (inputs w)))
                      "image")
           +:+ "_3d_" +:+ dashes (now (inputs w)) +:+ ".glb"
    /\ countChar "." name = 1%nat
    /\ alerts (page w') = alerts (page w)
    /\ timeouts (page w')
       = {| c_mesh := nextRef (store w) |} :: timeouts (page w).
Proof.
  intros Hcur Hm Hg Hgeom Hps Hne Hk Hmat Hmap Htex Hdone.
  destruct (downloadGLB_done exporter result w mesh g k t m geom ps mat tex
              Hcur Hm Hg Hgeom Hps Hne Hk Hmat Hmap Htex Hdone)
    as (w' & name & Hrun & Hsv & Hname & Hal & Htm & _).
  exists w', name. repeat split; try assumption.
  rewrite Hname, !countChar_app.
  rewrite beforeDot_no_dot, dashes_no_dot. reflexivity.
Qed.

Lemma downloadGLB_saves_witness :
  exists w' name,
    downloadGLB (answeringExporter [Byte.x01]) (generated checker false)
    = (Return tt, w')
    /\ saved (page w')
       = (name, [Byte.x01]) :: saved (page (generated checker false))
    /\ name
       = beforeDot (orElse (default EmptyString
                              (uploadFile (inputs (generated checker false))))
                      "image")
           +:+ "_3d_" +:+ dashes (now (inputs (generated checker false)))
           +:+ ".glb"
    /\ countChar "." name = 1%nat
    /\ alerts (page w') = alerts (page (generated checker false))
    /\ timeouts (page w')
       = {| c_mesh := nextRef (store (generated checker false)) |}
         :: timeouts (page (generated checker false)).
Proof.
  eapply (downloadGLB_saves (answeringExporter [Byte.x01]) [Byte.x01]
            (generated checker false) 3 0 2 1 (builtMesh 0)
            (builtGeometry checker (inputs (startWorld 100 0 false false)))
            _
            (builtMaterial (inputs (startWorld 100 0 false false)) 1)
            {| image := Some photo; needsUpdate := true |});
    try (vm_compute; reflexivity).
  discriminate.
Defined.

(** X9.  The cleanup that a successful export schedules dispatches two dispose
    events, for the geometry and the material of the clone; these are the
    geometry and the material that the displayed mesh goes on using. *)
Theorem cleanup_disposes_shared (exporter : Exporter)
  (result : list Byte.byte) (w : World) (mesh g k t : ref) (m : Mesh)
  (geom : BufferGeometry) (ps : list Vector3.t) (mat : Material)
  (tex : Texture) :
  currentMesh w = Some mesh ->
  meshes (store w) !! mesh = Some m -> geometry m = Some g ->
  geometries (store w) !! g = Some geom -> position geom = Some ps ->
  ps <> [] ->
  material m = Some k -> materials (store w) !! k = Some mat ->
  map_ mat = Some t -> textures (store w) !! t = Some tex ->
  mesh <> nextRef (store w) ->
  (forall w1 children opts, exporter w1 children opts = Done result) ->
  exists w' c w'',
    downloadGLB exporter w = (Return tt, w')
    /\ timeouts (page w') = c :: timeouts (page w)
    /\ exportCleanup c w' = (Return tt, w'')
    /\ disposed (store w'')
       = MaterialProgram k :: GeometryBuffers g :: disposed (store w)
    /\ currentMesh w'' = Some mesh
    /\ meshes (store w'') !! mesh = Some m.
Proof.
  intros Hcur Hm Hg Hgeom Hps Hne Hk Hmat Hmap Htex Hfresh Hdone.
  destruct (downloadGLB_done exporter result w mesh g k t m geom ps mat tex
              Hcur Hm Hg Hgeom Hps Hne Hk Hmat Hmap Htex Hdone)
    as (w' & name & Hrun & _ & _ & _ & Htm & Hms & Hdp).
  pose proof (downloadGLB_frame exporter w) as (_ & Hcm & _).
  rewrite Hrun in Hcm. simpl in Hcm.
  assert (Hclone : meshes (store w') !! nextRef (store w) = Some (exportMesh m))
    by (rewrite Hms; apply lookup_insert_eq).
  exists w', {| c_mesh := nextRef (store w) |}.
  eexists. split; [exact Hrun|]. split; [exact Htm|].
  split.
  { unfold exportCleanup. cbn [c_mesh]. unfold bind.
    rewrite (disposeGeometry_run w' _ g (exportMesh m) Hclone Hg).
    rewrite (disposeMaterial_run _ _ k (exportMesh m)); [reflexivity| |exact Hk].
    exact Hclone. }
  cbn [withStore store logDispose disposed currentMesh meshes].
  rewrite Hdp, Hcm, Hms, lookup_insert_ne by congruence.
  repeat split; assumption.
Qed.

Lemma cleanup_disposes_shared_witness :
  exists w' c w'',
    downloadGLB (answeringExporter [Byte.x01]) (generated checker false)
    = (Return tt, w')
    /\ timeouts (page w') = c :: timeouts (page (generated checker false))
    /\ exportCleanup c w' = (Return tt, w'')
    /\ disposed (store w'')
       = MaterialProgram 2 :: GeometryBuffers 0
         :: disposed (store (generated checker false))
    /\ currentMesh w'' = Some 3%nat
    /\ meshes (store w'') !! 3%nat = Some (builtMesh 0).
Proof.
  eapply (cleanup_disposes_shared (answeringExporter [Byte.x01]) [Byte.x01]
            (generated checker false) 3 0 2 1 (builtMesh 0)
            (builtGeometry checker (inputs (startWorld 100 0 false false)))
            _
            (builtMaterial (inputs (startWorld 100 0 false false)) 1)
            {| image := Some photo; needsUpdate := true |});
    try (vm_compute; reflexivity).
  - discriminate.
  - vm_compute. discriminate.
Defined.

(** ** An invariant of the page *)

Lemma complete_maps (s s' : Store) (mesh : ref) :
  meshes s' = meshes s -> geometries s' = geometries s ->
  materials s' = materials s -> textures s' = textures s ->
  complete s mesh -> complete s' mesh.
Proof.
  intros H1 H2 H3 H4. unfold complete. rewrite H1, H2, H3, H4. tauto.
Qed.

Lemma built_complete (t : DepthTensor) (img : Image) (w : World) :
  complete (store (built t img w)) (3 + nextRef (store w)).
Proof.
  destruct (built_positions t (inputs w)) as (ps & Hps & _).
  exists (builtMesh (nextRef (store w))), (nextRef (store w)),
    (builtGeometry t (inputs w)), ps, (2 + nextRef (store w))%nat,
    (builtMaterial (inputs w) (1 + nextRef (store w))),
    (1 + nextRef (store w))%nat, {| image := Some img; needsUpdate := true |}.
  unfold built. cbn [store meshes geometries materials textures].
  rewrite !lookup_insert_eq.
  repeat split; try reflexivity; try assumption.
  unfold builtMaterial. destruct (use_normal_map (inputs w)); reflexivity.
Qed.

(** The world in which [generate] builds the new mesh. *)
Lemma generate_run (t : DepthTensor) (img : Image) (w : World) :
  wf_tensor t -> consistent w ->
  exists w0,
    generate (Some t) img w
    = (Return tt,
       withScene (fun l => l ++ [(3 + nextRef (store w0))%nat])
         (setCurrentMesh (Some (3 + nextRef (store w0))%nat)
            (built t img w0)))
    /\ scene w0 = []
    /\ inputs w0 = inputs w.
Proof.
  intros Hwf Hcons. unfold consistent in Hcons. unfold generate.
  unfold bind at 1. unfold get at 1. cbv beta iota.
  destruct (currentMesh w) as [cur|] eqn:Hcur.
  - destruct Hcons as (Hsc & m & g & geom & ps & k & mat & tx & tex
                       & Hm & Hg & _ & _ & Hk & _).
    eexists. split.
    + unfold bind at 1. unfold bind at 1. unfold sceneRemove, modify at 1.
      unfold bind at 1.
      erewrite disposeGeometry_run by (cbn [withScene store]; eassumption).
      erewrite disposeMaterial_run
        by (cbn [withScene withStore store logDispose meshes]; eassumption).
      unfold bind at 1. rewrite createMesh_run by assumption.
      unfold bind at 1. unfold modify at 1. unfold sceneAdd, modify.
      reflexivity.
    + split; [|reflexivity].
      cbn [withStore withScene scene]. rewrite Hsc.
      rewrite filter_cons, decide_False by (intros H; apply H; reflexivity).
      reflexivity.
  - exists w. split; [|split; [exact Hcons | reflexivity]].
    unfold bind at 1. unfold ret at 1.
    unfold bind at 1. rewrite createMesh_run by assumption.
    unfold bind at 1. unfold modify at 1. unfold sceneAdd, modify.
    reflexivity.
Qed.

Lemma generate_consistent (t : DepthTensor) (img : Image) (w : World) :
  wf_tensor t -> consistent w -> consistent (snd (generate (Some t) img w)).
Proof.
  intros Hwf Hcons.
  destruct (generate_run t img w Hwf Hcons) as (w0 & Hrun & Hsc & _).
  rewrite Hrun. unfold consistent.
  cbn [snd withScene setCurrentMesh currentMesh scene store].
  split.
  - unfold built. cbn [scene]. rewrite Hsc. reflexivity.
  - apply built_complete.
Qed.

(** The page on which the old mesh is off the scene and its geometry and
    material were disposed. *)
Lemma update_run (t : DepthTensor) (img : Image) (w : World)
  (cur g k : ref) (m : Mesh) :
  wf_tensor t -> currentMesh w = Some cur ->
  meshes (store w) !! cur = Some m ->
  geometry m = Some g -> material m = Some k ->
  let w0 :=
    withStore (logDispose (MaterialProgram k))
      (withStore (logDispose (GeometryBuffers g))
         (withScene (filter (fun r => r <> cur)) w)) in
  let after :=
    withScene (fun l => l ++ [(3 + nextRef (store w0))%nat])
      (setCurrentMesh (Some (3 + nextRef (store w0))%nat) (built t img w0)) in
  generate (Some t) img w = (Return tt, after)
  /\ updateMeshGeometry true (Some t) img w = (Return tt, after).
Proof.
  intros Hwf Hcur Hm Hg Hk w0 after. split.
  - unfold generate.
    unfold bind at 1. unfold get at 1. cbv beta iota. rewrite Hcur.
    unfold bind at 1. unfold bind at 1. unfold sceneRemove, modify at 1.
    unfold bind at 1.
    erewrite disposeGeometry_run by (cbn [withScene store]; eassumption).
    erewrite disposeMaterial_run
      by (cbn [withScene withStore store logDispose meshes]; eassumption).
    unfold bind at 1. rewrite createMesh_run by assumption.
    unfold bind at 1. unfold modify at 1. unfold sceneAdd, modify.
    reflexivity.
  - unfold updateMeshGeometry.
    unfold bind at 1. unfold get at 1. cbv beta iota. rewrite Hcur.
    cbn [negb]. unfold tryCatch.
    unfold bind at 1. unfold sceneRemove, modify at 1.
    unfold bind at 1.
    erewrite disposeGeometry_run by (cbn [withScene store]; eassumption).
    unfold bind at 1.
    erewrite disposeMaterial_run
      by (cbn [withScene withStore store logDispose meshes]; eassumption).
    unfold bind at 1. rewrite createMesh_run by assumption.
    unfold bind at 1. unfold modify at 1. unfold sceneAdd, modify.
    reflexivity.
Qed.

Lemma update_consistent (loaded : bool) (t : DepthTensor) (img : Image)
  (w : World) :
  wf_tensor t -> consistent w ->
  consistent (snd (updateMeshGeometry loaded (Some t) img w)).
Proof.
  intros Hwf Hcons.
  destruct (currentMesh w) as [cur|] eqn:Hcur.
  - destruct loaded.
    + pose proof Hcons as Hc. unfold consistent in Hc. rewrite Hcur in Hc.
      destruct Hc as (_ & m & g & geom & ps & k & mat & tx & tex
                      & Hm & Hg & _ & _ & Hk & _).
      destruct (update_run t img w cur g k m Hwf Hcur Hm Hg Hk) as [Hgen Hupd].
      rewrite Hupd, <- Hgen. apply generate_consistent; assumption.
    + unfold updateMeshGeometry, bind, get. rewrite Hcur. exact Hcons.
  - unfold updateMeshGeometry, bind, get. rewrite Hcur. exact Hcons.
Qed.

(** X10.  With a mesh on display and the image loaded, a change of a control
    rebuilds the mesh exactly as a click on generate does. *)
Theorem update_as_generate (t : DepthTensor) (img : Image) (w : World)
  (cur : ref) :
  wf_tensor t -> consistent w -> currentMesh w = Some cur ->
  updateMeshGeometry true (Some t) img w = generate (Some t) img w
  /\ fst (generate (Some t) img w) = Return tt.
Proof.
  intros Hwf Hcons Hcur. unfold consistent in Hcons. rewrite Hcur in Hcons.
  destruct Hcons as (_ & m & g & geom & ps & k & mat & tx & tex
                     & Hm & Hg & _ & _ & Hk & _).
  destruct (update_run t img w cur g k m Hwf Hcur Hm Hg Hk) as [Hgen Hupd].
  rewrite Hupd, Hgen. split; reflexivity.
Qed.

Lemma update_as_generate_witness :
  updateMeshGeometry true (Some flat) photo (generated checker false)
  = generate (Some flat) photo (generated checker false)
  /\ fst (generate (Some flat) photo (generated checker false)) = Return tt.
Proof.
  apply (update_as_generate flat photo (generated checker false) 3).
  - exact wf_flat.
  - apply generate_consistent; [exact wf_checker | reflexivity].
  - vm_compute. reflexivity.
Defined.

Lemma downloadGLB_store (exporter : Exporter) (w : World) (cur : ref) :
  currentMesh w = Some cur ->
  store (snd (downloadGLB exporter w))
  = store (snd (downloadGLB_prepare cur w)).
Proof.
  intros Hcur.
  unfold downloadGLB, tryFinally, tryCatch, downloadGLB_body.
  unfold bind at 1. unfold get at 1. cbv beta iota. rewrite Hcur.
  unfold bind at 1.
  destruct (downloadGLB_prepare cur w) as [[p|e] w1]; [|reflexivity].
  unfold bind at 1. unfold modify at 1.
  unfold bind at 1. unfold get at 1. cbv beta iota.
  destruct (exporter _ _ _); reflexivity.
Qed.

Lemma prepare_complete (w : World) (cur : ref) :
  complete (store w) cur ->
  complete (store (snd (downloadGLB_prepare cur w))) cur.
Proof.
  intros Hc.
  pose proof Hc as (m & g & geom & ps & k & mat & t & tex
                    & Hm & Hg & Hgeom & Hps & Hk & Hmat & Hmap & Htex).
  destruct ps as [|p ps].
  - assert (H0 : count geom = 0%nat) by (unfold count; rewrite Hps; reflexivity).
    unfold downloadGLB_prepare. unfold bind at 1.
    rewrite (validate_empty_mesh w cur g m geom Hm Hg Hgeom H0). exact Hc.
  - destruct (prepare_run w cur g k t m geom (p :: ps) mat tex
                Hm Hg Hgeom Hps ltac:(discriminate) Hk Hmat Hmap Htex)
      as (pr & w1 & Hrun & _ & _ & _ & Hgs & Hms & Hmt & Htx & _).
    rewrite Hrun. cbn [snd].
    destruct (position_optimized geom (p :: ps) Hps) as (ps' & Hps' & _).
    destruct (decide (cur = nextRef (store w))) as [->|Hne].
    + exists (exportMesh m), g, (optimizedGeometry geom), ps', k, mat, t, tex.
      rewrite Hms, Hgs, Hmt, Htx, !lookup_insert_eq.
      repeat split; assumption.
    + exists m, g, (optimizedGeometry geom), ps', k, mat, t, tex.
      rewrite Hms, Hgs, Hmt, Htx, lookup_insert_eq, lookup_insert_ne
        by congruence.
      repeat split; assumption.
Qed.

Lemma downloadGLB_consistent (exporter : Exporter) (w : World) :
  consistent w -> consistent (snd (downloadGLB exporter w)).
Proof.
  intros Hcons. unfold consistent in *.
  destruct (downloadGLB_frame exporter w) as (Hsc & Hcm & _).
  rewrite Hcm, Hsc.
  destruct (currentMesh w) as [cur|] eqn:Hcur; [|exact Hcons].
  destruct Hcons as [Hs Hc]. split; [exact Hs|].
  rewrite (downloadGLB_store exporter w cur Hcur).
  apply prepare_complete, Hc.
Qed.

Lemma exportCleanup_maps (c : Cleanup) (w : World) :
  let w' := snd (exportCleanup c w) in
  scene w' = scene w /\ currentMesh w' = currentMesh w
  /\ inputs w' = inputs w /\ page w' = page w
  /\ meshes (store w') = meshes (store w)
  /\ geometries (store w') = geometries (store w)
  /\ materials (store w') = materials (store w)
  /\ textures (store w') = textures (store w)
  /\ nextRef (store w') = nextRef (store w)
  /\ (exists l, disposed (store w') = l ++ disposed (store w)
                /\ Forall (fun x => ~ isTextureData x) l).
Proof.
  unfold exportCleanup, disposeGeometry, disposeMaterial, geometryOf,
    materialOf, bind, getMesh, modify, ret, throw.
  destruct (meshes (store w) !! c_mesh c) as [m|] eqn:Hm; cbn.
  - destruct (geometry m) as [g|]; cbn.
    + rewrite Hm. destruct (material m) as [k|]; cbn.
      * repeat split; try reflexivity.
        exists [MaterialProgram k; GeometryBuffers g].
        split; [reflexivity|]. repeat constructor; simpl; tauto.
      * repeat split; try reflexivity.
        exists [GeometryBuffers g].
        split; [reflexivity|]. repeat constructor; simpl; tauto.
    + repeat split; try reflexivity. exists []. split; [reflexivity|constructor].
  - repeat split; try reflexivity. exists []. split; [reflexivity|constructor].
Qed.

Lemma exportCleanup_consistent (c : Cleanup) (w : World) :
  consistent w -> consistent (snd (exportCleanup c w)).
Proof.
  intros Hcons. unfold consistent in *.
  destruct (exportCleanup_maps c w)
    as (Hsc & Hcm & _ & _ & Hms & Hgs & Hmt & Htx & _).
  rewrite Hcm, Hsc.
  destruct (currentMesh w) as [cur|]; [|exact Hcons].
  destruct Hcons as [Hs Hc]. split; [exact Hs|].
  eapply complete_maps; eauto.
Qed.

Lemma reachable_consistent_aux (w : World) : reachable w -> consistent w.
Proof.
  induction 1 as [i|w i _ IH|w t img _ IH Hwf|w loaded t img _ IH Hwf
                  |w exporter _ IH|w c _ IH Hc].
  - reflexivity.
  - exact IH.
  - apply generate_consistent; assumption.
  - apply update_consistent; assumption.
  - apply downloadGLB_consistent; assumption.
  - apply exportCleanup_consistent; assumption.
Qed.



(** ** What is released *)

Lemma generate_disposed (t : DepthTensor) (img : Image) (w : World) :
  wf_tensor t -> consistent w ->
  exists l,
    disposed (store (snd (generate (Some t) img w)))
    = l ++ disposed (store w)
    /\ Forall (fun x => ~ isTextureData x) l.
Proof.
  intros Hwf Hcons.
  destruct (currentMesh w) as [cur|] eqn:Hcur.
  - pose proof Hcons as Hc. unfold consistent in Hc. rewrite Hcur in Hc.
    destruct Hc as (_ & m & g & geom & ps & k & mat & tx & tex
                    & Hm & Hg & _ & _ & Hk & _).
    destruct (update_run t img w cur g k m Hwf Hcur Hm Hg Hk) as [Hgen _].
    rewrite Hgen. exists [MaterialProgram k; GeometryBuffers g].
    split; [reflexivity|]. repeat constructor; simpl; tauto.
  - exists []. split; [|constructor].
    unfold generate.
    unfold bind at 1. unfold get at 1. cbv beta iota. rewrite Hcur.
    unfold bind at 1. unfold ret at 1.
    unfold bind at 1. rewrite createMesh_run by assumption.
    reflexivity.
Qed.

Lemma update_disposed (loaded : bool) (t : DepthTensor) (img : Image)
  (w : World) :
  wf_tensor t -> consistent w ->
  exists l,
    disposed (store (snd (updateMeshGeometry loaded (Some t) img w)))
    = l ++ disposed (store w)
    /\ Forall (fun x => ~ isTextureData x) l.
Proof.
  intros Hwf Hcons.
  destruct (currentMesh w) as [cur|] eqn:Hcur.
  - destruct loaded.
    + pose proof Hcons as Hc. unfold consistent in Hc. rewrite Hcur in Hc.
      destruct Hc as (_ & m & g & geom & ps & k & mat & tx & tex
                      & Hm & Hg & _ & _ & Hk & _).
      destruct (update_run t img w cur g k m Hwf Hcur Hm Hg Hk) as [_ Hupd].
      rewrite Hupd. exists [MaterialProgram k; GeometryBuffers g].
      split; [reflexivity|]. repeat constructor; simpl; tauto.
    + exists []. split; [|constructor].
      unfold updateMeshGeometry, bind, get. rewrite Hcur. reflexivity.
  - exists []. split; [|constructor].
    unfold updateMeshGeometry, bind, get. rewrite Hcur. reflexivity.
Qed.

(** X12.  On no page the script can get to has a dispose event been dispatched
    for a texture: the script releases geometries and materials only. *)
Theorem reachable_keeps_textures (w : World) :
  reachable w -> Forall (fun x => ~ isTextureData x) (disposed (store w)).
Proof.
  intros Hr.
  induction Hr as [i|w i Hr IH|w t img Hr IH Hwf|w loaded t img Hr IH Hwf
                   |w exporter Hr IH|w c Hr IH Hc].
  - constructor.
  - exact IH.
  - destruct (generate_disposed t img w Hwf (reachable_consistent_aux w Hr))
      as (l & -> & Hl).
    apply Forall_app. split; [exact Hl|exact IH].
  - destruct (update_disposed loaded t img w Hwf
                (reachable_consistent_aux w Hr)) as (l & -> & Hl).
    apply Forall_app. split; [exact Hl|exact IH].
  - destruct (downloadGLB_frame exporter w) as (_ & _ & _ & _ & _ & ->).
    exact IH.
  - destruct (exportCleanup_maps c w)
      as (_ & _ & _ & _ & _ & _ & _ & _ & _ & l & -> & Hl).
    apply Forall_app. split; [exact Hl|exact IH].
Qed.

Lemma reachable_keeps_textures_witness :
  Forall (fun x => ~ isTextureData x)
    (disposed (store (snd (generate (Some flat) photo
                             (generated checker false))))).
Proof.
  apply (reachable_keeps_textures
           (snd (generate (Some flat) photo (generated checker false)))).
  apply reach_generate; [|exact wf_flat].
  exact (reach_generate _ checker photo
           (reach_start (inputs (startWorld 100 0 false false))) wf_checker).
Defined.

(** ** Exports on the pages the script gets to *)






(** ** From the depth field to the export *)

(** X14.  The mesh that a click on generate puts on display passes the validation
    of the export exactly when the depth field has at least one value; the
    mesh of an empty depth field is turned down for its vertices. *)
Theorem generated_mesh_validation (t : DepthTensor) (img : Image)
  (w : World) (height width : nat) :
  wf_tensor t -> consistent w -> shape t = (height, width) ->
  let w1 := snd (generate (Some t) img w) in
  exists mesh,
    currentMesh w1 = Some mesh
    /\ (fst (validateModelForExport mesh w1) = Return true
        <-> (height * width)%nat <> 0%nat)
    /\ ((height * width)%nat = 0%nat ->
        fst (validateModelForExport mesh w1) = Throw EmptyMeshError).
Proof.
  intros Hwf Hcons Hshape w1.
  destruct (generate_run t img w Hwf Hcons) as (w0 & Hrun & _).
  unfold w1. rewrite Hrun. cbn [snd].
  set (r := nextRef (store w0)).
  set (wf := withScene _ _).
  exists (3 + r)%nat. split; [reflexivity|].
  assert (Hm : meshes (store wf) !! (3 + r)%nat = Some (builtMesh r))
    by (unfold wf, built; cbn [withScene setCurrentMesh store meshes];
        apply lookup_insert_eq).
  assert (Hgeom : geometries (store wf) !! r
                  = Some (builtGeometry t (inputs w0)))
    by (unfold wf, built; cbn [withScene setCurrentMesh store geometries];
        apply lookup_insert_eq).
  assert (Hmat : materials (store wf) !! (2 + r)%nat
                 = Some (builtMaterial (inputs w0) (1 + r)))
    by (unfold wf, built; cbn [withScene setCurrentMesh store materials];
        apply lookup_insert_eq).
  assert (Hmap : map_ (builtMaterial (inputs w0) (1 + r)) = Some (1 + r)%nat)
    by (unfold builtMaterial; destruct (use_normal_map (inputs w0));
        reflexivity).
  pose proof (count_built t (inputs w0)) as Hc. rewrite Hshape in Hc.
  cbn [fst snd] in Hc.
  assert (Hempty : (height * width)%nat = 0%nat ->
                   fst (validateModelForExport (3 + r) wf)
                   = Throw EmptyMeshError).
  { intros H0.
    rewrite (validate_empty_mesh wf (3 + r) r (builtMesh r)
               (builtGeometry t (inputs w0)) Hm eq_refl Hgeom)
      by (rewrite Hc; lia).
    reflexivity. }
  split; [|exact Hempty].
  split.
  - intros Hok H0. rewrite (Hempty H0) in Hok. discriminate.
  - intros Hne.
    rewrite (validate_ok wf (3 + r) r (2 + r) (1 + r) (builtMesh r)
               (builtGeometry t (inputs w0))
               (builtMaterial (inputs w0) (1 + r)) Hm eq_refl Hgeom)
      by (first [rewrite Hc; lia | reflexivity | assumption]).
    reflexivity.
Qed.

Lemma generated_mesh_validation_witness :
  let w1 := snd (generate (Some checker) photo
                   (startWorld 100 0 false false)) in
  exists mesh,
    currentMesh w1 = Some mesh
    /\ (fst (validateModelForExport mesh w1) = Return true
        <-> (2 * 2)%nat <> 0%nat)
    /\ ((2 * 2)%nat = 0%nat ->
        fst (validateModelForExport mesh w1) = Throw EmptyMeshError).
Proof.
  apply (generated_mesh_validation checker photo
           (startWorld 100 0 false false) 2 2).
  - exact wf_checker.
  - reflexivity.
  - reflexivity.
Defined.

(** ** The mesh the converter returns *)



Lemma raised_plane depthMap width es bh k v :
  Vector3.x (raised depthMap width es bh k v) = Vector3.x v
  /\ Vector3.y (raised depthMap width es bh k v) = Vector3.y v.
Proof.
  unfold raised. destruct (depthAt depthMap width k); split; reflexivity.
Qed.

(** X16.  With autoCenter off, the converter changes nothing of the plane but the
    heights: every vertex keeps the x and y of the grid, and the texture
    coordinates and the faces are those of the grid. *)
Theorem createMesh_keeps_plane (t : DepthTensor) (img : Image) (w : World)
  (height width : nat) :
  wf_tensor t -> shape t = (height, width) ->
  auto_center (inputs w) = false ->
  exists mesh w' geom ps grid,
    createMeshFromDepthMap t img w = (Return mesh, w')
    /\ geometryIn w' mesh = Some geom
    /\ position geom = Some ps
    /\ position (plane width height) = Some grid
    /\ length ps = length grid
    /\ (forall k v v0, ps !! k = Some v -> grid !! k = Some v0 ->
          Vector3.x v = Vector3.x v0 /\ Vector3.y v = Vector3.y v0)
    /\ uv geom = uv (plane width height)
    /\ index geom = index (plane width height)
    /\ boundingBox geom = None.
Proof.
  intros Hwf Hshape Hac.
  destruct (plane_position width height) as (grid & Hgrid & Hlen).
  exists (3 + nextRef (store w))%nat, (built t img w),
    (builtGeometry t (inputs w)), (displacedPositions t (inputs w)), grid.
  split; [apply createMesh_run; assumption|].
  split; [apply geometryIn_built|].
  unfold builtGeometry. rewrite Hac.
  split; [apply position_displaced|].
  split; [exact Hgrid|].
  unfold displacedGeometry, displacedPositions. rewrite Hshape, Hgrid.
  cbn [default from_option id].
  split; [apply length_imap|].
  split.
  - intros k v v0 Hv Hv0. rewrite list_lookup_imap, Hv0 in Hv.
    simpl in Hv. injection Hv as <-. apply raised_plane.
  - repeat split; reflexivity.
Qed.

Lemma createMesh_keeps_plane_witness :
  exists mesh w' geom ps grid,
    createMeshFromDepthMap checker photo (startWorld 100 0 false false)
    = (Return mesh, w')
    /\ geometryIn w' mesh = Some geom
    /\ position geom = Some ps
    /\ position (plane 2 2) = Some grid
    /\ length ps = length grid
    /\ (forall k v v0, ps !! k = Some v -> grid !! k = Some v0 ->
          Vector3.x v = Vector3.x v0 /\ Vector3.y v = Vector3.y v0)
    /\ uv geom = uv (plane 2 2)
    /\ index geom = index (plane 2 2)
    /\ boundingBox geom = None.
Proof.
  apply (createMesh_keeps_plane checker photo (startWorld 100 0 false false)
           2 2).
  - exact wf_checker.
  - reflexivity.
  - reflexivity.
Defined.



(** X18.  With autoCenter off, a depth field with values between 0 and 1 and a
    depth scale slider that is not negative give heights between
    [baseHeight * 20] and [100 * depthScale + baseHeight * 20]. *)
Theorem createMesh_heights_bounded (t : DepthTensor) (img : Image)
  (w : World) :
  wf_tensor t -> auto_center (inputs w) = false ->
  (0 <= depth_scale (inputs w))%Q ->
  Forall (Forall (fun d => 0 <= d <= 1)%Q) (array t) ->
  let depthScale := (depth_scale (inputs w) / 100)%Q in
  let baseHeight := (base_height (inputs w) / 100)%Q in
  exists mesh w' geom ps,
    createMeshFromDepthMap t img w = (Return mesh, w')
    /\ geometryIn w' mesh = Some geom
    /\ position geom = Some ps
    /\ Forall (fun v => (baseHeight * 20 <= Vector3.z v
                         <= 100 * depthScale + baseHeight * 20)%Q) ps.
Proof.
  intros Hwf Hac Hs Hrange depthScale baseHeight.
  destruct (shape t) as [height width] eqn:Hshape.
  destruct (built_positions t (inputs w)) as (ps & Hps & Hlen & _).
  exists (3 + nextRef (store w))%nat, (built t img w),
    (builtGeometry t (inputs w)), ps.
  split; [apply createMesh_run; assumption|].
  split; [apply geometryIn_built|].
  split; [exact Hps|].
  apply Forall_lookup. intros k v Hv.
  assert (Hk : (k < height * width)%nat).
  { apply lookup_lt_Some in Hv. rewrite Hlen in Hv.
    pose proof (count_displaced t (inputs w)) as Hc.
    unfold count in Hc. rewrite position_displaced, Hshape in Hc.
    simpl in Hc. lia. }
  pose proof (depthAt_wf t k Hwf) as Hd. rewrite Hshape in Hd.
  destruct (Hd Hk) as [depth Hdepth]. unfold depthAt in Hdepth.
  simpl in Hdepth.
  destruct (array t !! (k / width)%nat) as [row|] eqn:Hrow; [|discriminate].
  destruct (built_height t (inputs w) width height _ _ row depth ps
              Hwf Hshape Hps Hrow Hdepth) as (v' & Hv' & Hz).
  replace (k / width * width + k mod width)%nat with k in Hv'
    by (rewrite (Nat.div_mod_eq k width) at 1; lia).
  rewrite Hv in Hv'. injection Hv' as <-.
  assert (Hin : (0 <= depth <= 1)%Q).
  { rewrite Forall_lookup in Hrange. specialize (Hrange _ _ Hrow).
    rewrite Forall_lookup in Hrange. exact (Hrange _ _ Hdepth). }
  unfold recentring in Hz. rewrite Hac in Hz. unfold extrusion in Hz.
  fold depthScale baseHeight in Hz.
  assert (Hds : (0 <= 100 * depthScale)%Q).
  { unfold depthScale. apply Qmult_le_0_compat; [lra|].
    apply Qle_shift_div_l; lra. }
  assert (H1 : (0 <= (1 - depth) * (100 * depthScale))%Q)
    by (apply Qmult_le_0_compat; lra).
  assert (H2 : (0 <= depth * (100 * depthScale))%Q)
    by (apply Qmult_le_0_compat; lra).
  rewrite Hz. split; lra.
Qed.

Lemma createMesh_heights_bounded_witness :
  let w := startWorld 100 0 false false in
  let depthScale := (depth_scale (inputs w) / 100)%Q in
  let baseHeight := (base_height (inputs w) / 100)%Q in
  exists mesh w' geom ps,
    createMeshFromDepthMap checker photo w = (Return mesh, w')
    /\ geometryIn w' mesh = Some geom
    /\ position geom = Some ps
    /\ Forall (fun v => (baseHeight * 20 <= Vector3.z v
                         <= 100 * depthScale + baseHeight * 20)%Q) ps.
Proof.
  apply (createMesh_heights_bounded checker photo
           (startWorld 100 0 false false)).
  - exact wf_checker.
  - reflexivity.
  - vm_compute. discriminate.
  - repeat constructor; vm_compute; discriminate.
Defined.

(** ** The depth estimate *)

Lemma Qmin_either (a b : Q) : Qmin a b = a \/ Qmin a b = b.
Proof.
  unfold Qmin, GenericMinMax.gmin. destruct (a ?= b)%Q; auto.
Qed.

Lemma Qmax_either (a b : Q) : Qmax a b = a \/ Qmax a b = b.
Proof.
  unfold Qmax, GenericMinMax.gmax. destruct (a ?= b)%Q; auto.
Qed.

Lemma fold_min_spec (l : list Q) : forall v,
  (fold_left Qmin l v ∈ v :: l)
  /\ forall a, a ∈ v :: l -> (fold_left Qmin l v <= a)%Q.
Proof.
  induction l as [|b l IH]; intros v; simpl.
  - split; [left|]. intros a Ha. apply list_elem_of_singleton in Ha.
    subst. apply Qle_refl.
  - destruct (IH (Qmin v b)) as [Hin Hle]. split.
    + apply elem_of_cons in Hin as [Hin|Hin].
      * rewrite Hin. destruct (Qmin_either v b) as [-> | ->];
          [left | right; left].
      * right; right; exact Hin.
    + intros a Ha.
      assert (Hm : (fold_left Qmin l (Qmin v b) <= Qmin v b)%Q)
        by (apply Hle; left).
      apply elem_of_cons in Ha as [-> | Ha].
      * eapply Qle_trans; [exact Hm | apply Q.le_min_l].
      * apply elem_of_cons in Ha as [-> | Ha].
        -- eapply Qle_trans; [exact Hm | apply Q.le_min_r].
        -- apply Hle. right; exact Ha.
Qed.

Lemma fold_max_spec (l : list Q) : forall v,
  (fold_left Qmax l v ∈ v :: l)
  /\ forall a, a ∈ v :: l -> (a <= fold_left Qmax l v)%Q.
Proof.
  induction l as [|b l IH]; intros v; simpl.
  - split; [left|]. intros a Ha. apply list_elem_of_singleton in Ha.
    subst. apply Qle_refl.
  - destruct (IH (Qmax v b)) as [Hin Hle]. split.
    + apply elem_of_cons in Hin as [Hin|Hin].
      * rewrite Hin. destruct (Qmax_either v b) as [-> | ->];
          [left | right; left].
      * right; right; exact Hin.
    + intros a Ha.
      assert (Hm : (Qmax v b <= fold_left Qmax l (Qmax v b))%Q)
        by (apply Hle; left).
      apply elem_of_cons in Ha as [-> | Ha].
      * eapply Qle_trans; [apply Q.le_max_l | exact Hm].
      * apply elem_of_cons in Ha as [-> | Ha].
        -- eapply Qle_trans; [apply Q.le_max_r | exact Hm].
        -- apply Hle. right; exact Ha.
Qed.

Lemma elem_of_concat (rows : list (list Q)) (row : list Q) (v : Q) :
  row ∈ rows -> v ∈ row -> v ∈ concat rows.
Proof.
  intros Hrow Hv. induction Hrow as [row rows | row other rows _ IH]; simpl;
    apply elem_of_app; [left; exact Hv | right; exact (IH Hv)].
Qed.

(** The extremes of a tensor with two different elements. *)
Lemma extremes (t : DepthTensor) (a b : Q) :
  a ∈ elements t -> b ∈ elements t -> (a < b)%Q ->
  exists lo hi,
    tf_min t = Some lo /\ tf_max t = Some hi /\ (lo < hi)%Q
    /\ lo ∈ elements t /\ hi ∈ elements t
    /\ forall v, v ∈ elements t -> (lo <= v <= hi)%Q.
Proof.
  intros Ha Hb Hlt. unfold tf_min, tf_max.
  destruct (elements t) as [|v rest]; [inversion Ha|].
  destruct (fold_min_spec rest v) as [Hmin Hle].
  destruct (fold_max_spec rest v) as [Hmax Hge].
  exists (fold_left Qmin rest v), (fold_left Qmax rest v).
  repeat split; try assumption; try (apply Hle; assumption);
    try (apply Hge; assumption).
  eapply Qle_lt_trans; [apply Hle, Ha|].
  eapply Qlt_le_trans; [exact Hlt | apply Hge, Hb].
Qed.

Lemma normalise_some (t : DepthTensor) (lo hi : Q) :
  tf_min t = Some lo -> tf_max t = Some hi -> (lo < hi)%Q ->
  normalise t = Some (tf_map (fun v => (v - lo) / (hi - lo))%Q t).
Proof.
  intros Hlo Hhi Hlt. unfold normalise. rewrite Hlo, Hhi.
  destruct (Qeq_bool (hi - lo) 0) eqn:Hz; [|reflexivity].
  apply Qeq_bool_eq in Hz. lra.
Qed.

Lemma elements_tf_map (f : Q -> Q) (t : DepthTensor) :
  elements (tf_map f t) = map f (elements t).
Proof.
  unfold elements, tf_map. cbn [array].
  induction (array t) as [|row rows IH]; [reflexivity|].
  simpl. rewrite map_app, IH. reflexivity.
Qed.

Lemma wf_tf_map (f : Q -> Q) (t : DepthTensor) :
  wf_tensor t -> wf_tensor (tf_map f t).
Proof.
  intros [Hrows Hcols]. unfold wf_tensor, tf_map. cbn [array shape].
  split; [rewrite length_map; exact Hrows|].
  apply Forall_map. eapply Forall_impl; [exact Hcols|].
  intros row Hrow. simpl. rewrite length_map. exact Hrow.
Qed.

Lemma scaled_range (lo hi v : Q) :
  (lo < hi)%Q -> (lo <= v <= hi)%Q -> (0 <= (v - lo) / (hi - lo) <= 1)%Q.
Proof.
  intros Hlt [Hl Hh]. split.
  - apply Qle_shift_div_l; lra.
  - apply Qle_shift_div_r; lra.
Qed.

Lemma normalised_range (t : DepthTensor) (lo hi : Q) :
  (lo < hi)%Q -> (forall v, v ∈ elements t -> (lo <= v <= hi)%Q) ->
  Forall (Forall (fun d => 0 <= d <= 1)%Q)
    (array (tf_map (fun v => (v - lo) / (hi - lo))%Q t)).
Proof.
  intros Hlt Hall. unfold tf_map. cbn [array].
  apply Forall_map, Forall_forall. intros row Hrow.
  simpl. apply Forall_map, Forall_forall. intros v Hv. simpl.
  apply scaled_range; [exact Hlt|]. apply Hall.
  unfold elements. eapply elem_of_concat; eassumption.
Qed.

Lemma normalised_ends (t : DepthTensor) (lo hi : Q) :
  (lo < hi)%Q -> lo ∈ elements t -> hi ∈ elements t ->
  Exists (fun d => d == 0)%Q
    (elements (tf_map (fun v => (v - lo) / (hi - lo))%Q t))
  /\ Exists (fun d => d == 1)%Q
       (elements (tf_map (fun v => (v - lo) / (hi - lo))%Q t)).
Proof.
  intros Hlh Hinlo Hinhi. rewrite elements_tf_map. split.
  - apply Exists_exists. exists ((lo - lo) / (hi - lo))%Q. split.
    + apply list_elem_of_fmap. exists lo. split; [reflexivity | exact Hinlo].
    + field. lra.
  - apply Exists_exists. exists ((hi - lo) / (hi - lo))%Q. split.
    + apply list_elem_of_fmap. exists hi. split; [reflexivity | exact Hinhi].
    + field. lra.
Qed.

Lemma estimateDepth_run (model : Model) (img : Image) (w : World)
  (lo hi : Q) :
  tf_min (model img) = Some lo -> tf_max (model img) = Some hi ->
  (lo < hi)%Q ->
  estimateDepth (Some model) img w
  = (Return (Some (tf_map (fun v => (v - lo) / (hi - lo))%Q (model img))),
     withPage (setLoading (false, estimatingMessage)) w).
Proof.
  intros Hlo Hhi Hlh.
  unfold estimateDepth. rewrite (normalise_some _ lo hi Hlo Hhi Hlh).
  destruct w as [st sc cm inp [li db al sv tm]].
  reflexivity.
Qed.

(** X19.  With the model loaded and two different values in its output,
    [estimateDepth] answers a tensor of the same shape whose values lie
    between 0 and 1, 0 and 1 being among them, in the order of the output;
    on the page it changes the loading indicator and nothing else, leaving
    it hidden. *)
Theorem estimateDepth_normalised (model : Model) (img : Image) (w : World)
  (a b : Q) :
  a ∈ elements (model img) -> b ∈ elements (model img) -> (a < b)%Q ->
  exists t,
    estimateDepth (Some model) img w
    = (Return (Some t),
       withPage (setLoading (false, estimatingMessage)) w)
    /\ shape t = shape (model img)
    /\ (wf_tensor (model img) -> wf_tensor t)
    /\ Forall (Forall (fun d => 0 <= d <= 1)%Q) (array t)
    /\ Exists (fun d => d == 0)%Q (elements t)
    /\ Exists (fun d => d == 1)%Q (elements t)
    /\ exists lo hi, (lo < hi)%Q
         /\ array t = map (map (fun v => (v - lo) / (hi - lo))%Q)
                        (array (model img)).
Proof.
  intros Ha Hb Hlt.
  destruct (extremes (model img) a b Ha Hb Hlt)
    as (lo & hi & Hlo & Hhi & Hlh & Hinlo & Hinhi & Hall).
  exists (tf_map (fun v => (v - lo) / (hi - lo))%Q (model img)).
  split; [apply estimateDepth_run; assumption|].
  split; [reflexivity|].
  split; [apply wf_tf_map|].
  split; [apply normalised_range; assumption|].
  destruct (normalised_ends (model img) lo hi Hlh Hinlo Hinhi) as [H0 H1].
  split; [exact H0|]. split; [exact H1|].
  exists lo, hi. split; [exact Hlh | reflexivity].
Qed.


Lemma estimateDepth_normalised_witness :
  let w := startWorld 100 0 false false in
  exists t,
    estimateDepth (Some (constantModel raw)) photo w
    = (Return (Some t),
       withPage (setLoading (false, estimatingMessage)) w)
    /\ shape t = shape (constantModel raw photo)
    /\ (wf_tensor (constantModel raw photo) -> wf_tensor t)
    /\ Forall (Forall (fun d => 0 <= d <= 1)%Q) (array t)
    /\ Exists (fun d => d == 0)%Q (elements t)
    /\ Exists (fun d => d == 1)%Q (elements t)
    /\ exists lo hi, (lo < hi)%Q
         /\ array t = map (map (fun v => (v - lo) / (hi - lo))%Q)
                        (array (constantModel raw photo)).
Proof.
  apply (estimateDepth_normalised (constantModel raw) photo
           (startWorld 100 0 false false) 3 11).
  - vm_compute. apply list_elem_of_here.
  - vm_compute. do 3 apply list_elem_of_further. apply list_elem_of_here.
  - reflexivity.
Defined.

(** ** The generate button *)

(** X20.  A click on generate without a chosen file, or before the model is
    loaded, shows one alert and changes nothing else on the page; the file
    is looked at first. *)
Theorem generateClick_refusals (tfliteModel : option Model) (img : Image)
  (w : World) :
  uploadFile (inputs w) = None \/ tfliteModel = None ->
  generateClick tfliteModel img w
  = (Return tt,
     withPage
       (pushAlert
          match uploadFile (inputs w) with
          | None => selectFileMessage
          | Some _ => modelNotLoadedMessage
          end) w).
Proof.
  intros Hor. unfold generateClick, bind at 1, get at 1. cbv beta iota.
  destruct (uploadFile (inputs w)) as [file|] eqn:Hfile.
  - destruct Hor as [Hno | ->]; [discriminate|].
    unfold estimateDepth. unfold bind at 1. unfold bind at 1.
    unfold modify at 1. unfold ret at 1. cbv beta iota.
    unfold generate, ret. reflexivity.
  - reflexivity.
Qed.

Lemma generateClick_refusals_witness :
  generateClick None photo (startWorld 100 0 false false)
  = (Return tt,
     withPage
       (pushAlert
          match uploadFile (inputs (startWorld 100 0 false false)) with
          | None => selectFileMessage
          | Some _ => modelNotLoadedMessage
          end) (startWorld 100 0 false false)).
Proof.
  apply (generateClick_refusals None photo (startWorld 100 0 false false)).
  right. reflexivity.
Defined.

Lemma consistent_withPage (f : Page -> Page) (w : World) :
  consistent w -> consistent (withPage f w).
Proof. intros H. exact H. Qed.



(** ** Joining the parts of the model *)

Lemma set_fits (source target done rest : Bytes) :
  target = done ++ rest -> (length source <= length rest)%nat ->
  set_ source (length done) target
  = Return (done ++ source ++ drop (length source) rest).
Proof.
  intros -> Hfit. unfold set_.
  rewrite length_app.
  destruct (Nat.leb_spec (length done + length source)
              (length done + length rest)) as [_|Hlt]; [|lia].
  rewrite take_app_length.
  rewrite <- drop_drop, drop_app_length. reflexivity.
Qed.

Lemma combine_app (buffer1 buffer2 : Bytes) :
  combine buffer1 buffer2 = Return (buffer1 ++ buffer2).
Proof.
  unfold combine, Uint8Array.
  assert (Hfit : (length buffer1
                  <= length (replicate (length buffer1 + length buffer2)
                               Byte.x00))%nat)
    by (rewrite length_replicate; lia).
  pose proof (set_fits buffer1 _ [] _ eq_refl Hfit) as Hset.
  cbn [length app] in Hset. rewrite Hset. clear Hset Hfit.
  rewrite drop_replicate.
  replace (length buffer1 + length buffer2 - length buffer1)%nat
    with (length buffer2) by lia.
  rewrite (set_fits buffer2 _ buffer1 (replicate (length buffer2) Byte.x00)
             eq_refl) by (rewrite length_replicate; lia).
  rewrite drop_replicate, Nat.sub_diag. cbn [replicate].
  rewrite app_nil_r. reflexivity.
Qed.

(** X22.  The loader of assets/scripts/modelLoader.js answers a URL exactly when
    both parts come with an ok status, and the blob of that URL is the body
    of the first part followed by the body of the second; when both
    requests are answered and one status is not ok, it throws its own
    error. *)
Theorem loadModelParts_joins (fetch : string -> Fetched) :
  (forall url,
      ModelLoader.loadModelParts fetch = Return url
      <-> exists h1 body1 h2 body2,
            fetch partaa = Response true h1 body1
            /\ fetch partab = Response true h2 body2
            /\ url = BlobUrl (concat body1 ++ concat body2))
  /\ (forall ok1 h1 body1 ok2 h2 body2,
        fetch partaa = Response ok1 h1 body1 ->
        fetch partab = Response ok2 h2 body2 ->
        ok1 && ok2 = false ->
        ModelLoader.loadModelParts fetch
        = Throw (Error ModelLoader.partsMessage)).
Proof.
  unfold ModelLoader.loadModelParts. split.
  - intros url.
    destruct (fetch partaa) as [ok1 h1 body1|e1];
      [destruct (fetch partab) as [ok2 h2 body2|e2]|].
    + rewrite combine_app. destruct ok1, ok2; cbn [negb orb]; split;
        try discriminate;
        try (intros (? & ? & ? & ? & H1 & H2 & _); discriminate).
      * intros [= <-]. do 4 eexists. repeat split.
      * intros (? & ? & ? & ? & [= <- <-] & [= <- <-] & ->). reflexivity.
    + split; [discriminate|].
      intros (? & ? & ? & ? & _ & H2 & _); discriminate.
    + split; [discriminate|].
      intros (? & ? & ? & ? & H1 & _); discriminate.
  - intros ok1 h1 body1 ok2 h2 body2 -> -> Hok.
    destruct ok1, ok2; try discriminate; reflexivity.
Qed.

(** ** A part of the model, chunk by chunk *)

(** The progress values that the reading loop shows from [receivedLength]
    on. *)
Lemma readAll_spec (partNumber contentLength : nat) (stream : list Bytes) :
  forall receivedLength chunks shown,
    exists progress,
      CachedLoader.readAll partNumber contentLength stream
        receivedLength chunks shown
      = ((receivedLength + length (concat stream))%nat, chunks ++ stream,
         shown ++ progress)
      /\ length progress = length stream
      /\ forall k n, progress !! k = Some n ->
           n = CachedLoader.totalProgress partNumber
                 (receivedLength + length (concat (take (S k) stream)))
                 contentLength.
Proof.
  induction stream as [|value rest IH]; intros receivedLength chunks shown.
  - exists []. simpl. rewrite Nat.add_0_r, !app_nil_r.
    split; [reflexivity|]. split; [reflexivity|]. intros k n H. inversion H.
  - destruct (IH (receivedLength + length value)%nat (chunks ++ [value])
                (shown ++ [CachedLoader.totalProgress partNumber
                             (receivedLength + length value) contentLength]))
      as (progress & Hrun & Hlen & Hk).
    exists (CachedLoader.totalProgress partNumber
              (receivedLength + length value) contentLength :: progress).
    simpl. rewrite Hrun, length_app, <- !app_assoc. simpl.
    split; [rewrite Nat.add_assoc; reflexivity|].
    split; [rewrite Hlen; reflexivity|].
    intros [|k] n Hn; simpl in Hn.
    + injection Hn as <-. rewrite take_0. simpl. rewrite app_nil_r.
      reflexivity.
    + rewrite (Hk k n Hn). rewrite length_app. f_equal. lia.
Qed.

Lemma copyChunks_spec (chunks : list Bytes) :
  forall (done : Bytes) (extra : nat),
    CachedLoader.forOf CachedLoader.copyChunk chunks
      (done ++ replicate (length (concat chunks) + extra) Byte.x00,
       length done)
    = Return (done ++ concat chunks ++ replicate extra Byte.x00,
              (length done + length (concat chunks))%nat).
Proof.
  induction chunks as [|chunk rest IH]; intros done extra.
  - simpl. rewrite Nat.add_0_r. reflexivity.
  - simpl. unfold CachedLoader.copyChunk.
    rewrite (set_fits chunk _ done _ eq_refl)
      by (rewrite length_replicate, length_app; lia).
    rewrite drop_replicate, length_app.
    replace (length chunk + length (concat rest) + extra - length chunk)%nat
      with (length (concat rest) + extra)%nat by lia.
    rewrite app_assoc.
    replace (length done + length chunk)%nat with (length (done ++ chunk))
      by apply length_app.
    rewrite IH, length_app, <- !app_assoc. f_equal. f_equal. lia.
Qed.

Lemma loadModelPart_run (ok : bool) (header : option nat)
  (stream : list Bytes) (partNumber : nat) :
  exists progress,
    CachedLoader.loadModelPartWithProgress (Response ok header stream)
      partNumber
    = (Return (concat stream), progress)
    /\ length progress = length stream
    /\ forall k n, progress !! k = Some n ->
         n = CachedLoader.totalProgress partNumber
               (length (concat (take (S k) stream)))
               (default 0%nat header).
Proof.
  unfold CachedLoader.loadModelPartWithProgress.
  destruct (readAll_spec partNumber (default 0%nat header) stream 0%nat [] [])
    as (progress & Hrun & Hlen & Hk).
  exists progress.
  rewrite Hrun. cbn [app Nat.add]. cbv beta iota zeta.
  pose proof (copyChunks_spec stream [] 0) as Hcopy.
  cbn [app length] in Hcopy. rewrite Nat.add_0_r in Hcopy.
  unfold Uint8Array, Bytes in *. rewrite Hcopy. cbn [replicate].
  rewrite app_nil_r. split; [reflexivity|]. split; [exact Hlen | exact Hk].
Qed.

(** X23.  Whatever the status and the Content-Length of the response, and
    however the body is cut into chunks, a part is loaded as the chunks in
    the order of their arrival: the copy never runs out of the array; one
    progress value is shown per chunk. *)
Theorem loadModelPart_concatenates (ok : bool) (header : option nat)
  (stream : list Bytes) (partNumber : nat) :
  fst (CachedLoader.loadModelPartWithProgress (Response ok header stream)
         partNumber)
  = Return (concat stream)
  /\ length (snd (CachedLoader.loadModelPartWithProgress
                    (Response ok header stream) partNumber))
     = length stream.
Proof.
  destruct (loadModelPart_run ok header stream partNumber)
    as (progress & Hrun & Hlen & _).
  rewrite Hrun. split; [reflexivity | exact Hlen].
Qed.

Lemma length_concat_take (n : nat) (l : list Bytes) :
  (length (concat (take n l)) <= length (concat l))%nat.
Proof.
  rewrite <- (take_drop n l) at 2. rewrite concat_app, length_app. lia.
Qed.

Lemma length_concat_take_mono (i j : nat) (l : list Bytes) :
  (i <= j)%nat ->
  (length (concat (take i l)) <= length (concat (take j l)))%nat.
Proof.
  intros Hij. replace (take i l) with (take i (take j l)).
  - apply length_concat_take.
  - rewrite take_take. f_equal. lia.
Qed.

Lemma ofNat_le (a b : nat) : (a <= b)%nat -> (ofNat a <= ofNat b)%Q.
Proof.
  intros H. unfold ofNat. rewrite <- Zle_Qle. lia.
Qed.

Lemma ofNat_pos (a : nat) : (0 < a)%nat -> (0 < ofNat a)%Q.
Proof.
  intros H. unfold ofNat. change 0%Q with (inject_Z 0).
  rewrite <- Zlt_Qlt. lia.
Qed.

Lemma share_le (a b total : nat) :
  (0 < total)%nat -> (a <= b)%nat ->
  (ofNat a / ofNat total <= ofNat b / ofNat total)%Q.
Proof.
  intros Ht Hab. unfold Qdiv. apply Qmult_le_compat_r.
  - apply ofNat_le, Hab.
  - apply Qlt_le_weak, Qinv_lt_0_compat, ofNat_pos, Ht.
Qed.

Lemma share_range (a total : nat) :
  (0 < total)%nat -> (a <= total)%nat ->
  (0 <= ofNat a / ofNat total <= 1)%Q.
Proof.
  intros Ht Ha. pose proof (ofNat_pos total Ht) as Hpos. split.
  - apply Qle_shift_div_l; [exact Hpos|].
    rewrite Qmult_0_l. change 0%Q with (ofNat 0). apply ofNat_le. lia.
  - apply Qle_shift_div_r; [exact Hpos|].
    rewrite Qmult_1_l. apply ofNat_le, Ha.
Qed.

(** X24.  When the Content-Length of a part is the length of its body, and the
    body is not empty, the progress values that the part shows are numbers
    between [(partNumber - 1) * 50] and [partNumber * 50], they never go
    down, and the last one is [partNumber * 50]. *)
Theorem loadModelPart_progress (ok : bool) (stream : list Bytes)
  (partNumber total : nat) :
  length (concat stream) = total -> (0 < total)%nat ->
  exists qs,
    snd (CachedLoader.loadModelPartWithProgress
           (Response ok (Some total) stream) partNumber)
    = map CachedLoader.Finite qs
    /\ Forall (fun q => ((ofNat partNumber - 1) * 50 <= q
                         <= ofNat partNumber * 50)%Q) qs
    /\ (forall i j a b, (i <= j)%nat ->
          qs !! i = Some a -> qs !! j = Some b -> (a <= b)%Q)
    /\ exists q, last qs = Some q /\ (q == ofNat partNumber * 50)%Q.
Proof.
  intros Htotal Hpos.
  set (received := fun k => length (concat (take (S k) stream))).
  set (value := fun k =>
         ((ofNat partNumber - 1) * 50
          + ((ofNat (received k) / ofNat total) * 100) / 2)%Q).
  exists (map value (seq 0 (length stream))).
  assert (Hvalue : forall k n,
            CachedLoader.totalProgress partNumber (received k) total = n ->
            n = CachedLoader.Finite (value k)).
  { intros k n <-. unfold CachedLoader.totalProgress.
    destruct total; [lia | reflexivity]. }
  split.
  { destruct (loadModelPart_run ok (Some total) stream partNumber)
      as (progress & Hrun & Hlen & Hk).
    rewrite Hrun. cbn [snd default from_option id] in *.
    apply list_eq. intros k. rewrite !list_lookup_fmap.
    destruct (progress !! k) as [n|] eqn:Hn.
    - assert (Hlt : (k < length stream)%nat)
        by (rewrite <- Hlen; eapply lookup_lt_Some; exact Hn).
      rewrite (lookup_seq_lt _ _ _ Hlt). simpl.
      f_equal. apply Hvalue. symmetry. exact (Hk k n Hn).
    - apply lookup_ge_None in Hn. rewrite Hlen in Hn.
      rewrite (lookup_seq_ge _ _ _ Hn). reflexivity. }
  assert (Hreceived : forall k, (received k <= total)%nat).
  { intros k. unfold received. rewrite <- Htotal. apply length_concat_take. }
  assert (Hat : forall k q,
            map value (seq 0 (length stream)) !! k = Some q ->
            q = value k /\ (k < length stream)%nat).
  { intros k q Hq. change (map value ?l) with (value <$> l) in Hq.
    rewrite list_lookup_fmap in Hq.
    destruct (seq 0 (length stream) !! k) as [k'|] eqn:Hk; [|discriminate].
    apply lookup_seq in Hk as [-> Hlt]. simpl in Hq.
    injection Hq as <-. split; [reflexivity | exact Hlt]. }
  split; [|split].
  - apply Forall_lookup. intros k q Hq.
    destruct (Hat k q Hq) as [-> _]. unfold value.
    pose proof (share_range (received k) total Hpos (Hreceived k)) as Hr.
    set (share := (ofNat (received k) / ofNat total)%Q) in *.
    assert (share * 100 / 2 == share * 50)%Q as -> by field.
    split; lra.
  - intros i j a b Hij Ha Hb.
    destruct (Hat i a Ha) as [-> _]. destruct (Hat j b Hb) as [-> _].
    unfold value.
    assert (Hle : (received i <= received j)%nat)
      by (apply length_concat_take_mono; lia).
    pose proof (share_le _ _ total Hpos Hle) as Hshare.
    set (si := (ofNat (received i) / ofNat total)%Q) in *.
    set (sj := (ofNat (received j) / ofNat total)%Q) in *.
    assert (si * 100 / 2 == si * 50)%Q as -> by field.
    assert (sj * 100 / 2 == sj * 50)%Q as -> by field.
    lra.
  - assert (Hne : (0 < length stream)%nat).
    { destruct stream; [simpl in Htotal; lia | simpl; lia]. }
    exists (value (pred (length stream))). split.
    + rewrite last_lookup, length_map, length_seq.
      change (map value ?l) with (value <$> l).
      rewrite list_lookup_fmap, lookup_seq_lt by lia. reflexivity.
    + unfold value, received.
      replace (S (pred (length stream))) with (length stream) by lia.
      rewrite firstn_all, Htotal.
      field. pose proof (ofNat_pos total Hpos). lra.
Qed.

Lemma loadModelPart_progress_witness :
  exists qs,
    snd (CachedLoader.loadModelPartWithProgress
           (Response true (Some 3%nat) [[Byte.x01; Byte.x02]; [Byte.x03]])
           1)
    = map CachedLoader.Finite qs
    /\ Forall (fun q => ((ofNat 1 - 1) * 50 <= q <= ofNat 1 * 50)%Q) qs
    /\ (forall i j a b, (i <= j)%nat ->
          qs !! i = Some a -> qs !! j = Some b -> (a <= b)%Q)
    /\ exists q, last qs = Some q /\ (q == ofNat 1 * 50)%Q.
Proof.
  apply (loadModelPart_progress true [[Byte.x01; Byte.x02]; [Byte.x03]]
           1 3).
  - reflexivity.
  - lia.
Defined.

(** Without a Content-Length header, or with a Content-Length of 0, no
    progress value that a part shows is a number. *)
Theorem loadModelPart_progress_unknown (ok : bool) (header : option nat)
  (stream : list Bytes) (partNumber : nat) :
  default 0%nat header = 0%nat ->
  Forall (fun n => n = CachedLoader.Infinity \/ n = CachedLoader.NaN)
    (snd (CachedLoader.loadModelPartWithProgress
            (Response ok header stream) partNumber)).
Proof.
  intros Hzero.
  destruct (loadModelPart_run ok header stream partNumber)
    as (progress & Hrun & Hlen & Hk).
  rewrite Hrun. cbn [snd].
  apply Forall_lookup. intros k n Hn. rewrite (Hk k n Hn), Hzero.
  unfold CachedLoader.totalProgress.
  destruct (length (concat (take (S k) stream))); [right | left];
    reflexivity.
Qed.

(** ** The parts of the model and the cache *)

Lemma progressText_100 :
  CachedLoader.progressText (CachedLoader.Finite 100) = "Cargando modelo: 100%".
Proof. reflexivity. Qed.

(** X25.  With a working cache that does not hold both parts yet, and both
    requests answered (with whatever status), the loader answers the URL of
    a blob that is the first body followed by the second, leaves the parts
    in the cache, shows 100% and schedules the hiding of the indicator; any
    later call answers the same blob from the cache, without a look at the
    network and without a change of the page. *)
Theorem loadModelParts_round_trip (fetch : string -> Fetched)
  (secondFailsFirst : bool) (b : CachedLoader.Browser)
  (ok1 ok2 : bool) (h1 h2 : option nat) (body1 body2 : list Bytes) :
  CachedLoader.cachesInWindow b = true ->
  CachedLoader.cacheFails b = false ->
  CachedLoader.checkModelCache b = None ->
  fetch partaa = Response ok1 h1 body1 ->
  fetch partab = Response ok2 h2 body2 ->
  exists b',
    CachedLoader.loadModelParts fetch secondFailsFirst b
    = (Return (BlobUrl (concat body1 ++ concat body2)), b')
    /\ CachedLoader.checkModelCache b' = Some (concat body1, concat body2)
    /\ CachedLoader.indicator b'
       = (fun _ => (true, "Cargando modelo: 100%"%string))
           <$> CachedLoader.indicator b
    /\ CachedLoader.hideAfter b' = 1000%N :: CachedLoader.hideAfter b
    /\ forall fetch' secondFailsFirst',
         CachedLoader.loadModelParts fetch' secondFailsFirst' b'
         = (Return (BlobUrl (concat body1 ++ concat body2)), b').
Proof.
  intros Hin Hfails Hcache Hf1 Hf2.
  destruct (loadModelPart_run ok1 h1 body1 1) as (p1 & Hp1 & _).
  destruct (loadModelPart_run ok2 h2 body2 2) as (p2 & Hp2 & _).
  destruct b as [inw fails entries ind hide].
  cbn [CachedLoader.cachesInWindow CachedLoader.cacheFails] in Hin, Hfails.
  subst inw fails.
  set (b' :=
         {| CachedLoader.cachesInWindow := true;
            CachedLoader.cacheFails := false;
            CachedLoader.cacheEntries :=
              <["model_part2"%string := concat body2]>
                (<["model_part1"%string := concat body1]> entries);
            CachedLoader.indicator :=
              (fun _ => (true, CachedLoader.progressText
                                 (CachedLoader.Finite 100)))
                <$> ((fun _ => (true, CachedLoader.progressText
                                        (CachedLoader.Finite 0)))
                       <$> ind);
            CachedLoader.hideAfter := 1000%N :: hide |}).
  exists b'. split.
  { unfold CachedLoader.loadModelParts, CachedLoader.loadModelParts_try.
    rewrite Hcache, Hf1, Hf2, Hp1, Hp2. cbn [fst].
    cbn [CachedLoader.falsy orb]. rewrite combine_app.
    reflexivity. }
  assert (Hheld : CachedLoader.checkModelCache b'
                  = Some (concat body1, concat body2)).
  { unfold CachedLoader.checkModelCache, b'.
    cbn [CachedLoader.cachesInWindow CachedLoader.cacheFails
         CachedLoader.cacheEntries].
    rewrite lookup_insert_ne by discriminate.
    rewrite !lookup_insert_eq. reflexivity. }
  split; [exact Hheld|].
  split.
  { unfold b'. cbn [CachedLoader.indicator]. rewrite progressText_100.
    destruct ind; reflexivity. }
  split; [reflexivity|].
  intros fetch' secondFailsFirst'.
  unfold CachedLoader.loadModelParts, CachedLoader.loadModelParts_try.
  rewrite Hheld, combine_app. reflexivity.
Qed.

Lemma loadModelParts_round_trip_witness :
  exists b',
    CachedLoader.loadModelParts server false freshBrowser
    = (Return (BlobUrl (concat [[Byte.x01; Byte.x02]; [Byte.x03]]
                          ++ concat [[Byte.x04]])), b')
    /\ CachedLoader.checkModelCache b'
       = Some (concat [[Byte.x01; Byte.x02]; [Byte.x03]],
               concat [[Byte.x04]])
    /\ CachedLoader.indicator b'
       = (fun _ => (true, "Cargando modelo: 100%"%string))
           <$> CachedLoader.indicator freshBrowser
    /\ CachedLoader.hideAfter b'
       = 1000%N :: CachedLoader.hideAfter freshBrowser
    /\ forall fetch' secondFailsFirst',
         CachedLoader.loadModelParts fetch' secondFailsFirst' b'
         = (Return (BlobUrl (concat [[Byte.x01; Byte.x02]; [Byte.x03]]
                               ++ concat [[Byte.x04]])), b').
Proof.
  apply (loadModelParts_round_trip server false freshBrowser
           true false (Some 3%nat) None).
  - reflexivity.
  - reflexivity.
  - vm_compute. reflexivity.
  - reflexivity.
  - reflexivity.
Defined.



(** ** The attempts to load the model *)

Ltac load_cases race parts :=
  unfold loadModel, chosenUrl in *;
  cbn [MODEL_URL withLoadingPage] in *;
  destruct (race (match parts with Return url => url | Throw _ => fallback end)
              1%nat) as [[m1|]|e1|] eqn:H1;
  destruct (race (match parts with Return url => url | Throw _ => fallback end)
              2%nat) as [[m2|]|e2|] eqn:H2;
  destruct (race (match parts with Return url => url | Throw _ => fallback end)
              3%nat) as [[m3|]|e3|] eqn:H3;
  cbn [attemptLoop maxRetries Nat.ltb Nat.leb MODEL_URL tfliteModel waited
       loadingPage withLoadingPage fst snd givesModel failureOf] in *;
  rewrite ?H1, ?H2, ?H3 in *;
  cbn [attemptLoop maxRetries Nat.ltb Nat.leb MODEL_URL tfliteModel waited
       loadingPage withLoadingPage fst snd givesModel failureOf] in *.

(** X27.  Whatever the attempts do, [loadModel] waits between them at most once
    for 1000 ms and then once for 2000 ms, so no more than 3 s in all and
    never after the third attempt; it loads from the URL of the parts, or
    from the fallback when the parts failed, and leaves the indicator on
    show. *)
Theorem loadModel_waits (parts : Outcome Url) (race : Url -> nat -> Race)
  (s : Loading) :
  exists l,
    waited (snd (loadModel parts race s)) = l ++ waited s
    /\ sublist l [2000; 1000]%N
    /\ (foldr N.add 0 l <= 3000)%N
    /\ MODEL_URL (snd (loadModel parts race s)) = chosenUrl parts
    /\ fst (loadingIndicator (loadingPage (snd (loadModel parts race s))))
       = true.
Proof.
  destruct s as [u tm wt [li db al sv tmo]].
  load_cases race parts;
    first [ exists (@nil N); split; [reflexivity|]
          | exists [1000%N]; split; [reflexivity|]
          | exists [2000%N]; split; [reflexivity|]
          | exists [2000%N; 1000%N]; split; [reflexivity|] ];
    (split; [eauto using sublist|]);
    (split; [simpl; lia|]); split; reflexivity.
Qed.

(** X28.  When attempt [k] of the three is the first that gives a model, and the
    earlier ones fail or give nothing, [loadModel] answers true with that
    model in [tfliteModel], shows no alert and says that the model is
    ready. *)
Theorem loadModel_succeeds (parts : Outcome Url) (race : Url -> nat -> Race)
  (s : Loading) (k : nat) (m : Model) :
  (1 <= k <= 3)%nat ->
  race (chosenUrl parts) k = Resolved (Some m) ->
  (forall j, (1 <= j < k)%nat -> givesModel (race (chosenUrl parts) j) = false) ->
  fst (loadModel parts race s) = true
  /\ tfliteModel (snd (loadModel parts race s)) = Some m
  /\ alerts (loadingPage (snd (loadModel parts race s)))
     = alerts (loadingPage s)
  /\ loadingIndicator (loadingPage (snd (loadModel parts race s)))
     = (true, "Modelo listo. Puede comenzar a generar."%string).
Proof.
  intros Hk Hm Hearlier.
  assert (Hcases : k = 1%nat \/ k = 2%nat \/ k = 3%nat) by lia.
  pose proof (Hearlier 1%nat) as He1. pose proof (Hearlier 2%nat) as He2.
  clear Hearlier.
  destruct s as [u tm wt [li db al sv tmo]].
  destruct Hcases as [-> | [-> | ->]];
    load_cases race parts;
    try discriminate;
    try (specialize (He1 ltac:(lia)); discriminate);
    try (specialize (He2 ltac:(lia)); discriminate);
    injection Hm as <-; repeat split; reflexivity.
Qed.

Lemma loadModel_succeeds_witness :
  let parts : Outcome Url := Throw (Error ModelLoader.partsMessage) in
  let race := secondAttempt (constantModel raw) in
  fst (loadModel parts race startLoading) = true
  /\ tfliteModel (snd (loadModel parts race startLoading))
     = Some (constantModel raw)
  /\ alerts (loadingPage (snd (loadModel parts race startLoading)))
     = alerts (loadingPage startLoading)
  /\ loadingIndicator (loadingPage (snd (loadModel parts race startLoading)))
     = (true, "Modelo listo. Puede comenzar a generar."%string).
Proof.
  apply (loadModel_succeeds (Throw (Error ModelLoader.partsMessage))
           (secondAttempt (constantModel raw)) startLoading 2
           (constantModel raw)).
  - lia.
  - reflexivity.
  - intros j Hj. assert (j = 1%nat) as -> by lia. reflexivity.
Defined.

(** X29.  When none of the three attempts gives a model, [loadModel] answers
    false with one alert, chosen by the error of the latest attempt that
    failed: after a timeout of the third attempt it is the one about the
    slow connection.  [tfliteModel] is what it was, or nothing. *)
Theorem loadModel_gives_up (parts : Outcome Url) (race : Url -> nat -> Race)
  (s : Loading) :
  (forall j, (1 <= j <= 3)%nat -> givesModel (race (chosenUrl parts) j) = false) ->
  let url := chosenUrl parts in
  let lastError :=
    match failureOf (race url 3%nat) 3 with
    | Some e => Some e
    | None =>
        match failureOf (race url 2%nat) 2 with
        | Some e => Some e
        | None => failureOf (race url 1%nat) 1
        end
    end in
  let e :=
    default (Error "No se pudo cargar el modelo después de varios intentos")
      lastError in
  fst (loadModel parts race s) = false
  /\ alerts (loadingPage (snd (loadModel parts race s)))
     = errorMessage e :: alerts (loadingPage s)
  /\ loadingIndicator (loadingPage (snd (loadModel parts race s)))
     = (true, "Error al cargar el modelo. Intente recargar la página."%string)
  /\ (tfliteModel (snd (loadModel parts race s)) = tfliteModel s
      \/ tfliteModel (snd (loadModel parts race s)) = None)
  /\ (race url 3%nat = TimedOut ->
      errorMessage e
      = loadFailedPrefix
        +:+ "La conexión es muy lenta. Intente con una mejor conexión a internet.").
Proof.
  intros Hnone url lastError e. subst e lastError url.
  pose proof (Hnone 1%nat ltac:(lia)) as Hn1.
  pose proof (Hnone 2%nat ltac:(lia)) as Hn2.
  pose proof (Hnone 3%nat ltac:(lia)) as Hn3. clear Hnone.
  destruct s as [u tm wt [li db al sv tmo]].
  load_cases race parts; try discriminate;
    (split; [reflexivity|]); (split; [reflexivity|]);
    (split; [reflexivity|]);
    (split; [first [left; reflexivity | right; reflexivity]|]);
    intros Ht; first [discriminate | reflexivity].
Qed.

Lemma loadModel_gives_up_witness :
  let parts : Outcome Url := Return (BlobUrl [Byte.x01]) in
  let url := chosenUrl parts in
  let lastError :=
    match failureOf (neverLoads url 3%nat) 3 with
    | Some e => Some e
    | None =>
        match failureOf (neverLoads url 2%nat) 2 with
        | Some e => Some e
        | None => failureOf (neverLoads url 1%nat) 1
        end
    end in
  let e :=
    default (Error "No se pudo cargar el modelo después de varios intentos")
      lastError in
  fst (loadModel parts neverLoads startLoading) = false
  /\ alerts (loadingPage (snd (loadModel parts neverLoads startLoading)))
     = errorMessage e :: alerts (loadingPage startLoading)
  /\ loadingIndicator
       (loadingPage (snd (loadModel parts neverLoads startLoading)))
     = (true, "Error al cargar el modelo. Intente recargar la página."%string)
  /\ (tfliteModel (snd (loadModel parts neverLoads startLoading))
      = tfliteModel startLoading
      \/ tfliteModel (snd (loadModel parts neverLoads startLoading)) = None)
  /\ (neverLoads url 3%nat = TimedOut ->
      errorMessage e
      = loadFailedPrefix
        +:+ "La conexión es muy lenta. Intente con una mejor conexión a internet.").
Proof.
  apply (loadModel_gives_up (Return (BlobUrl [Byte.x01])) neverLoads
           startLoading).
  intros j Hj. reflexivity.
Defined.

(** ** Waiting for the TFLite library *)

Lemma waitForTFLite_from (defined : nat -> bool) (calls : nat) :
  forall c, (c < maxAttempts)%nat -> (maxAttempts - c <= calls)%nat ->
    (forall k, (k < c)%nat -> defined k = false) ->
    (exists t, (t < maxAttempts)%nat
       /\ waitForTFLite calls defined c c c = (LoadStarted, t, t)
       /\ defined t = true /\ forall k, (k < t)%nat -> defined k = false)
    \/ (waitForTFLite calls defined c c c
        = (GaveUp, maxAttempts, pred maxAttempts)
        /\ forall k, (k < maxAttempts)%nat -> defined k = false).
Proof.
  induction calls as [|calls IH]; intros c Hc Hcalls Hbefore; [lia|].
  cbn [waitForTFLite].
  destruct (defined c) eqn:Hdef.
  - left. exists c. repeat split; assumption.
  - assert (Hnext : forall k, (k < S c)%nat -> defined k = false).
    { intros k Hk. destruct (Nat.eq_dec k c) as [-> | Hne];
        [exact Hdef | apply Hbefore; lia]. }
    destruct (Nat.leb_spec maxAttempts (S c)) as [Hlast | Hmore].
    + right. assert (S c = maxAttempts) as Heq by lia.
      split.
      * rewrite Heq. f_equal. rewrite <- Heq. reflexivity.
      * rewrite <- Heq. exact Hnext.
    + apply IH; [lia | lia | exact Hnext].
Qed.

(** X30.  Called again by its timeout as often as it asks for, [waitForTFLite]
    ends within 50 calls and 49 timeouts of 100 ms: it starts the loading
    of the model exactly when [tflite] is defined at one of the first 50
    calls, at the first such call; otherwise it gives up at the 50th. *)
Theorem waitForTFLite_ends (defined : nat -> bool) (calls : nat) :
  (maxAttempts <= calls)%nat ->
  let '(ending, attempts, timeouts) := waitForTFLite calls defined 0 0 0 in
  ending <> Pending
  /\ (timeouts < maxAttempts)%nat
  /\ (ending = LoadStarted
      <-> exists k, (k < maxAttempts)%nat /\ defined k = true)
  /\ (ending = LoadStarted ->
      attempts = timeouts /\ defined timeouts = true
      /\ forall k, (k < timeouts)%nat -> defined k = false)
  /\ (ending = GaveUp ->
      attempts = maxAttempts /\ timeouts = pred maxAttempts).
Proof.
  intros Hcalls.
  assert (Hmax : (0 < maxAttempts)%nat) by (unfold maxAttempts; lia).
  destruct (waitForTFLite_from defined calls 0 Hmax ltac:(lia)
              ltac:(intros k Hk; lia))
    as [(t & Ht & -> & Hdef & Hbefore) | [-> Hnone]].
  - split; [discriminate|]. split; [exact Ht|].
    split; [split; [intros _; exists t; split; assumption | reflexivity]|].
    split; [intros _; repeat split; assumption | discriminate].
  - split; [discriminate|]. split; [lia|].
    split.
    + split; [discriminate|].
      intros (k & Hk & Hdef). rewrite (Hnone k Hk) in Hdef. discriminate.
    + split; [discriminate | intros _; split; reflexivity].
Qed.

Lemma waitForTFLite_ends_witness :
  let '(ending, attempts, timeouts) :=
    waitForTFLite 50 definedFrom3 0 0 0 in
  ending <> Pending
  /\ (timeouts < maxAttempts)%nat
  /\ (ending = LoadStarted
      <-> exists k, (k < maxAttempts)%nat /\ definedFrom3 k = true)
  /\ (ending = LoadStarted ->
      attempts = timeouts /\ definedFrom3 timeouts = true
      /\ forall k, (k < timeouts)%nat -> definedFrom3 k = false)
  /\ (ending = GaveUp ->
      attempts = maxAttempts /\ timeouts = pred maxAttempts).
Proof.
  apply (waitForTFLite_ends definedFrom3 50).
  unfold maxAttempts. lia.
Defined.
